(** * create-totistack: the generation pipeline and the code it generates

    A shallow embedding of the parts of the generator that its specification
    makes promises about:

    - [helper/helperF.js]: the naming functions [toCamelCase], [toPascalCase];
    - [generateStore.js]: input checks and collection normalisation;
    - [generateRouter.js]: the route table;
    - [helper/generateValidationModule.js]: the validator emitted per
      collection;
    - [helper/generateFirestoreUtilFile.js]: the collection actions [get],
      [assignRoles], [revokeRoles], [fetchInitialPage], [fetchNextPage] of
      the emitted module.

    The repository holds [generateStore.js] and
    [generateFirestoreUtilFile.js] twice: a first generation that works on
    collection names, and a second one ("with advanced features") that works
    on collection configurations.  Both are embedded.

    The last two files are generators of JavaScript text.  What they emit
    is embedded as the program its template spells out, together with the
    condition under which the emitted text is JavaScript at all.

    JavaScript strings are modelled as [string] restricted to ASCII: case
    mapping touches the letters A-Z / a-z only and white space is the ASCII
    part of the class [\s] (tab, line feed, vertical tab, form feed, carriage
    return, space).  Code units above 127 are carried unchanged. *)

From Stdlib Require Import String Ascii List Bool Arith ZArith Lia DecimalString.
From stdpp Require Import base option list strings gmap.

Open Scope string_scope.

Set Warnings "-register-all".

(** ** JavaScript string primitives used by the sources *)

Module Js.

(** The white space of [trim] and of the class [\s] within ASCII: tab, line
    feed, vertical tab, form feed, carriage return and space. *)
Definition isWhiteSpace (c : ascii) : bool :=
  let n := nat_of_ascii c in (Nat.leb 9 n && Nat.leb n 13) || Nat.eqb n 32.

Definition isUpperAZ (c : ascii) : bool :=
  let n := nat_of_ascii c in Nat.leb 65 n && Nat.leb n 90.

Definition isLowerAZ (c : ascii) : bool :=
  let n := nat_of_ascii c in Nat.leb 97 n && Nat.leb n 122.

(** The case mappings within ASCII: they move the letters A-Z and a-z and
    leave every other code unit as it is. *)
Definition toLowerChar (c : ascii) : ascii :=
  if isUpperAZ c then ascii_of_nat (nat_of_ascii c + 32) else c.

Definition toUpperChar (c : ascii) : ascii :=
  if isLowerAZ c then ascii_of_nat (nat_of_ascii c - 32) else c.

Fixpoint mapChars (f : ascii -> ascii) (s : string) : string :=
  match s with
  | EmptyString => EmptyString
  | String c r => String (f c) (mapChars f r)
  end.

(** [String.prototype.toLowerCase] and [toUpperCase]. *)
Definition toLowerCase : string -> string := mapChars toLowerChar.
Definition toUpperCase : string -> string := mapChars toUpperChar.

Fixpoint allChars (p : ascii -> bool) (s : string) : bool :=
  match s with
  | EmptyString => true
  | String c r => p c && allChars p r
  end.

Fixpoint trimStart (s : string) : string :=
  match s with
  | EmptyString => EmptyString
  | String c r => if isWhiteSpace c then trimStart r else s
  end.

Fixpoint trimEnd (s : string) : string :=
  match s with
  | EmptyString => EmptyString
  | String c r =>
      match trimEnd r with
      | EmptyString => if isWhiteSpace c then EmptyString else String c EmptyString
      | t => String c t
      end
  end.

(** [String.prototype.trim]. *)
Definition trim (s : string) : string := trimEnd (trimStart s).

(** [s.charAt(0)]: the first character as a string, [""] on the empty string. *)
Definition charAt0 (s : string) : string :=
  match s with
  | EmptyString => EmptyString
  | String c _ => String c EmptyString
  end.

(** [s.slice(1)]. *)
Definition slice1 (s : string) : string :=
  match s with
  | EmptyString => EmptyString
  | String _ r => r
  end.

(** [arr.join('')]. *)
Fixpoint joinEmpty (l : list string) : string :=
  match l with
  | [] => EmptyString
  | w :: r => w ++ joinEmpty r
  end.

(** Truthiness of a string: only [""] is falsy. *)
Definition truthy (s : string) : bool :=
  match s with EmptyString => false | _ => true end.

End Js.

(** *** ASCII text

    On text whose code units are all below 128 the primitives of [Js] are
    those of JavaScript: there [trim] and the class [\s] know the six
    white-space characters above, and the case mappings move the 26 letters
    only.  Outside ASCII JavaScript knows further white space (U+00A0,
    U+2028, U+FEFF, ...) and further case pairs, some of them of unequal
    length, which [Js] does not follow; a statement that depends on the
    class or the case of single characters is made for ASCII text. *)

Section AsciiText.

Definition isAsciiChar (c : ascii) : bool := Nat.ltb (nat_of_ascii c) 128.

Definition isAsciiText (s : string) : bool := Js.allChars isAsciiChar s.

End AsciiText.

(** ** helper/helperF.js: the Naming Deriver *)

Module Naming.
Import Js.

(** The character class [[-\s_]] of the split pattern. *)
Definition isSeparator (c : ascii) : bool :=
  Ascii.eqb c "-" || isWhiteSpace c || Ascii.eqb c "_".

Definition startsWithSeparator (s : string) : bool :=
  match s with
  | EmptyString => false
  | String c _ => isSeparator c
  end.

Definition consHead (c : ascii) (l : list string) : list string :=
  match l with
  | [] => [String c EmptyString]
  | w :: r => String c w :: r
  end.

(** [s.split(/[-\s_]+/)]: the pieces between maximal runs of separators.  A
    run at the very start or the very end leaves an empty piece there, and
    the empty string splits into the single piece [""]. *)
Fixpoint splitSeparators (s : string) : list string :=
  match s with
  | EmptyString => [EmptyString]
  | String c r =>
      if isSeparator c then
        if startsWithSeparator r then splitSeparators r
        else EmptyString :: splitSeparators r
      else consHead c (splitSeparators r)
  end.

(** [w.charAt(0).toUpperCase() + w.slice(1)]. *)
Definition capitalizeWord (w : string) : string :=
  toUpperCase (charAt0 w) ++ slice1 w.

(** [capitalize] of helperF.js is the same expression. *)
Definition capitalize (str : string) : string :=
  toUpperCase (charAt0 str) ++ slice1 str.

Definition toCamelCase (str : string) : string :=
  joinEmpty
    (imap (fun i w => if Nat.eqb i 0 then w else capitalizeWord w)
          (splitSeparators (toLowerCase (trim str)))).

Definition toPascalCase (str : string) : string :=
  joinEmpty (map capitalizeWord (splitSeparators (toLowerCase (trim str)))).

End Naming.

(** ** generateStore.js: input checks and collection normalisation *)

Module Store.
Import Js Naming.

(** A value a caller may leave out ([undefined]), pass as [null], or give. *)
Inductive Given (A : Type) : Type :=
| Undefined
| Null
| Val (a : A).
Arguments Undefined {A}.
Arguments Null {A}.
Arguments Val {A} a.

(** Destructuring with a default: the default replaces [undefined] only. *)
Definition orDefault {A} (d : A) (g : Given A) : Given A :=
  match g with
  | Undefined => Val d
  | other => other
  end.

(** The field map of a collection: field name and type tag, in insertion order. *)
Definition Fields := list (string * string).

(** A collection as the intake hands it over. *)
Record RawCollection := {
  raw_name : option string;
  raw_fields : option Fields;
  raw_dataType : option string
}.

(** A collection after normalisation. *)
Record Collection := {
  name : string;
  fields : Fields;
  dataType : string
}.

Record Options := {
  storeName : Given string;
  collections : Given (list RawCollection);
  roles : list string;
  addActivityLogging : bool
}.

Inductive StoreError :=
| StoreNameRequired
| CollectionRequired
| MissingNameOrFields (c : RawCollection).

(** The message of the thrown [Error]; [json] stands for [JSON.stringify]. *)
Definition errorMessage (json : RawCollection -> string) (e : StoreError) : string :=
  match e with
  | StoreNameRequired => "Store name is required"
  | CollectionRequired => "At least one collection is required"
  | MissingNameOrFields c =>
      "Collection " ++ String (ascii_of_nat 34) (json c) ++ String (ascii_of_nat 34)
        " is missing 'name' or 'fields' property. Each collection must have a name and define its fields."
  end.

(** A collection as a helper receives it: the first generation passes the
    name, the second the whole configuration object. *)
Inductive CollArg :=
| ByName (n : string)
| ByConfig (c : Collection).

(** What a run does to the outside, in order.  The helper generators are the
    file-writing collaborators; each call is recorded with its arguments and
    taken to return.  Console messages are kept without their leading
    pictograph. *)
Inductive Action :=
| EnsureDir (dir : string)
| StateFile (baseDir : string) (cols auth : list CollArg) (logging : bool)
| FirestoreUtilFile (baseDir : string) (auth : list CollArg) (roles : list string) (logging : bool)
| CollectionActionModule (baseDir : string) (col : CollArg)
| ValidationModule (baseDir : string) (col : Collection)
| IndexFile (storeName baseDir : string) (cols auth : list string) (logging : bool)
| ActivityLogger (baseDir : string)
| Documentation (storeName baseDir : string) (cols auth : list CollArg) (roles : list string)
    (logging : bool)
| ConsoleLog (msg : string)
| ConsoleError (e : StoreError).

Definition touchesDisk (a : Action) : bool :=
  match a with
  | ConsoleLog _ | ConsoleError _ => false
  | _ => true
  end.

Inductive Outcome :=
| Finished
| Threw (e : StoreError).

Record Run := { outcome : Outcome; actions : list Action }.

Definition authNames : list string :=
  ["users"; "user"; "customer"; "client"; "clients"; "customers"; "student";
   "students"; "admins"; "admin"; "accounts"; "account"].

Definition includes (l : list string) (s : string) : bool :=
  existsb (String.eqb s) l.

(** [isAuthCollection] of lib/generateStore.js, on a collection name. *)
Definition isAuthCollection (collectionName : string) : bool :=
  includes authNames (toLowerCase collectionName).

(** [isAuthCollection] of the second generation, on a collection config. *)
Definition isAuthCollectionConfig (c : Collection) : bool :=
  includes authNames (toLowerCase (name c)).

(** [path.join(a, b)] for segments that need no normalising. *)
Definition joinPath (a b : string) : string := a ++ "/" ++ b.

Definition storeNameFalsy (g : Given string) : bool :=
  match g with
  | Val s => negb (truthy s)
  | _ => true
  end.

Definition collectionsFalsyOrEmpty {A} (g : Given (list A)) : bool :=
  match g with
  | Val (_ :: _) => false
  | _ => true
  end.

(** The [catch] block: log the error and throw it again. *)
Definition rethrow (e : StoreError) : Run :=
  {| outcome := Threw e; actions := [ConsoleError e] |}.

(** *** First generation: collections are names *)

Record OptionsV1 := {
  storeName1 : Given string;
  collections1 : Given (list string);
  roles1 : list string;
  addActivityLogging1 : bool
}.

Definition processNames (cs : list string) : list string :=
  filter (fun s => truthy s = true) (map (fun c => trim (toCamelCase c)) cs).

Definition generateStoreV1 (options : OptionsV1) : Run :=
  let storeName := orDefault "appStore" (storeName1 options) in
  let collections := orDefault [] (collections1 options) in
  if storeNameFalsy storeName then rethrow StoreNameRequired
  else if collectionsFalsyOrEmpty collections then rethrow CollectionRequired
  else
    match storeName, collections with
    | Val sn, Val cs =>
        let processedCollections := processNames cs in
        let authCollections := filter (fun c => isAuthCollection c = true) processedCollections in
        let baseDir := joinPath (joinPath "src" "stores") sn in
        let actionsDir := joinPath baseDir "actions" in
        let logging := addActivityLogging1 options in
        {| outcome := Finished;
           actions :=
             [EnsureDir actionsDir;
              StateFile baseDir (map ByName processedCollections)
                (map ByName authCollections) logging;
              FirestoreUtilFile baseDir (map ByName authCollections) (roles1 options) logging]
             ++ map (fun c => CollectionActionModule baseDir (ByName c)) processedCollections
             ++ [IndexFile sn baseDir processedCollections authCollections logging]
             ++ (if logging then [ActivityLogger baseDir] else [])
             ++ [Documentation sn baseDir (map ByName processedCollections)
                   (map ByName authCollections) (roles1 options) logging;
                 ConsoleLog ("Store " ++ sn ++ " generated successfully.")] |}
    | _, _ => rethrow CollectionRequired
    end.

(** *** Second generation: collections are configuration objects *)

Definition lacksNameOrFields (c : RawCollection) : bool :=
  match raw_name c, raw_fields c with
  | Some n, Some _ => negb (truthy n)
  | _, _ => true
  end.

(** The callback of [collections.map]: throws on a malformed entry. *)
Definition processCollection (c : RawCollection) : StoreError + Collection :=
  match raw_name c, raw_fields c with
  | Some n, Some f =>
      if truthy n then
        inr {| name := trim (toCamelCase n);
               fields := f;
               dataType := match raw_dataType c with
                           | Some d => if truthy d then d else "object"
                           | None => "object"
                           end |}
      else inl (MissingNameOrFields c)
  | _, _ => inl (MissingNameOrFields c)
  end.

(** [collections.map(callback)]: the first throw ends the whole map. *)
Fixpoint mapThrowing (cs : list RawCollection) : StoreError + list Collection :=
  match cs with
  | [] => inr []
  | c :: r =>
      match processCollection c with
      | inl e => inl e
      | inr p =>
          match mapThrowing r with
          | inl e => inl e
          | inr ps => inr (p :: ps)
          end
      end
  end.

(** [collections.map(...).filter(c => c.name)]. *)
Definition processCollections (cs : list RawCollection) : StoreError + list Collection :=
  match mapThrowing cs with
  | inl e => inl e
  | inr ps => inr (filter (fun c => truthy (name c) = true) ps)
  end.

Definition generateStore (options : Options) : Run :=
  let sname := orDefault "appStore" (storeName options) in
  let colls := orDefault [] (collections options) in
  if storeNameFalsy sname then rethrow StoreNameRequired
  else if collectionsFalsyOrEmpty colls then rethrow CollectionRequired
  else
    match sname, colls with
    | Val sn, Val cs =>
        match processCollections cs with
        | inl e => rethrow e
        | inr processedCollections =>
            let authCollections :=
              filter (fun c => isAuthCollectionConfig c = true) processedCollections in
            let names := map name processedCollections in
            let authNamesOfRun := map name authCollections in
            let baseDir := joinPath (joinPath "src" "stores") sn in
            let actionsDir := joinPath baseDir "actions" in
            let logging := addActivityLogging options in
            {| outcome := Finished;
               actions :=
                 [EnsureDir actionsDir;
                  StateFile baseDir (map ByConfig processedCollections)
                    (map ByConfig authCollections) logging;
                  FirestoreUtilFile baseDir (map ByConfig authCollections)
                    (roles options) logging]
                 ++ map (fun c => CollectionActionModule baseDir (ByConfig c))
                      processedCollections
                 ++ flat_map (fun c => [CollectionActionModule baseDir (ByConfig c);
                                        ValidationModule baseDir c]) processedCollections
                 ++ [IndexFile sn baseDir names authNamesOfRun logging]
                 ++ (if logging then [ActivityLogger baseDir] else [])
                 ++ [Documentation sn baseDir (map ByConfig processedCollections)
                       (map ByConfig authCollections) (roles options) logging;
                     ConsoleLog ("Store " ++ sn ++ " generated successfully.")] |}
        end
    | _, _ => rethrow CollectionRequired
    end.

End Store.

(** ** generateRouter.js: the route table *)

Module Router.
Import Js Naming.

Record Meta := {
  layout : string;
  requiresAuth : option bool;
  guestOnly : option bool;
  requiresAdmin : option bool
}.

(** A route record; a key the source leaves out is [None]. *)
Record Route := {
  path : string;
  rname : option string;
  component : option string;
  props : option bool;
  meta : option Meta;
  redirect : option string
}.

Record Answers := {
  enableAuth : bool;
  enableRoles : bool;
  enableAuthViews : bool;
  enableAdmin : bool;
  enableLanding : bool;
  collections : option (list Store.Collection)
}.

Definition getStandardComponentLazyImportPath (componentName subDir : string) : string :=
  "() => import('@/views/" ++ (if truthy subDir then subDir ++ "/" else "")
    ++ componentName ++ ".vue')".

Definition view (p n comp subDir : string) (m : Meta) : Route :=
  {| path := p; rname := Some n;
     component := Some (getStandardComponentLazyImportPath comp subDir);
     props := None; meta := Some m; redirect := None |}.

Definition guestLayout (guest : option bool) : Meta :=
  {| layout := "GuestLayout"; requiresAuth := None; guestOnly := guest; requiresAdmin := None |}.

Definition appLayout : Meta :=
  {| layout := "AppLayout"; requiresAuth := Some true; guestOnly := None; requiresAdmin := None |}.

Definition adminLayout (roles : bool) : Meta :=
  {| layout := "AdminLayout"; requiresAuth := Some true; guestOnly := None;
     requiresAdmin := Some roles |}.

Definition landingRoute : Route := view "/" "Home" "LandingPage" "" (guestLayout None).

Definition homeRoute : Route := view "/" "Home" "HomeView" "" appLayout.

Definition authRoutes : list Route :=
  [ view "/login" "Login" "LoginView" "auth" (guestLayout (Some true));
    view "/register" "Register" "RegisterView" "auth" (guestLayout (Some true));
    view "/forgot-password" "ForgotPassword" "ForgotPasswordView" "auth" (guestLayout (Some true));
    view "/reset-password" "ResetPassword" "ResetPasswordView" "auth" (guestLayout (Some true));
    view "/verify-email" "VerifyEmail" "VerifyEmailView" "auth" (guestLayout (Some true));
    view "/unauthorized" "Unauthorized" "UnauthorizedView" "auth" (guestLayout None);
    view "/account" "Account" "AccountView" "" appLayout;
    view "/settings" "Settings" "SettingsView" "" appLayout ].

Definition adminRoutes (roles : bool) : list Route :=
  [ view "/admin/dashboard" "AdminDashboard" "DashboardView" "admin" (adminLayout roles);
    view "/admin/users" "AdminUsers" "UsersView" "admin" (adminLayout roles) ].

(** The two routes pushed for one collection. *)
Definition collectionRoutes (collectionConfig : Store.Collection) : list Route :=
  let pascalCollectionName := toPascalCase (Store.name collectionConfig) in
  let camelCollectionName := toCamelCase (Store.name collectionConfig) in
  [ {| path := "/" ++ camelCollectionName ++ "/create";
       rname := Some (pascalCollectionName ++ "Create");
       component := Some ("() => import('@/views/" ++ camelCollectionName ++ "/Create.vue')");
       props := None;
       meta := Some appLayout;
       redirect := None |};
    {| path := "/" ++ camelCollectionName ++ "/edit/:id";
       rname := Some (pascalCollectionName ++ "Edit");
       component := Some ("() => import('@/views/" ++ camelCollectionName ++ "/Edit.vue')");
       props := Some true;
       meta := Some appLayout;
       redirect := None |} ].

Definition catchAllRoute : Route :=
  {| path := "/:pathMatch(.*)*"; rname := None; component := None; props := None;
     meta := None; redirect := Some "/" |}.

(** [routes.push(...)]. *)
Definition push (routes new : list Route) : list Route := routes ++ new.

(** The [routes] array as [generateRouter] has built it when it renders the
    router file: the statements of the source in their order, each passing
    the array on. *)
Definition generateRoutes (answers : Answers) : list Route :=
  let routes := [] in
  let routes :=
    if enableLanding answers then push routes [landingRoute]
    else push routes [homeRoute] in
  let routes :=
    if enableAuth answers && enableAuthViews answers then push routes authRoutes
    else routes in
  let routes :=
    if enableAdmin answers then push routes (adminRoutes (enableRoles answers))
    else routes in
  let routes :=
    match collections answers with
    | Some (c :: r) =>
        fold_left (fun acc collectionConfig => push acc (collectionRoutes collectionConfig))
                  (c :: r) routes
    | _ => routes
    end in
  push routes [catchAllRoute].

End Router.

(** ** helper/generateValidationModule.js: the validator of a collection *)

Module Validation.
Import Js Naming.

(** *** The values a validator receives

    Numbers are [NaN] or an integer: the validator looks at a number only
    through [typeof], [isNaN] and the blankness of its text, none of which
    tells a fraction from an integer.  A date carries its time value, [None]
    for an invalid date.  Property lookup sees own properties only. *)

Inductive JsNumber :=
| NaN
| Int (z : Z).

Inductive Value :=
| VUndefined
| VNull
| VBool (b : bool)
| VNumber (n : JsNumber)
| VString (s : string)
| VArray (items : list Value)
| VObject (props : list (string * Value))
| VDate (time : option Z).

Definition numberToString (n : JsNumber) : string :=
  match n with
  | NaN => "NaN"
  | Int z => NilZero.string_of_int (Z.to_int z)
  end.

(** [String(v)].  An array is its elements joined by commas, [null] and
    [undefined] elements giving the empty text; a plain object is
    ["[object Object]"].  The text of a valid date depends on the host's
    time zone; it is never blank, and the model puts the time value in its
    place. *)
Fixpoint toString (v : Value) : string :=
  match v with
  | VUndefined => "undefined"
  | VNull => "null"
  | VBool true => "true"
  | VBool false => "false"
  | VNumber n => numberToString n
  | VString s => s
  | VArray items =>
      (fix join (l : list Value) : string :=
         match l with
         | [] => ""
         | x :: r =>
             let text := match x with
                         | VUndefined | VNull => ""
                         | _ => toString x
                         end in
             match r with
             | [] => text
             | _ :: _ => text ++ "," ++ join r
             end
         end) items
  | VObject _ => "[object Object]"
  | VDate None => "Invalid Date"
  | VDate (Some t) => "Date " ++ NilZero.string_of_int (Z.to_int t)
  end.

Definition typeOf (v : Value) : string :=
  match v with
  | VUndefined => "undefined"
  | VNull => "object"
  | VBool _ => "boolean"
  | VNumber _ => "number"
  | VString _ => "string"
  | VArray _ | VObject _ | VDate _ => "object"
  end.

Definition isTruthy (v : Value) : bool :=
  match v with
  | VUndefined | VNull | VBool false | VNumber NaN | VNumber (Int 0) | VString "" => false
  | _ => true
  end.

(** [a || b]. *)
Definition jsOr (a b : Value) : Value := if isTruthy a then a else b.

Fixpoint lookupProp (props : list (string * Value)) (key : string) : Value :=
  match props with
  | [] => VUndefined
  | (k, v) :: r => if String.eqb k key then v else lookupProp r key
  end.

(** [data.key], for a [data] that is not [null] or [undefined]: the own
    property of a plain object.  The properties every object inherits
    ([constructor], [toString], ...) and those of the wrappers of strings,
    numbers and arrays are not followed. *)
Definition getProp (data : Value) (key : string) : Value :=
  match data with
  | VObject props => lookupProp props key
  | _ => VUndefined
  end.

(** *** [Number(text)]: which texts are numeric

    A text converts to a number when, white space trimmed, it is empty, a
    signed decimal literal (digits with an optional fraction and exponent,
    or [Infinity]), or an unsigned binary, octal or hexadecimal literal. *)

Definition isDigit (c : ascii) : bool :=
  let n := nat_of_ascii c in Nat.leb 48 n && Nat.leb n 57.

Definition isHexDigit (c : ascii) : bool :=
  let n := nat_of_ascii c in
  isDigit c || (Nat.leb 65 n && Nat.leb n 70) || (Nat.leb 97 n && Nat.leb n 102).

Definition isBinaryDigit (c : ascii) : bool := Ascii.eqb c "0" || Ascii.eqb c "1".

Definition isOctalDigit (c : ascii) : bool :=
  let n := nat_of_ascii c in Nat.leb 48 n && Nat.leb n 55.

Fixpoint skipDigits (s : string) : string :=
  match s with
  | EmptyString => EmptyString
  | String c r => if isDigit c then skipDigits r else s
  end.

Definition startsWithDigit (s : string) : bool :=
  match s with
  | EmptyString => false
  | String c _ => isDigit c
  end.

Definition dropSign (s : string) : string :=
  match s with
  | String c r => if Ascii.eqb c "+" || Ascii.eqb c "-" then r else s
  | EmptyString => EmptyString
  end.

(** Nothing, or an exponent part and nothing after it. *)
Definition exponentOrEnd (s : string) : bool :=
  match s with
  | EmptyString => true
  | String c r =>
      (Ascii.eqb c "e" || Ascii.eqb c "E")
      && startsWithDigit (dropSign r)
      && negb (truthy (skipDigits (dropSign r)))
  end.

Definition decimalLiteral (s : string) : bool :=
  if String.eqb s "Infinity" then true
  else if startsWithDigit s then
    match skipDigits s with
    | String c r => if Ascii.eqb c "." then exponentOrEnd (skipDigits r)
                    else exponentOrEnd (String c r)
    | EmptyString => true
    end
  else
    match s with
    | String c r => Ascii.eqb c "." && startsWithDigit r && exponentOrEnd (skipDigits r)
    | EmptyString => false
    end.

Definition radixLiteral (s : string) : bool :=
  match s with
  | String z (String x r) =>
      Ascii.eqb z "0" && truthy r
      && (((Ascii.eqb x "x" || Ascii.eqb x "X") && allChars isHexDigit r)
          || ((Ascii.eqb x "b" || Ascii.eqb x "B") && allChars isBinaryDigit r)
          || ((Ascii.eqb x "o" || Ascii.eqb x "O") && allChars isOctalDigit r))
  | _ => false
  end.

Definition numericText (s : string) : bool :=
  let t := trim s in
  negb (truthy t) || decimalLiteral (dropSign t) || radixLiteral t.

(** [isNaN(v)], that is [Number(v)] is [NaN]: an array or object converts
    through its text, a date through its time value. *)
Definition isNaN (v : Value) : bool :=
  match v with
  | VUndefined => true
  | VNull | VBool _ => false
  | VNumber NaN => true
  | VNumber (Int _) => false
  | VString s => negb (numericText s)
  | VArray _ | VObject _ => negb (numericText (toString v))
  | VDate None => true
  | VDate (Some _) => false
  end.

(** *** The email pattern [/^\S+@\S+\.\S+$/] *)

Definition notWhiteSpace (c : ascii) : bool := negb (isWhiteSpace c).

(** Somewhere in [r] there is a dot with at least one character after it. *)
Fixpoint dotThenMore (r : string) : bool :=
  match r with
  | EmptyString => false
  | String c r' => (Ascii.eqb c "." && truthy r') || dotThenMore r'
  end.

(** [s] is one character, then [dotThenMore]. *)
Definition domainShape (s : string) : bool :=
  match s with
  | EmptyString => false
  | String _ r => dotThenMore r
  end.

Fixpoint atThenDomain (r : string) : bool :=
  match r with
  | EmptyString => false
  | String c r' => (Ascii.eqb c "@" && domainShape r') || atThenDomain r'
  end.

(** [/^\S+@\S+\.\S+$/.test(s)]: no white space anywhere, an [@] after at
    least one character, and later a dot with at least one character
    between the two and at least one after the dot. *)
Definition emailPatternTest (s : string) : bool :=
  allChars notWhiteSpace s
  && match s with
     | EmptyString => false
     | String _ r => atThenDomain r
     end.

(** *** The environment of a validator run *)

Record Env := {
  (** [new Date(text).getTime()], [None] for [NaN]. *)
  parseDate : string -> option Z;
  (** [fetchSignInMethodsForEmail(auth, email)]: the sign-in methods, or the
      error the call rejects with. *)
  fetchSignInMethodsForEmail : string -> string + list string
}.

(** *** The checks the template emits *)

Inductive TypeTag := TString | TNumber | TBoolean | TArray | TObject | TTimestamp | TEmail.

(** One emitted statement of the validator body. *)
Inductive Check :=
| RequiredCheck (fieldName : string)
| TypeCheck (fieldName : string) (tag : TypeTag) (typeErrorMessage : string)
| GetAuth
| EmailExistenceCheck (emailField : string).

(** The [switch (fieldType)] of the generator: the condition to emit and its
    message, nothing for an unknown type. *)
Definition typeCheckOf (fieldName fieldType : string) : option (TypeTag * string) :=
  if String.eqb fieldType "string" then
    Some (TString, "'" ++ fieldName ++ "' must be a string.")
  else if String.eqb fieldType "number" then
    Some (TNumber, "'" ++ fieldName ++ "' must be a number.")
  else if String.eqb fieldType "boolean" then
    Some (TBoolean, "'" ++ fieldName ++ "' must be a boolean.")
  else if String.eqb fieldType "array" then
    Some (TArray, "'" ++ fieldName ++ "' must be an array.")
  else if String.eqb fieldType "object" then
    Some (TObject, "'" ++ fieldName ++ "' must be an object.")
  else if String.eqb fieldType "timestamp" then
    Some (TTimestamp, "'" ++ fieldName ++ "' must be a valid date or timestamp string.")
  else if String.eqb fieldType "email" then
    Some (TEmail, "'" ++ fieldName ++ "' must be a valid email format.")
  else None.

Record Emitted := {
  requiredFieldChecks : list Check;
  typeChecks : list Check;
  emailFields : list string
}.

(** The body of [for (const fieldName in fields)]. *)
Definition emitField (acc : Emitted) (field : string * string) : Emitted :=
  let '(fieldName, fieldType) := field in
  {| requiredFieldChecks := requiredFieldChecks acc ++ [RequiredCheck fieldName];
     typeChecks :=
       match typeCheckOf fieldName fieldType with
       | Some (tag, msg) => typeChecks acc ++ [TypeCheck fieldName tag msg]
       | None => typeChecks acc
       end;
     emailFields :=
       if String.eqb fieldType "email" then emailFields acc ++ [fieldName]
       else emailFields acc |}.

Definition emailExistenceChecks (emails : list string) : list Check :=
  match emails with
  | [] => []
  | _ :: _ => GetAuth :: map EmailExistenceCheck emails
  end.

(** The body of the emitted [validate<Collection>(data)], in order. *)
Definition generateValidationModule (fields : Store.Fields) : list Check :=
  let e := fold_left emitField fields
             {| requiredFieldChecks := []; typeChecks := []; emailFields := [] |} in
  requiredFieldChecks e ++ typeChecks e ++ emailExistenceChecks (emailFields e).

(** The [typeCheckCondition] text of a tag, for the field [f]. *)
Definition typeCheckConditionText (f : string) (tag : TypeTag) : string :=
  match tag with
  | TString => "typeof data." ++ f ++ " !== 'string'"
  | TNumber => "typeof data." ++ f ++ " !== 'number' || isNaN(data." ++ f ++ ")"
  | TBoolean => "typeof data." ++ f ++ " !== 'boolean'"
  | TArray => "!Array.isArray(data." ++ f ++ ")"
  | TObject =>
      "typeof data." ++ f ++ " !== 'object' || Array.isArray(data." ++ f
        ++ ") || data." ++ f ++ " === null"
  | TTimestamp =>
      "(typeof data." ++ f ++ " !== 'string' && !(data." ++ f
        ++ " instanceof Date)) || isNaN(new Date(data." ++ f ++ ").getTime())"
  | TEmail =>
      "typeof data." ++ f ++ " !== 'string' || !/^\S+@\S+\.\S+$/.test(data." ++ f ++ ")"
  end.

(** The text of one emitted type check.  The template splices
    [typeErrorMessage] into [errors.push(...)] as it is, without quotation
    marks around it. *)
Definition renderTypeCheck (fieldName : string) (tag : TypeTag) (typeErrorMessage : string)
  : string :=
  "  if (data." ++ fieldName ++ " !== undefined && data." ++ fieldName
    ++ " !== null && String(data." ++ fieldName ++ ").trim() !== '' && "
    ++ typeCheckConditionText fieldName tag ++ ") {" ++ String (ascii_of_nat 10)
       ("    errors.push(" ++ typeErrorMessage ++ ");" ++ String (ascii_of_nat 10) "  }").

(** *** Running the emitted validator *)

Inductive ValidationError :=
| Required (fieldName : string)
| TypeMismatch (fieldName : string) (typeErrorMessage : string)
| EmailInUse (emailField : string).

(** The string pushed onto [errors]. *)
Definition message (e : ValidationError) : string :=
  match e with
  | Required f => f ++ " is required."
  | TypeMismatch _ msg => msg
  | EmailInUse f => "The email address '" ++ f ++ "' is already in use."
  end.

Definition fieldOf (e : ValidationError) : string :=
  match e with
  | Required f | TypeMismatch f _ | EmailInUse f => f
  end.

(** A [console.error] of the catch block: the field and the caught error. *)
Record LogEntry := { logField : string; logError : string }.

Record Result := { errors : list ValidationError; consoleErrors : list LogEntry }.

(** [v === undefined || v === null || String(v).trim() === '']. *)
Definition isBlank (v : Value) : bool :=
  match v with
  | VUndefined | VNull => true
  | _ => negb (truthy (trim (toString v)))
  end.

Definition isArray (v : Value) : bool :=
  match v with VArray _ => true | _ => false end.

Definition isDate (v : Value) : bool :=
  match v with VDate _ => true | _ => false end.

(** The largest time value of a date, in milliseconds either side of the
    epoch. *)
Definition maxTime : Z := 8640000000000000%Z.

(** [new Date(v).getTime()], [None] for [NaN]. *)
Definition timeOf (env : Env) (v : Value) : option Z :=
  match v with
  | VUndefined => None
  | VNull => Some 0%Z
  | VBool b => Some (if b then 1%Z else 0%Z)
  | VNumber NaN => None
  | VNumber (Int z) =>
      if (Z.leb (- maxTime) z && Z.leb z maxTime)%bool then Some z else None
  | VString s => parseDate env s
  | VArray _ | VObject _ => parseDate env (toString v)
  | VDate t => t
  end.

(** The operands of the [||] chain of a [typeCheckCondition], in order, on
    the value of the field. *)
Definition typeCheckCondition (env : Env) (tag : TypeTag) (v : Value) : list bool :=
  match tag with
  | TString => [negb (String.eqb (typeOf v) "string")]
  | TNumber => [negb (String.eqb (typeOf v) "number"); isNaN v]
  | TBoolean => [negb (String.eqb (typeOf v) "boolean")]
  | TArray => [negb (isArray v)]
  | TObject =>
      [negb (String.eqb (typeOf v) "object");
       isArray v;
       match v with VNull => true | _ => false end]
  | TTimestamp =>
      [negb (String.eqb (typeOf v) "string") && negb (isDate v);
       match timeOf env v with None => true | Some _ => false end]
  | TEmail =>
      [negb (String.eqb (typeOf v) "string");
       negb (emailPatternTest (toString v))]
  end.

(** The condition of an emitted type check.  The template writes
    [<present> && <not null> && <not blank> && ${typeCheckCondition}] with
    no parentheses around the condition it splices in; [&&] binds tighter
    than [||], so the guard covers the first operand of the condition only
    and every later operand stands on its own. *)
Definition emittedTypeCondition (env : Env) (tag : TypeTag) (v : Value) : bool :=
  match typeCheckCondition env tag v with
  | [] => negb (isBlank v)
  | first :: others => (negb (isBlank v) && first) || existsb (fun b => b) others
  end.

(** The guard of the existence check: a non-blank string of email shape. *)
Definition existenceGuard (v : Value) : bool :=
  match v with
  | VString s => truthy (trim s) && emailPatternTest s
  | _ => false
  end.

Definition pushError (r : Result) (e : ValidationError) : Result :=
  {| errors := errors r ++ [e]; consoleErrors := consoleErrors r |}.

Definition logError' (r : Result) (l : LogEntry) : Result :=
  {| errors := errors r; consoleErrors := consoleErrors r ++ [l] |}.

(** One statement of the validator body, on the object [data]. *)
Definition runCheck (env : Env) (data : Value) (r : Result) (c : Check) : Result :=
  match c with
  | RequiredCheck f =>
      if isBlank (getProp data f) then pushError r (Required f) else r
  | TypeCheck f tag msg =>
      if emittedTypeCondition env tag (getProp data f)
      then pushError r (TypeMismatch f msg) else r
  | GetAuth => r
  | EmailExistenceCheck f =>
      match getProp data f with
      | VString s =>
          if existenceGuard (VString s) then
            match fetchSignInMethodsForEmail env s with
            | inr (_ :: _) => pushError r (EmailInUse f)
            | inr [] => r
            | inl error => logError' r {| logField := f; logError := error |}
            end
          else r
      | _ => r
      end
  end.

(** The statements of the emitted function in order, after
    [data = data || {}]. *)
Definition runValidator (env : Env) (checks : list Check) (data : Value) : Result :=
  fold_left (runCheck env (jsOr data (VObject [])))
            checks {| errors := []; consoleErrors := [] |}.

(** The body of the emitted [validate<Collection>] run on an input, each
    type check pushing its message: what the emitted function does once the
    message is put between quotation marks. *)
Definition validateBody (env : Env) (fields : Store.Fields) (data : Value) : Result :=
  runValidator env (generateValidationModule fields) data.

(** The messages [validateBody] resolves to. *)
Definition bodyMessages (env : Env) (fields : Store.Fields) (data : Value) : list string :=
  map message (errors (validateBody env fields data)).

(** Whether the emitted file is a JavaScript module.  Every emitted type
    check holds [errors.push('<field>' must be ...);], a string literal
    followed by bare words, which is not an argument list; the file parses
    only when no type check was emitted. *)
Definition validatorParses (checks : list Check) : bool :=
  forallb (fun c => match c with TypeCheck _ _ _ => false | _ => true end) checks.

(** What importing the emitted file gives: the validator, or [None] for the
    [SyntaxError] of a file that does not parse. *)
Definition importValidator (fields : Store.Fields) : option (Env -> Value -> Result) :=
  if validatorParses (generateValidationModule fields)
  then Some (fun env data => validateBody env fields data)
  else None.

End Validation.

(** ** helper/generateFirestoreUtilFile.js: the emitted collection actions

    The generator writes [useFirestoreCollectionActions(collectionName,
    state)]; the actions below are the bodies of the methods of the object
    it returns, for one collection.  The repository holds two generations of
    the generator; [Basic] is the first, [Advanced] the second. *)

Module Firestore.
Import Js.

(** A document: its [roles] field, when it has one, and its other fields. *)
Record DocData := {
  roles : option (list string);
  payload : list (string * Validation.Value)
}.

(** A document snapshot of a query, also the shape [{ id, ...data }] of an
    item. *)
Record Snapshot := { snapId : string; snapData : DocData }.

Inductive Constraint :=
| Where (field operator : string) (value : Validation.Value)
| OrderBy (field direction : string)
| Limit (n : nat)
| StartAfter (cursor : Snapshot).

(** An entry of the [activityLogs] collection: action type and document id. *)
Record Activity := { actionType : string; documentId : option string }.

(** The store behind the collection.  [docs] holds the documents by id;
    [scan] answers the [where] and [orderBy] part of a query with the
    matching documents in order; [outage], when set, is the error every
    call to the store rejects with. *)
Record Db := {
  docs : gmap string DocData;
  scan : list Constraint -> list Snapshot;
  outage : option string;
  activityLogs : list Activity
}.

Record User := { uid : option string; userRoles : option (list string) }.

Record SortConfig := { sortField : string; direction : option string }.

(** [state[collectionName].value], with [F] the shape of the filters. *)
Record View (F : Type) := {
  items : list Snapshot;
  lastVisible : option Snapshot;
  hasMore : bool;
  filters : F;
  orderBy : option SortConfig;
  pageSize : nat;
  total : option nat
}.
Arguments items {F}.
Arguments lastVisible {F}.
Arguments hasMore {F}.
Arguments filters {F}.
Arguments orderBy {F}.
Arguments pageSize {F}.
Arguments total {F}.

Record State (F : Type) := {
  loading : bool;
  error : option string;
  currentUser : option User;
  view : View F
}.
Arguments loading {F}.
Arguments error {F}.
Arguments currentUser {F}.
Arguments view {F}.

Record World (F : Type) := { st : State F; db : Db; console : list string }.
Arguments st {F}.
Arguments db {F}.
Arguments console {F}.

Inductive Outcome (A : Type) :=
| Returned (a : A)
| Thrown (msg : string).
Arguments Returned {A} a.
Arguments Thrown {A} msg.

(** An asynchronous method body: it reads and writes the state and the
    store, and returns or throws. *)
Definition M (F A : Type) := World F -> Outcome A * World F.

Definition ret {F A} (a : A) : M F A := fun w => (Returned a, w).

Definition throw {F A} (msg : string) : M F A := fun w => (Thrown msg, w).

Definition bind {F A B} (m : M F A) (k : A -> M F B) : M F B :=
  fun w =>
    match m w with
    | (Returned a, w') => k a w'
    | (Thrown e, w') => (Thrown e, w')
    end.

Notation "x <- m ;; k" := (bind m (fun x => k))
  (at level 100, m at next level, right associativity).
Notation "m ;;; k" := (bind m (fun _ => k))
  (at level 100, right associativity).

Definition setError {F} (msg : string) (w : World F) : World F :=
  {| st := {| loading := loading (st w); error := Some msg;
              currentUser := currentUser (st w); view := view (st w) |};
     db := db w; console := console w |}.

Definition setLoading {F} (b : bool) : M F unit :=
  fun w =>
    (Returned tt,
     {| st := {| loading := b; error := error (st w);
                 currentUser := currentUser (st w); view := view (st w) |};
        db := db w; console := console w |}).

Definition setView {F} (v : View F) : M F unit :=
  fun w =>
    (Returned tt,
     {| st := {| loading := loading (st w); error := error (st w);
                 currentUser := currentUser (st w); view := v |};
        db := db w; console := console w |}).

Definition getView {F} : M F (View F) := fun w => (Returned (view (st w)), w).

Definition getUser {F} : M F (option User) := fun w => (Returned (currentUser (st w)), w).

(** [try { m } catch (error) { state.error.value = error.message; throw error }]. *)
Definition recordingError {F A} (m : M F A) : M F A :=
  fun w =>
    match m w with
    | (Thrown e, w') => (Thrown e, setError e w')
    | r => r
    end.

(** [try { m } finally { state.loading.value = false }]. *)
Definition finallyNotLoading {F A} (m : M F A) : M F A :=
  fun w =>
    match m w with
    | (o, w') => (o, snd (setLoading false w'))
    end.

Definition consoleWarn {F} (msg : string) : M F unit :=
  fun w => (Returned tt, {| st := st w; db := db w; console := (console w ++ [msg])%list |}).

(** *** The store's calls *)

(** [getDoc(doc(db, collectionName, id))]: the data, [None] when
    [exists()] is false. *)
Definition getDoc {F} (id : string) : M F (option DocData) :=
  fun w =>
    match outage (db w) with
    | Some e => (Thrown e, w)
    | None => (Returned (docs (db w) !! id), w)
    end.

(** [updateDoc(ref, { roles: newRoles })]; the store rejects an update of a
    document that does not exist. *)
Definition updateRoles {F} (id : string) (newRoles : list string) : M F unit :=
  fun w =>
    match outage (db w) with
    | Some e => (Thrown e, w)
    | None =>
        match docs (db w) !! id with
        | None => (Thrown ("No document to update: " ++ id), w)
        | Some data =>
            (Returned tt,
             {| st := st w;
                db := {| docs := <[id := {| roles := Some newRoles;
                                            payload := payload data |}]> (docs (db w));
                         scan := scan (db w);
                         outage := outage (db w);
                         activityLogs := activityLogs (db w) |};
                console := console w |})
        end
    end.

Definition isSelection (c : Constraint) : bool :=
  match c with
  | Where _ _ _ | OrderBy _ _ => true
  | _ => false
  end.

Fixpoint limitOf (cs : list Constraint) : option nat :=
  match cs with
  | [] => None
  | Limit n :: r => match limitOf r with Some m => Some m | None => Some n end
  | _ :: r => limitOf r
  end.

Fixpoint cursorOf (cs : list Constraint) : option Snapshot :=
  match cs with
  | [] => None
  | StartAfter s :: r => match cursorOf r with Some t => Some t | None => Some s end
  | _ :: r => cursorOf r
  end.

(** The rows that come after the cursor document. *)
Fixpoint afterCursor (cursorId : string) (rows : list Snapshot) : list Snapshot :=
  match rows with
  | [] => []
  | row :: r => if String.eqb (snapId row) cursorId then r else afterCursor cursorId r
  end.

(** The documents a query returns from a store that is up: the selection
    of [scan], from the cursor on, cut at the limit. *)
Definition queryRows (d : Db) (cs : list Constraint) : list Snapshot :=
  let selected := scan d (List.filter isSelection cs) in
  let resumed := match cursorOf cs with
                 | Some c => afterCursor (snapId c) selected
                 | None => selected
                 end in
  match limitOf cs with
  | Some n => firstn n resumed
  | None => resumed
  end.

(** [getDocs(query(colRef, ...constraints))].  The client library refuses
    [limit(0)]. *)
Definition getDocs {F} (cs : list Constraint) : M F (list Snapshot) :=
  fun w =>
    match limitOf cs with
    | Some 0 => (Thrown "Function limit() requires a positive number, but it was: 0.", w)
    | _ =>
        match outage (db w) with
        | Some e => (Thrown e, w)
        | None => (Returned (queryRows (db w) cs), w)
        end
    end.

(** [getCountFromServer(q)]. *)
Definition getCountFromServer {F} (cs : list Constraint) : M F nat :=
  fun w =>
    match outage (db w) with
    | Some e => (Thrown e, w)
    | None => (Returned (length (queryRows (db w) cs)), w)
    end.

(** [docs[docs.length - 1] || null]. *)
Definition lastDoc (rows : list Snapshot) : option Snapshot := last rows.

Definition includes (l : list string) (s : string) : bool := existsb (String.eqb s) l.

(** [authCollections.includes(collectionName)] on the constant the
    generator bakes in: an entry that is a configuration object is never
    strictly equal to a name. *)
Definition includesName (authCollections : list Store.CollArg) (collectionName : string) : bool :=
  existsb (fun a => match a with
                    | Store.ByName n => String.eqb n collectionName
                    | Store.ByConfig _ => false
                    end) authCollections.

(** Whether the object returned for [collectionName] has [assignRoles] and
    [revokeRoles]: the template is spliced in when [roles.length > 0], and
    its spread adds them when the collection is among [authCollections]. *)
Definition hasRoleActions (roles : list string) (authCollections : list Store.CollArg)
    (collectionName : string) : bool :=
  match roles with
  | [] => false
  | _ :: _ => includesName authCollections collectionName
  end.

(** [Array.from(new Set(l))]: first occurrences, in order. *)
Definition arrayFromSet (l : list string) : list string :=
  fold_left (fun acc x => if includes acc x then acc else (acc ++ [x])%list) l [].

(** The second argument of [assignRoles] as a caller may pass it. *)
Inductive RolesArg :=
| Many (rs : list string)
| One (r : string).

End Firestore.

(** *** First generation of the collection actions *)

Module Basic.
Import Js Firestore.

(** Filters are an object from field to value. *)
Definition Filters := list (string * Validation.Value).

Record FetchOptions := {
  optPageSize : option nat;
  optFilters : option Filters;
  optOrderBy : option SortConfig
}.

Definition _checkRole (requiredRole : string) : M Filters unit :=
  u <- getUser ;;
  match u with
  | None => throw "User not authenticated"
  | Some user =>
      match userRoles user with
      | None => throw "User not authenticated"
      | Some rs =>
          if includes rs requiredRole then ret tt
          else throw ("User lacks required role: " ++ requiredRole)
      end
  end.

Definition assignRoles (userId : string) (roles : RolesArg) : M Filters unit :=
  recordingError
    (_checkRole "admin" ;;;
     updateRoles userId (match roles with Many rs => rs | One r => [r] end)).

Definition revokeRoles (userId : string) (roles : list string) : M Filters unit :=
  recordingError
    (_checkRole "admin" ;;;
     userDoc <- getDoc userId ;;
     match userDoc with
     | Some data =>
         let currentRoles := default [] (Firestore.roles data) in
         let newRoles := List.filter (fun role => negb (includes roles role)) currentRoles in
         updateRoles userId newRoles
     | None => ret tt
     end).

Definition get (id : string) : M Filters Snapshot :=
  recordingError
    (docSnap <- getDoc id ;;
     match docSnap with
     | None => throw "Document with ID  not found"
     | Some data => ret {| snapId := id; snapData := data |}
     end).

(** [value !== undefined && value !== null && value !== ''] fails. *)
Definition emptyFilterValue (v : Validation.Value) : bool :=
  match v with
  | Validation.VUndefined | Validation.VNull | Validation.VString EmptyString => true
  | _ => false
  end.

Definition filterConstraints (filters : Filters) : list Constraint :=
  flat_map (fun entry => if emptyFilterValue (snd entry) then []
                         else [Where (fst entry) "==" (snd entry)]) filters.

Definition sortConstraints (sortConfig : option SortConfig) : list Constraint :=
  match sortConfig with
  | Some c =>
      if truthy (sortField c) then
        [OrderBy (sortField c)
                 (match direction c with
                  | Some dir => if truthy dir then dir else "asc"
                  | None => "asc"
                  end)]
      else []
  | None => []
  end.

(** [options.pageSize || state[collectionName].value.pageSize]. *)
Definition requestedPageSize (options : FetchOptions) (v : View Filters) : nat :=
  match optPageSize options with
  | Some (S n) => S n
  | _ => pageSize v
  end.

Definition initialConstraints (options : FetchOptions) (v : View Filters) : list Constraint :=
  (filterConstraints (default (filters v) (optFilters options))
   ++ sortConstraints (match optOrderBy options with Some c => Some c | None => orderBy v end)
   ++ [Limit (requestedPageSize options v)])%list.

Definition fetchInitialPage (options : FetchOptions) : M Filters unit :=
  setLoading true ;;;
  finallyNotLoading
    (recordingError
       (v <- getView ;;
        let filters' := default (filters v) (optFilters options) in
        let sortConfig := match optOrderBy options with Some c => Some c | None => orderBy v end in
        let pageSize' := requestedPageSize options v in
        snapshot <- getDocs (initialConstraints options v) ;;
        v1 <- getView ;;
        setView {| items := snapshot;
                   lastVisible := lastDoc snapshot;
                   hasMore := Nat.eqb (length snapshot) pageSize';
                   filters := filters';
                   orderBy := match sortConfig with Some c => Some c | None => orderBy v1 end;
                   pageSize := pageSize';
                   total := total v1 |} ;;;
        count <- getCountFromServer [] ;;
        v2 <- getView ;;
        setView {| items := items v2; lastVisible := lastVisible v2; hasMore := hasMore v2;
                   filters := filters v2; orderBy := orderBy v2; pageSize := pageSize v2;
                   total := Some count |})).

Definition nextConstraints (v : View Filters) (cursor : Snapshot) : list Constraint :=
  (filterConstraints (filters v) ++ sortConstraints (orderBy v)
   ++ [StartAfter cursor; Limit (pageSize v)])%list.

Definition fetchNextPage : M Filters unit :=
  v <- getView ;;
  match lastVisible v, hasMore v with
  | Some cursor, true =>
      setLoading true ;;;
      finallyNotLoading
        (recordingError
           (snapshot <- getDocs (nextConstraints v cursor) ;;
            v1 <- getView ;;
            setView {| items := (items v1 ++ snapshot)%list;
                       lastVisible := lastDoc snapshot;
                       hasMore := Nat.eqb (length snapshot) (pageSize v1);
                       filters := filters v1; orderBy := orderBy v1;
                       pageSize := pageSize v1; total := total v1 |}))
  | _, _ => ret tt
  end.

(** The object [useFirestoreCollectionActions(collectionName, state)]
    returns, as far as this development follows it.  The role actions are in
    it only when the template's spread adds them. *)
Record Actions := {
  actGet : string -> M Filters Snapshot;
  actFetchInitialPage : FetchOptions -> M Filters unit;
  actFetchNextPage : M Filters unit;
  actAssignRoles : option (string -> RolesArg -> M Filters unit);
  actRevokeRoles : option (string -> list string -> M Filters unit)
}.

(** The module emitted for [roles] and [authCollections], applied to a
    collection name. *)
Definition useFirestoreCollectionActions (roles : list string)
    (authCollections : list Store.CollArg) (collectionName : string) : Actions :=
  {| actGet := get;
     actFetchInitialPage := fetchInitialPage;
     actFetchNextPage := fetchNextPage;
     actAssignRoles :=
       if hasRoleActions roles authCollections collectionName then Some assignRoles else None;
     actRevokeRoles :=
       if hasRoleActions roles authCollections collectionName then Some revokeRoles else None |}.

End Basic.

(** *** Second generation of the collection actions *)

Module Advanced.
Import Js Firestore.

Record FilterSpec := {
  field : string;
  operator : string;
  value : Validation.Value
}.

(** Filters are an array of filter objects. *)
Definition Filters := list FilterSpec.

Record FetchOptions := {
  optPageSize : option nat;
  optFilters : option Filters;
  optOrderBy : option SortConfig
}.

Definition _checkRole (requiredRole : string) : M Filters unit :=
  u <- getUser ;;
  match u with
  | None => throw "Authentication required for this operation."
  | Some user =>
      match uid user with
      | None | Some EmptyString => throw "Authentication required for this operation."
      | Some _ =>
          match userRoles user with
          | Some rs =>
              if includes rs requiredRole then ret tt
              else throw ("User lacks required role: " ++ requiredRole)
          | None => throw ("User lacks required role: " ++ requiredRole)
          end
      end
  end.

(** [this._logActivity(type, id, ...)], emitted only when activity logging
    is on: adds an entry to [activityLogs]; a failure is written to the
    console and goes no further. *)
Definition _logActivity (logging : bool) (type : string) (id : option string)
  : M Filters unit :=
  fun w =>
    if logging then
      match outage (db w) with
      | Some e =>
          (Returned tt,
           {| st := st w; db := db w;
              console := (console w ++ ["Failed to log activity:"])%list |})
      | None =>
          (Returned tt,
           {| st := st w;
              db := {| docs := docs (db w); scan := scan (db w); outage := outage (db w);
                       activityLogs :=
                         (activityLogs (db w)
                          ++ [{| actionType := type; documentId := id |}])%list |};
              console := console w |})
      end
    else (Returned tt, w).

(** [catch (error) { state.error.value = error.message; <log>; throw error }]. *)
Definition recordingAndLogging {A} (logging : bool) (type : string) (id : option string)
    (m : M Filters A) : M Filters A :=
  fun w =>
    match m w with
    | (Thrown e, w') => (Thrown e, snd (_logActivity logging type id (setError e w')))
    | r => r
    end.

Definition assignRoles (logging : bool) (userId : string) (rolesToAssign : list string)
  : M Filters unit :=
  recordingAndLogging logging "ROLE_ASSIGN_FAILED" (Some userId)
    (_checkRole "admin" ;;;
     userDoc <- getDoc userId ;;
     match userDoc with
     | None => throw ("User with ID " ++ userId ++ " not found.")
     | Some data =>
         let currentRoles := default [] (Firestore.roles data) in
         let newRoles := arrayFromSet (currentRoles ++ rolesToAssign)%list in
         updateRoles userId newRoles ;;;
         _logActivity logging "ROLE_ASSIGNED" (Some userId)
     end).

Definition revokeRoles (logging : bool) (userId : string) (rolesToRevoke : list string)
  : M Filters unit :=
  recordingAndLogging logging "ROLE_REVOKE_FAILED" (Some userId)
    (_checkRole "admin" ;;;
     userDoc <- getDoc userId ;;
     match userDoc with
     | None => throw ("User with ID " ++ userId ++ " not found.")
     | Some data =>
         let currentRoles := default [] (Firestore.roles data) in
         let newRoles :=
           List.filter (fun role => negb (includes rolesToRevoke role)) currentRoles in
         updateRoles userId newRoles ;;;
         _logActivity logging "ROLE_REVOKED" (Some userId)
     end).

(** [get(id)]: [None] is the returned [null]. *)
Definition get (logging : bool) (id : string) : M Filters (option Snapshot) :=
  recordingAndLogging logging "GET_DOCUMENT_FAILED" (Some id)
    (docSnap <- getDoc id ;;
     match docSnap with
     | None =>
         _logActivity logging "GET_DOCUMENT_NOT_FOUND" (Some id) ;;;
         ret None
     | Some data =>
         _logActivity logging "GET_DOCUMENT" (Some id) ;;;
         ret (Some {| snapId := id; snapData := data |})
     end).

Definition emptyFilterValue (v : Validation.Value) : bool :=
  match v with
  | Validation.VUndefined | Validation.VNull | Validation.VString EmptyString => true
  | _ => false
  end.

(** [buildWhereClause(constraints, filter)]: the constraints it pushes, or
    the message of the error it throws. *)
Definition buildWhereClause (filter : FilterSpec) : string + list Constraint :=
  if emptyFilterValue (value filter) then inr []
  else
    let op := operator filter in
    if includes ["=="; "!="; "<"; "<="; ">"; ">="; "array-contains"] op then
      inr [Where (field filter) op (value filter)]
    else if includes ["array-contains-any"; "in"; "not-in"] op then
      if Validation.isArray (value filter) then inr [Where (field filter) op (value filter)]
      else inl ("Value for '" ++ op ++ "' operator must be an array.")
    else inl ("Unsupported filter operator: " ++ op).

(** [for (const filter of filters) buildWhereClause(constraints, filter)]. *)
Fixpoint filterConstraints (filters : Filters) : string + list Constraint :=
  match filters with
  | [] => inr []
  | f :: r =>
      match buildWhereClause f with
      | inl e => inl e
      | inr cs =>
          match filterConstraints r with
          | inl e => inl e
          | inr rest => inr (cs ++ rest)%list
          end
      end
  end.

Definition whereClauses (filters : Filters) : M Filters (list Constraint) :=
  match filterConstraints filters with
  | inl e => throw e
  | inr cs => ret cs
  end.

Definition sortConstraints (sortConfig : option SortConfig) : list Constraint :=
  match sortConfig with
  | Some c =>
      if truthy (sortField c) then
        [OrderBy (sortField c)
                 (match direction c with
                  | Some dir => if truthy dir then dir else "asc"
                  | None => "asc"
                  end)]
      else []
  | None => []
  end.

(** [options.pageSize || state[collectionName].value.pageSize || 10]. *)
Definition requestedPageSize (options : FetchOptions) (v : View Filters) : nat :=
  match optPageSize options with
  | Some (S n) => S n
  | _ => match pageSize v with
         | S n => S n
         | O => 10
         end
  end.

Definition fetchInitialPage (logging : bool) (options : FetchOptions) : M Filters unit :=
  setLoading true ;;;
  finallyNotLoading
    (recordingAndLogging logging "FETCH_INITIAL_PAGE_FAILED" None
       (v <- getView ;;
        let filters' := default (filters v) (optFilters options) in
        wheres <- whereClauses filters' ;;
        let sortConfig := match optOrderBy options with Some c => Some c | None => orderBy v end in
        let pageSize' := requestedPageSize options v in
        let constraints := (wheres ++ sortConstraints sortConfig ++ [Limit pageSize'])%list in
        snapshot <- getDocs constraints ;;
        v1 <- getView ;;
        setView {| items := snapshot;
                   lastVisible := lastDoc snapshot;
                   hasMore := Nat.eqb (length snapshot) pageSize';
                   filters := filters';
                   orderBy := sortConfig;
                   pageSize := pageSize';
                   total := total v1 |} ;;;
        count <- getCountFromServer constraints ;;
        v2 <- getView ;;
        setView {| items := items v2; lastVisible := lastVisible v2; hasMore := hasMore v2;
                   filters := filters v2; orderBy := orderBy v2; pageSize := pageSize v2;
                   total := Some count |} ;;;
        _logActivity logging "FETCH_INITIAL_PAGE" None)).

Definition fetchNextPage (logging : bool) : M Filters unit :=
  v <- getView ;;
  match lastVisible v, hasMore v with
  | Some cursor, true =>
      setLoading true ;;;
      finallyNotLoading
        (recordingAndLogging logging "FETCH_NEXT_PAGE_FAILED" None
           (wheres <- whereClauses (filters v) ;;
            let constraints :=
              (wheres ++ sortConstraints (orderBy v)
               ++ [StartAfter cursor; Limit (pageSize v)])%list in
            snapshot <- getDocs constraints ;;
            v1 <- getView ;;
            setView {| items := (items v1 ++ snapshot)%list;
                       lastVisible := lastDoc snapshot;
                       hasMore := Nat.eqb (length snapshot) (pageSize v1);
                       filters := filters v1; orderBy := orderBy v1;
                       pageSize := pageSize v1; total := total v1 |} ;;;
            _logActivity logging "FETCH_NEXT_PAGE" None))
  | _, _ => consoleWarn "No more documents to load or lastVisible is null."
  end.

Record Actions := {
  actGet : string -> M Filters (option Snapshot);
  actFetchInitialPage : FetchOptions -> M Filters unit;
  actFetchNextPage : M Filters unit;
  actAssignRoles : option (string -> list string -> M Filters unit);
  actRevokeRoles : option (string -> list string -> M Filters unit)
}.

(** Whether the emitted file is a JavaScript module.  The template splices
    [roleCheck] and [activityLoggingFunction] among the statements of the
    function body, before [return Object.freeze({]; they are the method
    definitions [_checkRole(requiredRole) { ... },] and
    [async _logActivity(...) { ... },], which are not statements.  The file
    parses only when both are empty: no roles, no activity logging. *)
Definition moduleParses (roles : list string) (logging : bool) : bool :=
  match roles with
  | [] => negb logging
  | _ :: _ => false
  end.

(** What importing the emitted file and calling
    [useFirestoreCollectionActions(collectionName, state)] gives: the
    frozen object, or [None] for the [SyntaxError] of a file that does not
    parse. *)
Definition useFirestoreCollectionActions (roles : list string)
    (authCollections : list Store.CollArg) (logging : bool) (collectionName : string)
  : option Actions :=
  if moduleParses roles logging then
    Some {| actGet := get logging;
            actFetchInitialPage := fetchInitialPage logging;
            actFetchNextPage := fetchNextPage logging;
            actAssignRoles :=
              if hasRoleActions roles authCollections collectionName
              then Some (assignRoles logging) else None;
            actRevokeRoles :=
              if hasRoleActions roles authCollections collectionName
              then Some (revokeRoles logging) else None |}
  else None.

End Advanced.

(** ** Vocabulary of the statements, and sample inputs *)

Section NamingVocabulary.
Import Js Naming.

Definition notSeparator (c : ascii) : bool := negb (isSeparator c).

End NamingVocabulary.

Section StoreVocabulary.
Import Js Naming Store.

(** [p] is what the [map] callback returns for the well-formed entry [c]. *)
Definition normalisedFrom (c : RawCollection) (p : Collection) : Prop :=
  exists n f,
    raw_name c = Some n /\ raw_fields c = Some f /\ truthy n = true
    /\ name p = trim (toCamelCase n) /\ fields p = f
    /\ dataType p = match raw_dataType c with
                    | Some d => if truthy d then d else "object"
                    | None => "object"
                    end.

Definition ordersWithoutFields : RawCollection :=
  {| raw_name := Some "orders"; raw_fields := None; raw_dataType := None |}.

Definition productsRaw : RawCollection :=
  {| raw_name := Some "products"; raw_fields := Some []; raw_dataType := None |}.

End StoreVocabulary.

Section RouterVocabulary.
Import Js Naming Router.

Definition isRootPath (r : Route) : bool := String.eqb (path r) "/".

Definition isRedirect (r : Route) : bool :=
  match redirect r with Some _ => true | None => false end.

End RouterVocabulary.

Section ValidatorVocabulary.
Import Js Naming Validation.

Definition typeStatement (field : string * string) : list Check :=
  match typeCheckOf (fst field) (snd field) with
  | Some (tag, msg) => [TypeCheck (fst field) tag msg]
  | None => []
  end.

Definition emailFieldOf (field : string * string) : list string :=
  if String.eqb (snd field) "email" then [fst field] else [].

Definition noResult : Result := {| errors := []; consoleErrors := [] |}.

(** What the checks of one declared field add to [errors]. *)
Definition requiredPart (data : Value) (g : string) : list ValidationError :=
  if isBlank (getProp (jsOr data (VObject [])) g) then [Required g] else [].

Definition typePart (env : Env) (data : Value) (g t : string) : list ValidationError :=
  match typeCheckOf g t with
  | Some (tag, msg) =>
      if emittedTypeCondition env tag (getProp (jsOr data (VObject [])) g)
      then [TypeMismatch g msg] else []
  | None => []
  end.

Definition existencePart (env : Env) (data : Value) (g t : string) : list ValidationError :=
  if String.eqb t "email"
  then errors (runCheck env (jsOr data (VObject [])) noResult (EmailExistenceCheck g))
  else [].

(** The strings the pattern [/^\S+@\S+\.\S+$/] is written to accept: three
    non-empty runs without white space, an [@] after the first and a dot
    after the second. *)
Definition emailShape (s : string) : Prop :=
  exists a b c,
    s = a ++ "@" ++ b ++ "." ++ c
    /\ a <> "" /\ b <> "" /\ c <> ""
    /\ allChars notWhiteSpace a = true
    /\ allChars notWhiteSpace b = true
    /\ allChars notWhiteSpace c = true.

(** [e] was pushed by a check of the field [f]. *)
Definition about (f : string) (e : ValidationError) : bool := String.eqb (fieldOf e) f.

(** The types whose condition is a single operand, and the unknown types
    that get no type check: for these the guard of the emitted [if] covers
    the whole condition. *)
Definition guardCoversType (fieldType : string) : bool :=
  match typeCheckOf "" fieldType with
  | Some (TString, _) | Some (TBoolean, _) | Some (TArray, _) | None => true
  | Some _ => false
  end.

Definition quietEnv : Env :=
  {| parseDate := fun _ => None; fetchSignInMethodsForEmail := fun _ => inr [] |}.

Definition unreachableEnv : Env :=
  {| parseDate := fun _ => None;
     fetchSignInMethodsForEmail := fun _ => inl "auth/network-request-failed" |}.

Definition productFields : Store.Fields :=
  [("title", "string"); ("price", "number"); ("inStock", "boolean")].

Definition productInput : Value :=
  VObject [("title", VString ""); ("price", VString "x"); ("inStock", VBool true)].

Definition contactFields : Store.Fields := [("name", "string"); ("email", "email")].

Definition contactInput : Value :=
  VObject [("name", VString "Ada"); ("email", VString "ada@example.org")].

End ValidatorVocabulary.

Section FirestoreVocabulary.
Import Js Firestore.

Definition emptyView {F} (noFilters : F) : View F :=
  {| items := []; lastVisible := None; hasMore := true; filters := noFilters;
     orderBy := Some {| sortField := "createdAt"; direction := Some "desc" |};
     pageSize := 10; total := None |}.

Definition freshState {F} (noFilters : F) (user : option User) : State F :=
  {| loading := false; error := None; currentUser := user; view := emptyView noFilters |}.

Definition emptyDb : Db :=
  {| docs := ∅; scan := fun _ => []; outage := None; activityLogs := [] |}.

(** A store that rejects every call. *)
Definition downDb : Db :=
  {| docs := ∅; scan := fun _ => []; outage := Some "unavailable"; activityLogs := [] |}.

Definition freshWorld {F} (noFilters : F) (user : option User) (d : Db) : World F :=
  {| st := freshState noFilters user; db := d; console := [] |}.

Definition plainActions : Advanced.Actions :=
  {| Advanced.actGet := Advanced.get false;
     Advanced.actFetchInitialPage := Advanced.fetchInitialPage false;
     Advanced.actFetchNextPage := Advanced.fetchNextPage false;
     Advanced.actAssignRoles := None;
     Advanced.actRevokeRoles := None |}.

(** The [roles] field of a document after a run. *)
Definition rolesOf {F} (userId : string) (w : World F) : option (option (list string)) :=
  roles <$> (docs (db w) !! userId).

Definition adminUser : User := {| uid := Some "a1"; userRoles := Some ["admin"] |}.

Definition plainUser : DocData := {| Firestore.roles := Some ["user"]; payload := [] |}.

Definition usersDb : Db :=
  {| docs := {[ "u1" := plainUser ]}; scan := fun _ => []; outage := None;
     activityLogs := [] |}.

Definition selectionOnly (cs : list Constraint) : Prop :=
  List.Forall (fun c => isSelection c = true) cs.

Definition loadingWorld {F} (w : World F) : World F := snd (setLoading true w).

Definition row (id : string) : Snapshot :=
  {| snapId := id; snapData := {| roles := None; payload := [] |} |}.

(** A collection of exactly two documents. *)
Definition twoRowsDb : Db :=
  {| docs := ∅; scan := fun _ => [row "a"; row "b"]; outage := None; activityLogs := [] |}.

Definition pageOfTwo : Basic.FetchOptions :=
  {| Basic.optPageSize := Some 2; Basic.optFilters := None; Basic.optOrderBy := None |}.

Definition pageOfTwoAdvanced : Advanced.FetchOptions :=
  {| Advanced.optPageSize := Some 2; Advanced.optFilters := None;
     Advanced.optOrderBy := None |}.

End FirestoreVocabulary.


(** * The rest of the cited files

    The definitions below embed the functions that stand beside the ones
    above in the same source files, and the callers that feed them. *)

(** ** helper/helperF.js: [toCamel] and [writeFile] *)

Module Helper.
Import Js Naming.

(** [str.replace(/-([a-z])/g, (_, c) => c.toUpperCase())]: the scan goes
    from left to right; where a hyphen is followed by a lower-case letter the
    two are replaced by the upper-case letter and the scan goes on after
    them, elsewhere it moves on by one character. *)
Fixpoint toCamel (str : string) : string :=
  match str with
  | EmptyString => EmptyString
  | String c r =>
      match r with
      | String d r' =>
          if Ascii.eqb c "-" && isLowerAZ d then String (toUpperChar d) (toCamel r')
          else String c (toCamel r)
      | EmptyString => String c EmptyString
      end
  end.

(** The line feed ['\n']. *)
Definition newline : string := String (ascii_of_nat 10) EmptyString.

(** The files of the project by path, and the error [fs.writeFileSync]
    throws for a path it cannot write. *)
Record Disk := {
  files : gmap string string;
  unwritable : string -> option string
}.

Definition writeFileSync (filePath content : string) (d : Disk) : string + Disk :=
  match unwritable d filePath with
  | Some msg => inl msg
  | None => inr {| files := <[filePath := content]> (files d); unwritable := unwritable d |}
  end.

(** [writeFile(filePath, content)]: the message of the error it throws, or
    the disk after the write. *)
Definition writeFile (filePath content : string) (d : Disk) : string + Disk :=
  match writeFileSync filePath (trim content ++ newline) d with
  | inl msg => inl ("Failed to write file: " ++ filePath ++ newline ++ msg)
  | inr d' => inr d'
  end.

End Helper.

(** ** The command line: the roles it hands to [generateStore] *)

Module Cli.
Import Js Naming.

(** [input.split(',')]. *)
Fixpoint splitComma (s : string) : list string :=
  match s with
  | EmptyString => [EmptyString]
  | String c r =>
      if Ascii.eqb c "," then EmptyString :: splitComma r
      else consHead c (splitComma r)
  end.

(** The roles as [init] reads them off the answer:
    [roles.split(',').map(r => r.trim())]. *)
Definition rolesAnswer (answer : string) : list string :=
  map trim (splitComma answer).

End Cli.

(** ** Vocabulary of the statements about names *)

Section HelperVocabulary.
Import Js Naming.

(** Somewhere in [s] a hyphen is followed by a lower-case letter. *)
Fixpoint hyphenThenLower (s : string) : bool :=
  match s with
  | EmptyString => false
  | String c r =>
      match r with
      | String d _ => (Ascii.eqb c "-" && isLowerAZ d) || hyphenThenLower r
      | EmptyString => false
      end
  end.

(** The characters of [s] that satisfy [p], in order. *)
Fixpoint keepChars (p : ascii -> bool) (s : string) : string :=
  match s with
  | EmptyString => EmptyString
  | String c r => if p c then String c (keepChars p r) else keepChars p r
  end.

(** Some character of the name is not a separator. *)
Definition hasNameCharacter (s : string) : bool := negb (allChars isSeparator s).

(** A name a helper can use: not empty, and free of separators. *)
Definition goodName (n : string) : Prop := n <> "" /\ allChars notSeparator n = true.

(** The collection names an action of a store run hands to a helper. *)
Definition collArgName (a : Store.CollArg) : string :=
  match a with
  | Store.ByName n => n
  | Store.ByConfig c => Store.name c
  end.

Definition namesHandedOver (a : Store.Action) : list string :=
  match a with
  | Store.StateFile _ cols auth _ => map collArgName cols ++ map collArgName auth
  | Store.FirestoreUtilFile _ auth _ _ => map collArgName auth
  | Store.CollectionActionModule _ col => [collArgName col]
  | Store.ValidationModule _ col => [Store.name col]
  | Store.IndexFile _ _ cols auth _ => cols ++ auth
  | Store.Documentation _ _ cols auth _ _ => map collArgName cols ++ map collArgName auth
  | _ => []
  end.

End HelperVocabulary.

(** ** helper/generateFirestoreUtilFile.js: the writing actions

    The store's write calls first.  [addDoc] stores the document under the
    identifier the client library draws for it, which the model takes as an
    argument; [updateDoc] merges the given fields into a document that
    exists and rejects otherwise; [deleteDoc] removes the document, and
    succeeds when there is none. *)

Module Writes.
Import Js Firestore.

Definition withDocs {F} (w : World F) (docs' : gmap string DocData) : World F :=
  {| st := st w;
     db := {| docs := docs'; scan := scan (db w); outage := outage (db w);
              activityLogs := activityLogs (db w) |};
     console := console w |}.

(** [props[key] = v] on the own properties of an object. *)
Fixpoint setProp (props : list (string * Validation.Value)) (key : string)
    (v : Validation.Value) : list (string * Validation.Value) :=
  match props with
  | [] => [(key, v)]
  | (k, x) :: r => if String.eqb k key then (k, v) :: r else (k, x) :: setProp r key v
  end.

(** [{ ...a, ...b }]. *)
Definition spread (a b : list (string * Validation.Value)) : list (string * Validation.Value) :=
  fold_left (fun acc kv => setProp acc (fst kv) (snd kv)) b a.

Definition addDoc {F} (newId : string) (data : DocData) : M F string :=
  fun w =>
    match outage (db w) with
    | Some e => (Thrown e, w)
    | None => (Returned newId, withDocs w (<[newId := data]> (docs (db w))))
    end.

(** The fields of [data] laid over those of [old]. *)
Definition merged (old data : DocData) : DocData :=
  {| roles := match roles data with Some r => Some r | None => roles old end;
     payload := spread (payload old) (payload data) |}.

Definition updateDoc {F} (id : string) (data : DocData) : M F unit :=
  fun w =>
    match outage (db w) with
    | Some e => (Thrown e, w)
    | None =>
        match docs (db w) !! id with
        | None => (Thrown ("No document to update: " ++ id), w)
        | Some old => (Returned tt, withDocs w (<[id := merged old data]> (docs (db w))))
        end
    end.

Definition deleteDoc {F} (id : string) : M F unit :=
  fun w =>
    match outage (db w) with
    | Some e => (Thrown e, w)
    | None => (Returned tt, withDocs w (delete id (docs (db w))))
    end.

(** [if (state.currentUser.value && state.currentUser.value.uid)
    data[key] = state.currentUser.value.uid]. *)
Definition stampedBy (key : string) (u : option User) (data : DocData) : DocData :=
  match u with
  | Some user =>
      match uid user with
      | Some id =>
          if truthy id
          then {| roles := roles data;
                  payload := setProp (payload data) key (Validation.VString id) |}
          else data
      | None => data
      end
  | None => data
  end.

Definition withFilters {F} (f : F) (v : View F) : View F :=
  {| items := items v; lastVisible := lastVisible v; hasMore := hasMore v;
     filters := f; orderBy := orderBy v; pageSize := pageSize v; total := total v |}.

Definition withOrderBy {F} (c : SortConfig) (v : View F) : View F :=
  {| items := items v; lastVisible := lastVisible v; hasMore := hasMore v;
     filters := filters v; orderBy := Some c; pageSize := pageSize v; total := total v |}.

End Writes.

(** *** First generation *)

Module BasicWrites.
Import Js Firestore Writes Basic.

(** [applyFilters(filters)]. *)
Definition applyFilters (filters : Filters) : M Filters unit :=
  v <- getView ;;
  setView (withFilters filters v) ;;;
  fetchInitialPage {| optPageSize := None; optFilters := Some filters; optOrderBy := None |}.

(** [changeSorting(field, direction = 'asc')]. *)
Definition changeSorting (field : string) (direction : option string) : M Filters unit :=
  let sortConfig := {| sortField := field; direction := Some (default "asc" direction) |} in
  v <- getView ;;
  setView (withOrderBy sortConfig v) ;;;
  fetchInitialPage {| optPageSize := None; optFilters := None; optOrderBy := Some sortConfig |}.

(** [add(data)]; the object stamped is the caller's own. *)
Definition add (authCollections : list Store.CollArg) (collectionName : string)
    (newId : string) (data : DocData) : M Filters unit :=
  recordingError
    (u <- getUser ;;
     let data' := if includesName authCollections collectionName
                  then stampedBy "createdBy" u data else data in
     addDoc newId data' ;;; ret tt).

(** [update(id, data)]. *)
Definition update (authCollections : list Store.CollArg) (collectionName : string)
    (id : string) (data : DocData) : M Filters unit :=
  recordingError
    (u <- getUser ;;
     let data' := if includesName authCollections collectionName
                  then stampedBy "updatedBy" u data else data in
     updateDoc id data').

(** [remove(id)]: the admin check is in the emitted text when
    [roles.length > 0], and runs for the authentication collections. *)
Definition remove (roles : list string) (authCollections : list Store.CollArg)
    (collectionName : string) (id : string) : M Filters unit :=
  recordingError
    ((match roles with
      | [] => ret tt
      | _ :: _ =>
          if includesName authCollections collectionName then _checkRole "admin" else ret tt
      end) ;;;
     deleteDoc id).

End BasicWrites.

(** *** Second generation *)

Module AdvancedWrites.
Import Js Firestore Writes Advanced.

(** [applyFilters(filters)]. *)
Definition applyFilters (logging : bool) (filters : Filters) : M Filters unit :=
  v <- getView ;;
  setView (withFilters filters v) ;;;
  fetchInitialPage logging
    {| optPageSize := None; optFilters := Some filters; optOrderBy := None |}.

(** [changeSorting(field, direction = 'asc')]. *)
Definition changeSorting (logging : bool) (field : string) (direction : option string)
  : M Filters unit :=
  let sortConfig := {| sortField := field; direction := Some (default "asc" direction) |} in
  v <- getView ;;
  setView (withOrderBy sortConfig v) ;;;
  fetchInitialPage logging
    {| optPageSize := None; optFilters := None; optOrderBy := Some sortConfig |}.

(** [{ ...data, [key]: serverTimestamp() }]; [now] is the sentinel that
    [serverTimestamp()] returns. *)
Definition timestamped (key : string) (now : Validation.Value) (data : DocData) : DocData :=
  {| roles := roles data; payload := setProp (payload data) key now |}.

(** [add(data)]: returns the identifier of the new document. *)
Definition add (logging : bool) (authCollections : list Store.CollArg)
    (collectionName : string) (now : Validation.Value) (newId : string) (data : DocData)
  : M Filters string :=
  recordingAndLogging logging "ADD_DOCUMENT_FAILED" None
    (u <- getUser ;;
     let docData := timestamped "createdAt" now data in
     let docData := if includesName authCollections collectionName
                    then stampedBy "createdBy" u docData else docData in
     id <- addDoc newId docData ;;
     _logActivity logging "ADD_DOCUMENT" (Some id) ;;;
     ret id).

(** [update(id, data)]. *)
Definition update (logging : bool) (authCollections : list Store.CollArg)
    (collectionName : string) (now : Validation.Value) (id : string) (data : DocData)
  : M Filters unit :=
  recordingAndLogging logging "UPDATE_DOCUMENT_FAILED" (Some id)
    (u <- getUser ;;
     let docData := timestamped "updatedAt" now data in
     let docData := if includesName authCollections collectionName
                    then stampedBy "updatedBy" u docData else docData in
     updateDoc id docData ;;;
     _logActivity logging "UPDATE_DOCUMENT" (Some id)).

(** [remove(id)]. *)
Definition remove (roles : list string) (logging : bool)
    (authCollections : list Store.CollArg) (collectionName : string) (id : string)
  : M Filters unit :=
  recordingAndLogging logging "DELETE_DOCUMENT_FAILED" (Some id)
    ((match roles with
      | [] => ret tt
      | _ :: _ =>
          if includesName authCollections collectionName then _checkRole "admin" else ret tt
      end) ;;;
     deleteDoc id ;;;
     _logActivity logging "DELETE_DOCUMENT" (Some id)).

(** The writing actions of the object that importing the emitted file and
    calling [useFirestoreCollectionActions(collectionName, state)] gives,
    [None] for a file that does not parse. *)
Record WriteActions := {
  actAdd : Validation.Value -> string -> DocData -> M Filters string;
  actUpdate : Validation.Value -> string -> DocData -> M Filters unit;
  actRemove : string -> M Filters unit
}.

Definition useWriteActions (roles : list string) (authCollections : list Store.CollArg)
    (logging : bool) (collectionName : string) : option WriteActions :=
  if moduleParses roles logging then
    Some {| actAdd := add logging authCollections collectionName;
            actUpdate := update logging authCollections collectionName;
            actRemove := remove roles logging authCollections collectionName |}
  else None.

(** **** [search] *)

(** [state[collectionName].value.search]. *)
Record Search := {
  term : string;
  searchFields : list string;
  results : list Snapshot;
  isActive : bool
}.

(** The second argument of [search]: a field or an array of fields. *)
Inductive FieldsArg :=
| OneField (f : string)
| ManyFields (fs : list string).

(** The code point U+F8FF that closes the prefix range, in UTF-8. *)
Definition privateUseEnd : string :=
  String (ascii_of_nat 239) (String (ascii_of_nat 163) (String (ascii_of_nat 191) EmptyString)).

(** The constraints of the query for one search field: the prefix range,
    then the filters of the state on other fields. *)
Definition searchConstraints (term field' : string) (filters : Filters)
  : string + list Constraint :=
  match filterConstraints
          (List.filter (fun f => negb (String.eqb (field f) field')) filters) with
  | inl e => inl e
  | inr cs =>
      inr ([Where field' ">=" (Validation.VString (toLowerCase term));
            Where field' "<=" (Validation.VString (toLowerCase term ++ privateUseEnd))]
           ++ cs)%list
  end.

(** The loop over the search fields: it builds every query before any
    answer is awaited, and the first filter it cannot build ends it. *)
Fixpoint searchQueries (term : string) (fields : list string) (filters : Filters)
  : string + list (list Constraint) :=
  match fields with
  | [] => inr []
  | f :: r =>
      match searchConstraints term f filters with
      | inl e => inl e
      | inr q =>
          match searchQueries term r filters with
          | inl e => inl e
          | inr qs => inr (q :: qs)
          end
      end
  end.

(** [Promise.all] over the [getDocs] of the queries. *)
Fixpoint getAll (queries : list (list Constraint)) : M Filters (list (list Snapshot)) :=
  match queries with
  | [] => ret []
  | q :: r =>
      rows <- getDocs q ;;
      rest <- getAll r ;;
      ret (rows :: rest)
  end.

(** The two nested [forEach]: a document is pushed the first time its id is
    seen. *)
Definition pushUnseen (acc : list Snapshot * list string) (doc : Snapshot)
  : list Snapshot * list string :=
  if includes (snd acc) (snapId doc) then acc
  else ((fst acc ++ [doc])%list, (snd acc ++ [snapId doc])%list).

Definition collectResults (snapshots : list (list Snapshot)) : list Snapshot :=
  fst (fold_left (fun acc snapshot => fold_left pushUnseen snapshot acc) snapshots ([], [])).

(** [search(term, fields = 'name')], on the world and the search state. *)
Definition search (logging : bool) (term : string) (fields : option FieldsArg)
    (w : World Filters) (s : option Search)
  : Outcome unit * World Filters * option Search :=
  let searchFields := match fields with
                      | Some (ManyFields fs) => fs
                      | Some (OneField f) => [f]
                      | None => ["name"]
                      end in
  let started := {| term := term; searchFields := searchFields; results := [];
                    isActive := true |} in
  match finallyNotLoading
          (recordingAndLogging logging "SEARCH_COLLECTION_FAILED" None
             (v <- getView ;;
              queries <- match searchQueries term searchFields (filters v) with
                         | inl e => throw e
                         | inr qs => ret qs
                         end ;;
              snapshots <- getAll queries ;;
              _logActivity logging "SEARCH_COLLECTION" None ;;;
              ret (collectResults snapshots)))
          (snd (setLoading true w)) with
  | (Returned allResults, w') =>
      (Returned tt, w',
       Some {| term := term; searchFields := searchFields; results := allResults;
               isActive := true |})
  | (Thrown e, w') => (Thrown e, w', Some started)
  end.

(** [clearSearch()]. *)
Definition clearSearch (logging : bool) (w : World Filters) (s : option Search)
  : World Filters * option Search :=
  (snd (_logActivity logging "CLEAR_SEARCH" None w),
   Some {| term := ""; searchFields := ["name"]; results := []; isActive := false |}).

End AdvancedWrites.

(** ** Vocabulary of the statements about the collection actions *)

Section ActionsVocabulary.
Import Js Firestore.

(** The signed-in user has a [roles] array that holds [role]. *)
Definition holdsRole (role : string) (u : option User) : bool :=
  match u with
  | Some user =>
      match userRoles user with
      | Some rs => includes rs role
      | None => false
      end
  | None => false
  end.

(** The signed-in user has a non-empty [uid]. *)
Definition hasUid (u : option User) : bool :=
  match u with
  | Some user => match uid user with Some id => truthy id | None => false end
  | None => false
  end.

(** The [uid] of the signed-in user, [""] when there is none. *)
Definition uidOf (u : option User) : string :=
  match u with
  | Some user => default "" (uid user)
  | None => ""
  end.

(** A filter [buildWhereClause] takes: one without a value, or one whose
    operator it knows, with an array where the operator wants one. *)
Definition takesArray (op : string) : bool :=
  includes ["array-contains-any"; "in"; "not-in"] op.

Definition takesValue (op : string) : bool :=
  includes ["=="; "!="; "<"; "<="; ">"; ">="; "array-contains"] op.

Definition supported (f : Advanced.FilterSpec) : bool :=
  Advanced.emptyFilterValue (Advanced.value f)
  || takesValue (Advanced.operator f)
  || (takesArray (Advanced.operator f) && Validation.isArray (Advanced.value f)).

Definition hasValue (f : Advanced.FilterSpec) : bool :=
  negb (Advanced.emptyFilterValue (Advanced.value f)).

Definition whereOf (f : Advanced.FilterSpec) : Constraint :=
  Where (Advanced.field f) (Advanced.operator f) (Advanced.value f).

(** The message [buildWhereClause] throws for a filter it does not take. *)
Definition refusal (f : Advanced.FilterSpec) : string :=
  if takesArray (Advanced.operator f)
  then "Value for '" ++ Advanced.operator f ++ "' operator must be an array."
  else "Unsupported filter operator: " ++ Advanced.operator f.

(** [fetchNextPage] called [k] times in a row. *)
Definition nextPages (k : nat) (w : World Basic.Filters) : World Basic.Filters :=
  Nat.iter k (fun w' => snd (Basic.fetchNextPage w')) w.

(** The selection part of the query of [fetchInitialPage]. *)
Definition selectionOf (options : Basic.FetchOptions) (v : View Basic.Filters)
  : list Constraint :=
  (Basic.filterConstraints (default (filters v) (Basic.optFilters options))
   ++ Basic.sortConstraints (match Basic.optOrderBy options with
                             | Some c => Some c
                             | None => orderBy v
                             end))%list.

(** What holds of the state once [j] pages of [n] documents have been asked
    for out of the selection [rows]: the items are the first [n * j] rows,
    and either a further page is pending behind the last of them, or the
    rows are used up and nothing is pending. *)
Definition pagesLoaded (d : Db) (sel : list Constraint) (n j : nat)
    (w : World Basic.Filters) : Prop :=
  let v := view (st w) in
  db w = d
  /\ (Basic.filterConstraints (filters v) ++ Basic.sortConstraints (orderBy v))%list = sel
  /\ pageSize v = n
  /\ items v = firstn (n * j) (scan d sel)
  /\ ((hasMore v = true /\ n * j <= length (scan d sel)
       /\ lastVisible v = last (firstn (n * j) (scan d sel))
       /\ lastVisible v <> None)
      \/ ((lastVisible v = None \/ hasMore v = false) /\ length (scan d sel) <= n * j)).

End ActionsVocabulary.

(** ** Vocabulary of the statements about validators *)

Section ValidatorTypes.
Import Js Validation.

(** The field types the generator has a type check for. *)
Definition knownType (fieldType : string) : bool :=
  existsb (String.eqb fieldType)
    ["string"; "number"; "boolean"; "array"; "object"; "timestamp"; "email"].

(** The fields of [data] that the required check finds blank. *)
Definition blankFields (fields : Store.Fields) (data : Value) : list string :=
  map fst (List.filter (fun fd => isBlank (getProp (jsOr data (VObject [])) (fst fd))) fields).

(** The template splices a field name into the emitted text as
    [data.<name>] and ['<name> is required.'], and the collection name into
    the name of the emitted function.  The texts for which this gives what
    the embedding takes it to give: identifier names written in ASCII
    (letters, digits, [_] and [$], no digit first). *)
Definition isIdentifierStart (c : ascii) : bool :=
  isUpperAZ c || isLowerAZ c || Ascii.eqb c "_" || Ascii.eqb c "$".

Definition isIdentifierPart (c : ascii) : bool :=
  isIdentifierStart c || isDigit c.

Definition isIdentifierName (s : string) : bool :=
  match s with
  | EmptyString => false
  | String c r => isIdentifierStart c && allChars isIdentifierPart r
  end.

(** The properties a plain object has without holding them: those of
    [Object.prototype]. *)
Definition inheritedNames : list string :=
  ["constructor"; "hasOwnProperty"; "isPrototypeOf"; "propertyIsEnumerable";
   "toLocaleString"; "toString"; "valueOf"; "__proto__";
   "__defineGetter__"; "__defineSetter__"; "__lookupGetter__"; "__lookupSetter__"].

(** A field name for which [data.<name>] is [getProp]: an identifier name
    that no plain object inherits. *)
Definition plainFieldName (fieldName : string) : bool :=
  isIdentifierName fieldName && negb (existsb (String.eqb fieldName) inheritedNames).

(** A value for which [String(v)] is [toString]: its strings are ASCII,
    through the arrays it holds, and no object in reach of the conversion
    has a [toString] of its own. *)
Fixpoint plainValue (v : Value) : bool :=
  match v with
  | VString s => isAsciiText s
  | VArray items => forallb plainValue items
  | VObject props => negb (existsb (fun kv => String.eqb (fst kv) "toString") props)
  | _ => true
  end.

(** An input for which the emitted [data.<field>] reads an own property:
    a falsy value, which [data || {}] replaces, or a plain object with
    plain values. *)
Definition plainInput (data : Value) : bool :=
  match data with
  | VObject props => forallb (fun kv => plainValue (snd kv)) props
  | _ => negb (isTruthy data)
  end.

End ValidatorTypes.

(** ** generateRouter.js and helper/generateFormComponents.js: the view files

    [generateRouter] writes a placeholder view for each of its fixed routes,
    and [generateFormComponents] the create and edit views of each
    collection.  The paths are built with [path.join], which is
    [Store.joinPath] on segments that need no normalising. *)

Module Views.
Import Js Naming Router.

Definition authViewNames : list string :=
  ["LoginView"; "RegisterView"; "ForgotPasswordView"; "ResetPasswordView";
   "VerifyEmailView"; "UnauthorizedView"].

Definition adminViewNames : list string := ["DashboardView"; "UsersView"].

(** The files [generateRouter] writes below [src/views], in order. *)
Definition routerViews (answers : Answers) : list string :=
  let viewsDir := "src/views" in
  (if negb (enableLanding answers) then [Store.joinPath viewsDir "HomeView.vue"]
   else [Store.joinPath viewsDir "LandingPage.vue"])
  ++ (if enableAuth answers && enableAuthViews answers then
        let authViewsDir := Store.joinPath viewsDir "auth" in
        map (fun viewName => Store.joinPath authViewsDir (viewName ++ ".vue")) authViewNames
        ++ [Store.joinPath viewsDir "AccountView.vue";
            Store.joinPath viewsDir "SettingsView.vue"]
      else [])
  ++ (if enableAdmin answers then
        let adminViewsDir := Store.joinPath viewsDir "admin" in
        map (fun viewName => Store.joinPath adminViewsDir (viewName ++ ".vue")) adminViewNames
      else []).

(** The files [generateFormComponents(collections)] writes, in order. *)
Definition formViews (collections : list Store.Collection) : list string :=
  let viewsDir := Store.joinPath "src" "views" in
  flat_map (fun collectionConfig =>
              let camelCollectionName := toCamelCase (Store.name collectionConfig) in
              let collectionViewsDir := Store.joinPath viewsDir camelCollectionName in
              [Store.joinPath collectionViewsDir "Create.vue";
               Store.joinPath collectionViewsDir "Edit.vue"])
           collections.

End Views.

Section ViewsVocabulary.
Import Js Naming Router.

(** A path segment that [path.join] leaves as it is. *)
Definition plainSegment (s : string) : bool :=
  truthy s
  && allChars (fun c => negb (Ascii.eqb c "/")) s
  && negb (String.eqb s ".") && negb (String.eqb s "..").

(** The module specifier of a file of [src], under the alias [@]. *)
Definition aliasOf (file : string) : string :=
  match file with
  | String "s" (String "r" (String "c" rest)) => "@" ++ rest
  | _ => file
  end.

(** The lazy import of a view file as the route table writes it. *)
Definition lazyImportOf (file : string) : string :=
  "() => import('" ++ aliasOf file ++ "')".

(** The components of a route table, in order. *)
Definition componentsOf (routes : list Route) : list string :=
  flat_map (fun r => match component r with Some c => [c] | None => [] end) routes.

End ViewsVocabulary.

(** ** helper/generateActivityLogger.js: [logActivity] of the emitted module *)

Module ActivityLogger.
Import Js Validation Writes.

(** What [logActivity] calls: [Timestamp.now()], and [addDoc] on the
    collection [recentActivity], which gives the id of the new entry or
    rejects with an error. *)
Record Env := {
  now : Value;
  addDoc : list (string * Value) -> string + string
}.

(** The [userContext]: of the signed-in user, or [{ system: true }]. *)
Definition userContext (user : Value) : list (string * Value) :=
  if isTruthy user then
    [("userId", getProp user "uid");
     ("userEmail", getProp user "email");
     ("userName", jsOr (getProp user "displayName") (getProp user "email"))]
  else [("system", VBool true)].

(** [{ ...activity, ...userContext, timestamp: Timestamp.now() }]. *)
Definition activityEntry (env : Env) (activity : list (string * Value)) (user : Value)
  : list (string * Value) :=
  spread (spread (spread [] activity) (userContext user)) [("timestamp", now env)].

(** The object [logActivity] resolves to. *)
Record LogResult := {
  success : bool;
  activityId : option string;
  errorMessage : option string
}.

(** What a call leaves behind: its result, what it has written to
    [store.error.value] if anything, and its [console.error] lines. *)
Record Logged := {
  result : LogResult;
  storeError : option string;
  consoleErrors : list string
}.

(** [logActivity(activity, store)], with [user] for
    [store.currentUser?.value]. *)
Definition logActivity (env : Env) (activity : list (string * Value)) (user : Value)
  : Logged :=
  match addDoc env (activityEntry env activity user) with
  | inr id =>
      {| result := {| success := true; activityId := Some id; errorMessage := None |};
         storeError := None;
         consoleErrors := [] |}
  | inl err =>
      {| result := {| success := false; activityId := None; errorMessage := Some err |};
         storeError := Some "Failed to log activity";
         consoleErrors := ["[Activity Logger] Log error:"] |}
  end.

End ActivityLogger.

(** ** The validator of a collection: where it is written, where it is
    imported *)

Module ValidatorFiles.
Import Js Naming.

(** [generateValidationModule]: the name of the emitted function and the
    path of the file, from the processed collection name. *)
Definition capitalizeCollectionName (collectionName : string) : string :=
  toUpperCase (charAt0 collectionName) ++ slice1 collectionName.

Definition validatorName (collectionName : string) : string :=
  "validate" ++ capitalizeCollectionName collectionName.

Definition targetPath (collectionName : string) : string :=
  Store.joinPath (Store.joinPath "src" "validators")
    ("validate" ++ capitalizeCollectionName collectionName ++ ".js").

(** [generateFormComponents]: the function the create and edit components
    import, and the module specifier they import it from, from the
    collection configuration as the command line holds it. *)
Definition importedValidator (collectionConfig : Store.Collection) : string :=
  "validate" ++ toPascalCase (Store.name collectionConfig).

Definition importedFrom (collectionConfig : Store.Collection) : string :=
  "@/validators/validate" ++ toPascalCase (Store.name collectionConfig).

(** What importing the file written for a collection gives: its one export
    by name, [None] for a file that does not parse. *)
Definition importedModule (collectionName : string) (fields : Store.Fields)
  : option (string * (Validation.Env -> Validation.Value -> Validation.Result)) :=
  match Validation.importValidator fields with
  | Some validate => Some (validatorName collectionName, validate)
  | None => None
  end.

(** A collection of two fields of a type the generator has no check for,
    and an input that leaves one blank and the other out. *)
Definition memoFields : Store.Fields := [("title", "text"); ("note", "memo")].

Definition memoInput : Validation.Value :=
  Validation.VObject [("title", Validation.VString "  ")].

End ValidatorFiles.

(** ** Vocabulary of the statements about paging in the second generation *)

Section AdvancedPaging.
Import Js Firestore.

(** [fetchNextPage] of the second generation called [k] times in a row. *)
Definition advancedNextPages (logging : bool) (k : nat) (w : World Advanced.Filters)
  : World Advanced.Filters :=
  Nat.iter k (fun w' => snd (Advanced.fetchNextPage logging w')) w.

(** [options.orderBy || state[collectionName].value.orderBy]. *)
Definition chosenOrder (options : Advanced.FetchOptions) (v : View Advanced.Filters)
  : option SortConfig :=
  match Advanced.optOrderBy options with
  | Some c => Some c
  | None => orderBy v
  end.

(** What holds of the state once [j] pages of [n] documents have been asked
    for out of the selection [sel] of a store that answers with [rowsOf]:
    the store still answers so, the filters and the order of the state
    select [sel], the items are the first [n * j] rows, and either a
    further page is pending behind the last of them, or the rows are used
    up and nothing is pending. *)
Definition advancedPagesLoaded (rowsOf : list Constraint -> list Snapshot)
    (sel : list Constraint) (n j : nat) (w : World Advanced.Filters) : Prop :=
  let v := view (st w) in
  scan (db w) = rowsOf
  /\ outage (db w) = None
  /\ (exists wheres,
        Advanced.filterConstraints (filters v) = inr wheres
        /\ (wheres ++ Advanced.sortConstraints (orderBy v))%list = sel)
  /\ pageSize v = n
  /\ items v = firstn (n * j) (rowsOf sel)
  /\ ((hasMore v = true /\ n * j <= length (rowsOf sel)
       /\ lastVisible v = last (firstn (n * j) (rowsOf sel))
       /\ lastVisible v <> None)
      \/ ((lastVisible v = None \/ hasMore v = false) /\ length (rowsOf sel) <= n * j)).

Definition pageOfOneAdvanced : Advanced.FetchOptions :=
  {| Advanced.optPageSize := Some 1; Advanced.optFilters := None;
     Advanced.optOrderBy := None |}.

End AdvancedPaging.
(** * Properties *)

Section NamingExamples.
Import Js Naming.

Example camel_hello_world : toCamelCase "hello world" = "helloWorld".
Proof. reflexivity. Qed.

Example pascal_hello_world : toPascalCase "hello world" = "HelloWorld".
Proof. reflexivity. Qed.

Example camel_mixed : toCamelCase "  user_profile-Items  " = "userProfileItems".
Proof. reflexivity. Qed.

Example split_leading : splitSeparators "-foo" = [""; "foo"].
Proof. reflexivity. Qed.

Example split_trailing : splitSeparators "foo__" = ["foo"; ""].
Proof. reflexivity. Qed.

Example split_run : splitSeparators "a -_ b" = ["a"; "b"].
Proof. reflexivity. Qed.

Example split_empty : splitSeparators "" = [""].
Proof. reflexivity. Qed.

End NamingExamples.

(** ** Naming Deriver: characters *)

Section NamingFacts.
Import Js Naming.

Ltac by_cases_on_char c :=
  destruct c as [[] [] [] [] [] [] [] []]; vm_compute; congruence.

Lemma toUpperChar_not_lower c : isLowerAZ (toUpperChar c) = false.
Proof. by_cases_on_char c. Qed.

Lemma toLowerChar_not_upper c : isUpperAZ (toLowerChar c) = false.
Proof. by_cases_on_char c. Qed.

Lemma toUpperChar_separator c : isSeparator (toUpperChar c) = isSeparator c.
Proof. by_cases_on_char c. Qed.

Lemma toLowerChar_separator c : isSeparator (toLowerChar c) = isSeparator c.
Proof. by_cases_on_char c. Qed.

Lemma toLowerChar_idem c : toLowerChar (toLowerChar c) = toLowerChar c.
Proof. by_cases_on_char c. Qed.

Lemma toUpperChar_lower_idem c :
  toUpperChar (toLowerChar (toUpperChar (toLowerChar c))) = toUpperChar (toLowerChar c).
Proof. by_cases_on_char c. Qed.

Lemma whitespace_is_separator c : isWhiteSpace c = true -> isSeparator c = true.
Proof. by_cases_on_char c. Qed.

(** ** Naming Deriver: strings *)

Lemma append_cons c (r t : string) : String c r ++ t = String c (r ++ t).
Proof. reflexivity. Qed.

Lemma append_empty_r (s : string) : s ++ "" = s.
Proof.
  induction s as [|c r IH]; [reflexivity|].
  now rewrite append_cons, IH.
Qed.

Lemma allChars_append p (s t : string) :
  allChars p (s ++ t) = allChars p s && allChars p t.
Proof.
  induction s as [|c r IH]; [reflexivity|].
  rewrite append_cons. simpl. now rewrite IH, andb_assoc.
Qed.

Lemma allChars_mapChars p f s :
  (forall c, p (f c) = p c) -> allChars p (mapChars f s) = allChars p s.
Proof.
  intros Hf. induction s as [|c r IH]; simpl; [reflexivity|].
  now rewrite Hf, IH.
Qed.

Lemma notSeparator_upper c : notSeparator (toUpperChar c) = notSeparator c.
Proof. unfold notSeparator. now rewrite toUpperChar_separator. Qed.

Lemma notSeparator_lower c : notSeparator (toLowerChar c) = notSeparator c.
Proof. unfold notSeparator. now rewrite toLowerChar_separator. Qed.

Lemma capitalizeWord_cons c r : capitalizeWord (String c r) = String (toUpperChar c) r.
Proof. reflexivity. Qed.

Lemma capitalizeWord_empty : capitalizeWord "" = "".
Proof. reflexivity. Qed.

Lemma allChars_capitalizeWord w :
  allChars notSeparator (capitalizeWord w) = allChars notSeparator w.
Proof.
  destruct w as [|c r]; [reflexivity|].
  rewrite capitalizeWord_cons. simpl. now rewrite notSeparator_upper.
Qed.

Lemma allChars_joinEmpty p (l : list string) :
  Forall (fun w => allChars p w = true) l -> allChars p (joinEmpty l) = true.
Proof.
  induction 1 as [|w r Hw _ IH]; simpl; [reflexivity|].
  now rewrite allChars_append, Hw, IH.
Qed.

Lemma splitSeparators_pieces s :
  Forall (fun w => allChars notSeparator w = true) (splitSeparators s).
Proof.
  induction s as [|c r IH]; simpl.
  - repeat constructor.
  - destruct (isSeparator c) eqn:Hc.
    + destruct (startsWithSeparator r); [exact IH | now constructor].
    + destruct (splitSeparators r) as [|w ws]; simpl.
      * constructor; [|constructor]. simpl. unfold notSeparator. now rewrite Hc.
      * inversion IH; subst. constructor; [|assumption].
        simpl. unfold notSeparator at 1. now rewrite Hc.
Qed.

Lemma splitSeparators_single s :
  allChars notSeparator s = true -> splitSeparators s = [s].
Proof.
  induction s as [|c r IH]; simpl; [reflexivity|].
  intros H. apply andb_true_iff in H as [Hc Hr].
  unfold notSeparator in Hc. apply negb_true_iff in Hc. rewrite Hc.
  now rewrite (IH Hr).
Qed.

Lemma allChars_weaken (p q : ascii -> bool) s :
  (forall c, p c = true -> q c = true) -> allChars p s = true -> allChars q s = true.
Proof.
  intros Hpq. induction s as [|c r IH]; simpl; [reflexivity|].
  intros H. apply andb_true_iff in H as [Hc Hr].
  now rewrite (Hpq c Hc), (IH Hr).
Qed.

Lemma trimStart_no_whitespace s :
  allChars (fun c => negb (isWhiteSpace c)) s = true -> trimStart s = s.
Proof.
  destruct s as [|c r]; simpl; [reflexivity|].
  intros H. apply andb_true_iff in H as [Hc _].
  apply negb_true_iff in Hc. now rewrite Hc.
Qed.

Lemma trimEnd_no_whitespace s :
  allChars (fun c => negb (isWhiteSpace c)) s = true -> trimEnd s = s.
Proof.
  induction s as [|c r IH]; simpl; [reflexivity|].
  intros H. apply andb_true_iff in H as [Hc Hr].
  rewrite (IH Hr). destruct r as [|e r']; [|reflexivity].
  apply negb_true_iff in Hc. now rewrite Hc.
Qed.

Lemma trim_no_whitespace s :
  allChars (fun c => negb (isWhiteSpace c)) s = true -> trim s = s.
Proof.
  intros H. unfold trim. rewrite (trimStart_no_whitespace s H).
  now apply trimEnd_no_whitespace.
Qed.

Lemma trim_no_separator s : allChars notSeparator s = true -> trim s = s.
Proof.
  intros H. apply trim_no_whitespace.
  apply (allChars_weaken notSeparator); [|assumption].
  intros c Hc. unfold notSeparator in Hc.
  destruct (isWhiteSpace c) eqn:Hw; [|reflexivity].
  apply whitespace_is_separator in Hw. rewrite Hw in Hc. discriminate.
Qed.

Lemma camel_pieces (l : list string) :
  imap (fun i w => if Nat.eqb i 0 then w else capitalizeWord w) l =
  match l with
  | [] => []
  | w :: r => w :: map capitalizeWord r
  end.
Proof.
  destruct l as [|w r]; [reflexivity|].
  simpl. f_equal. clear w.
  change (imap ((fun i w => if Nat.eqb i 0 then w else capitalizeWord w) ∘ S) r
          = map capitalizeWord r).
  induction r as [|x r IH] using rev_ind; [reflexivity|].
  rewrite imap_app, map_app, IH. reflexivity.
Qed.

Lemma toCamelCase_no_separator x : allChars notSeparator (toCamelCase x) = true.
Proof.
  unfold toCamelCase. apply allChars_joinEmpty.
  rewrite camel_pieces.
  pose proof (splitSeparators_pieces (toLowerCase (trim x))) as H.
  destruct H as [|w r Hw Hr]; constructor; [assumption|].
  induction Hr as [|v r Hv _ IH]; simpl; constructor; [|assumption].
  now rewrite allChars_capitalizeWord.
Qed.

Lemma toPascalCase_no_separator x : allChars notSeparator (toPascalCase x) = true.
Proof.
  unfold toPascalCase. apply allChars_joinEmpty.
  pose proof (splitSeparators_pieces (toLowerCase (trim x))) as H.
  induction H as [|v r Hv _ IH]; simpl; constructor; [|assumption].
  now rewrite allChars_capitalizeWord.
Qed.

Lemma toLowerCase_no_separator s :
  allChars notSeparator (toLowerCase s) = allChars notSeparator s.
Proof. apply allChars_mapChars, notSeparator_lower. Qed.

(** On a string without separators the two functions are plain case maps. *)
Lemma toCamelCase_single s :
  allChars notSeparator s = true -> toCamelCase s = toLowerCase s.
Proof.
  intros H. unfold toCamelCase.
  rewrite (trim_no_separator s H), splitSeparators_single.
  - simpl. apply append_empty_r.
  - now rewrite toLowerCase_no_separator.
Qed.

Lemma toPascalCase_single s :
  allChars notSeparator s = true -> toPascalCase s = capitalizeWord (toLowerCase s).
Proof.
  intros H. unfold toPascalCase.
  rewrite (trim_no_separator s H), splitSeparators_single.
  - simpl. apply append_empty_r.
  - now rewrite toLowerCase_no_separator.
Qed.

End NamingFacts.

Section NamingLaws.
Import Js Naming.

Lemma mapChars_idem f s :
  (forall c, f (f c) = f c) -> mapChars f (mapChars f s) = mapChars f s.
Proof.
  intros Hf. induction s as [|c r IH]; simpl; [reflexivity|].
  now rewrite Hf, IH.
Qed.

Lemma toLowerCase_idem s : toLowerCase (toLowerCase s) = toLowerCase s.
Proof. apply mapChars_idem, toLowerChar_idem. Qed.

Lemma capitalize_lower_idem s :
  capitalizeWord (toLowerCase (capitalizeWord (toLowerCase s))) =
  capitalizeWord (toLowerCase s).
Proof.
  destruct s as [|c r]; [reflexivity|].
  change (String (toUpperChar (toLowerChar (toUpperChar (toLowerChar c))))
                 (toLowerCase (toLowerCase r)) =
          String (toUpperChar (toLowerChar c)) (toLowerCase r)).
  now rewrite toUpperChar_lower_idem, toLowerCase_idem.
Qed.

Lemma pascal_first_of_pieces (l : list string) c r :
  joinEmpty (map capitalizeWord l) = String c r -> isLowerAZ c = false.
Proof.
  induction l as [|w l IH]; simpl; [discriminate|].
  destruct w as [|d w'].
  - rewrite capitalizeWord_empty. exact IH.
  - rewrite capitalizeWord_cons, append_cons. intros [= <- _].
    apply toUpperChar_not_lower.
Qed.

Lemma startsWithSeparator_lower s :
  startsWithSeparator (toLowerCase s) = startsWithSeparator s.
Proof. destruct s as [|c r]; [reflexivity|]. apply toLowerChar_separator. Qed.

Lemma camel_first_of_lower s c r :
  startsWithSeparator s = false ->
  joinEmpty
    (imap (fun i w => if Nat.eqb i 0 then w else capitalizeWord w)
          (splitSeparators (toLowerCase s))) = String c r ->
  isUpperAZ c = false.
Proof.
  intros Hs. rewrite camel_pieces.
  destruct s as [|d s']; [discriminate|].
  simpl in Hs. change (toLowerCase (String d s')) with (String (toLowerChar d) (toLowerCase s')).
  simpl. rewrite toLowerChar_separator, Hs.
  destruct (splitSeparators (toLowerCase s')) as [|w ws]; simpl;
    rewrite append_cons; intros [= <- _]; apply toLowerChar_not_upper.
Qed.

(** The names the derivers return hold no separator, so a second pass only
    maps case. *)
Lemma toCamelCase_twice x : toCamelCase (toCamelCase x) = toLowerCase (toCamelCase x).
Proof. apply toCamelCase_single, toCamelCase_no_separator. Qed.

Lemma toPascalCase_twice x :
  toPascalCase (toPascalCase x) = capitalizeWord (toLowerCase (toPascalCase x)).
Proof. apply toPascalCase_single, toPascalCase_no_separator. Qed.

Lemma toCamelCase_one_token x :
  allChars notSeparator (trim x) = true -> toCamelCase x = toLowerCase (trim x).
Proof.
  intros H. unfold toCamelCase. rewrite splitSeparators_single.
  - simpl. apply append_empty_r.
  - now rewrite toLowerCase_no_separator.
Qed.

Lemma toPascalCase_one_token x :
  allChars notSeparator (trim x) = true ->
  toPascalCase x = capitalizeWord (toLowerCase (trim x)).
Proof.
  intros H. unfold toPascalCase. rewrite splitSeparators_single.
  - simpl. apply append_empty_r.
  - now rewrite toLowerCase_no_separator.
Qed.

(** The naming functions keep ASCII text ASCII: a second application is
    again on text of the kind the first one was given. *)
Lemma isAsciiChar_upper c : isAsciiChar (toUpperChar c) = isAsciiChar c.
Proof. destruct c as [[] [] [] [] [] [] [] []]; reflexivity. Qed.

Lemma isAsciiChar_lower c : isAsciiChar (toLowerChar c) = isAsciiChar c.
Proof. destruct c as [[] [] [] [] [] [] [] []]; reflexivity. Qed.

Lemma allChars_trimStart p s : allChars p s = true -> allChars p (trimStart s) = true.
Proof.
  induction s as [|c r IH]; simpl; [reflexivity|].
  intros H. apply andb_true_iff in H as [Hc Hr].
  destruct (isWhiteSpace c); [now apply IH|]. simpl. now rewrite Hc, Hr.
Qed.

Lemma allChars_trimEnd p s : allChars p s = true -> allChars p (trimEnd s) = true.
Proof.
  induction s as [|c r IH]; simpl; [reflexivity|].
  intros H. apply andb_true_iff in H as [Hc Hr]. specialize (IH Hr).
  destruct (trimEnd r) as [|d t].
  - destruct (isWhiteSpace c); simpl; [reflexivity | now rewrite Hc].
  - change (allChars p (String c (String d t)))
      with (p c && allChars p (String d t)). now rewrite Hc, IH.
Qed.

Lemma allChars_trim p s : allChars p s = true -> allChars p (trim s) = true.
Proof. intros H. unfold trim. now apply allChars_trimEnd, allChars_trimStart. Qed.

Lemma splitSeparators_allChars p s :
  allChars p s = true -> Forall (fun w => allChars p w = true) (splitSeparators s).
Proof.
  induction s as [|c r IH]; simpl.
  - intros _. repeat constructor.
  - intros H. apply andb_true_iff in H as [Hc Hr]. specialize (IH Hr).
    destruct (isSeparator c).
    + destruct (startsWithSeparator r); [exact IH | now constructor].
    + destruct (splitSeparators r) as [|w ws]; simpl.
      * constructor; [|constructor]. simpl. now rewrite Hc.
      * inversion IH; subst. constructor; [|assumption].
        simpl. now rewrite Hc.
Qed.

Lemma isAsciiText_capitalizeWord w :
  isAsciiText (capitalizeWord w) = isAsciiText w.
Proof.
  destruct w as [|c r]; [reflexivity|].
  rewrite capitalizeWord_cons. unfold isAsciiText. simpl. now rewrite isAsciiChar_upper.
Qed.

Lemma normalised_pieces_ascii x :
  isAsciiText x = true ->
  Forall (fun w => isAsciiText w = true) (splitSeparators (toLowerCase (trim x))).
Proof.
  intros H. apply (splitSeparators_allChars isAsciiChar).
  unfold toLowerCase. rewrite (allChars_mapChars _ _ _ isAsciiChar_lower).
  now apply allChars_trim.
Qed.

Lemma toPascalCase_ascii x : isAsciiText x = true -> isAsciiText (toPascalCase x) = true.
Proof.
  intros H. unfold toPascalCase. apply (allChars_joinEmpty isAsciiChar).
  pose proof (normalised_pieces_ascii x H) as Hp.
  induction Hp as [|v r Hv _ IH]; simpl; constructor; [|assumption].
  fold (isAsciiText (capitalizeWord v)). now rewrite isAsciiText_capitalizeWord.
Qed.

Lemma toCamelCase_ascii x : isAsciiText x = true -> isAsciiText (toCamelCase x) = true.
Proof.
  intros H. unfold toCamelCase. apply (allChars_joinEmpty isAsciiChar).
  rewrite camel_pieces.
  pose proof (normalised_pieces_ascii x H) as Hp.
  destruct Hp as [|w r Hw Hr]; constructor; [assumption|].
  induction Hr as [|v r Hv _ IH]; simpl; constructor; [|assumption].
  fold (isAsciiText (capitalizeWord v)). now rewrite isAsciiText_capitalizeWord.
Qed.

(** C5 (as the code has it): on a name of ASCII characters, [toCamelCase]
    and [toPascalCase] are functions of their argument alone, and give
    ASCII names again; applied to their own result they lower-case it
    again (and [toPascalCase] re-capitalises the first letter), so they are
    idempotent on names made of one token and not in general; the first
    character of a [toPascalCase] result is never a lower-case letter, and
    the first character of a [toCamelCase] result is never an upper-case
    letter when the trimmed name does not begin with a hyphen or an
    underscore. *)
Theorem naming_second_application (x : string) :
  isAsciiText x = true ->
  (isAsciiText (toCamelCase x) = true /\ isAsciiText (toPascalCase x) = true)
  /\ toCamelCase (toCamelCase x) = toLowerCase (toCamelCase x)
  /\ toPascalCase (toPascalCase x) = capitalizeWord (toLowerCase (toPascalCase x))
  /\ (allChars notSeparator (trim x) = true ->
      toCamelCase (toCamelCase x) = toCamelCase x
      /\ toPascalCase (toPascalCase x) = toPascalCase x)
  /\ (forall c r, toPascalCase x = String c r -> isLowerAZ c = false)
  /\ (forall c r, toCamelCase x = String c r ->
        startsWithSeparator (trim x) = false -> isUpperAZ c = false).
Proof.
  intros Hascii.
  split; [split; [now apply toCamelCase_ascii | now apply toPascalCase_ascii]|].
  split; [apply toCamelCase_twice|].
  split; [apply toPascalCase_twice|].
  split; [|split].
  - intros H. split.
    + rewrite toCamelCase_twice, (toCamelCase_one_token x H).
      apply toLowerCase_idem.
    + rewrite toPascalCase_twice, (toPascalCase_one_token x H).
      apply capitalize_lower_idem.
  - intros c r. unfold toPascalCase. apply pascal_first_of_pieces.
  - intros c r Hx Hs. unfold toCamelCase in Hx.
    now apply (camel_first_of_lower (trim x) c r).
Qed.

Lemma naming_second_application_witness :
  isAsciiText "Users" = true
  /\ toCamelCase (toCamelCase "Users") = toCamelCase "Users"
  /\ toPascalCase (toPascalCase "Users") = toPascalCase "Users"
  /\ isLowerAZ "U" = false
  /\ isUpperAZ "u" = false.
Proof.
  destruct (naming_second_application "Users" eq_refl)
    as (_ & _ & _ & Hsame & Hpascal & Hcamel).
  destruct (Hsame eq_refl) as [H1 H2].
  exact (conj eq_refl
           (conj H1 (conj H2 (conj (Hpascal "U"%char "sers" eq_refl)
                                   (Hcamel "u"%char "sers" eq_refl eq_refl))))).
Defined.

(** C5, as stated, fails: a second application of either function changes a
    name of two tokens, and a name that begins with a hyphen gets an
    upper-case first letter from [toCamelCase]. *)
Lemma naming_not_idempotent :
  toCamelCase "hello world" = "helloWorld"
  /\ toCamelCase (toCamelCase "hello world") = "helloworld"
  /\ String.eqb (toCamelCase (toCamelCase "hello world")) (toCamelCase "hello world") = false
  /\ toPascalCase "hello world" = "HelloWorld"
  /\ toPascalCase (toPascalCase "hello world") = "Helloworld"
  /\ String.eqb (toPascalCase (toPascalCase "hello world")) (toPascalCase "hello world") = false
  /\ toCamelCase "-foo" = "Foo"
  /\ isUpperAZ "F" = true.
Proof. repeat split; reflexivity. Qed.

End NamingLaws.

(** ** generateStore: normalisation *)

Section StoreNormalisation.
Import Js Naming Store.

Lemma processCollection_malformed c :
  lacksNameOrFields c = true -> processCollection c = inl (MissingNameOrFields c).
Proof.
  unfold lacksNameOrFields, processCollection.
  destruct (raw_name c) as [n|], (raw_fields c) as [f|]; try reflexivity.
  destruct (truthy n); [discriminate | reflexivity].
Qed.

Lemma processCollection_wellformed c :
  lacksNameOrFields c = false ->
  exists p, processCollection c = inr p /\ normalisedFrom c p.
Proof.
  unfold lacksNameOrFields, processCollection, normalisedFrom.
  destruct (raw_name c) as [n|] eqn:Hn, (raw_fields c) as [f|] eqn:Hf; try discriminate.
  destruct (truthy n) eqn:Ht; [|discriminate]. intros _.
  eexists. split; [reflexivity|].
  exists n, f. simpl. repeat split; auto.
Qed.

Lemma mapThrowing_find cs :
  match List.find lacksNameOrFields cs with
  | Some c => In c cs /\ mapThrowing cs = inl (MissingNameOrFields c)
  | None => exists ps, mapThrowing cs = inr ps /\ Forall2 normalisedFrom cs ps
  end.
Proof.
  induction cs as [|c r IH]; simpl.
  - exists []. split; [reflexivity | constructor].
  - destruct (lacksNameOrFields c) eqn:Hc.
    + split; [now left|]. now rewrite (processCollection_malformed c Hc).
    + destruct (processCollection_wellformed c Hc) as (p & Hp & Hnp). rewrite Hp.
      destruct (List.find lacksNameOrFields r) as [bad|].
      * destruct IH as [Hin Hr]. split; [now right|]. now rewrite Hr.
      * destruct IH as (ps & Hr & Hall). rewrite Hr.
        exists (p :: ps). split; [reflexivity | now constructor].
Qed.

Lemma truthy_nonempty s : truthy s = true <-> s <> "".
Proof. destruct s; simpl; split; congruence. Qed.

(** C8: normalisation fails on the first entry that lacks a name or a field
    map (an empty field map is accepted, a missing one is not), and that
    failure ends the run before anything is written; when every entry is
    well formed the result is the normalised entries without those whose
    canonical name is empty, so every name handed downstream is non-empty.
    The first generation, whose entries are bare names, drops empty
    canonical names in the same way. *)
Theorem normalisation_rejects_or_drops (cs : list RawCollection) :
  match List.find lacksNameOrFields cs with
  | Some c =>
      In c cs
      /\ processCollections cs = inl (MissingNameOrFields c)
      /\ (forall sn lg rl c0 r,
            truthy sn = true -> cs = c0 :: r ->
            generateStore {| storeName := Val sn; collections := Val cs;
                             roles := rl; addActivityLogging := lg |}
            = {| outcome := Threw (MissingNameOrFields c);
                 actions := [ConsoleError (MissingNameOrFields c)] |})
  | None =>
      exists every,
        Forall2 normalisedFrom cs every
        /\ processCollections cs = inr (filter (fun p => truthy (name p) = true) every)
        /\ Forall (fun p => name p <> "") (filter (fun p => truthy (name p) = true) every)
  end
  /\ (forall n d, lacksNameOrFields
                    {| raw_name := Some n; raw_fields := Some []; raw_dataType := d |}
                  = negb (truthy n))
  /\ (forall n d, lacksNameOrFields
                    {| raw_name := n; raw_fields := None; raw_dataType := d |} = true)
  /\ (forall f d, lacksNameOrFields
                    {| raw_name := None; raw_fields := f; raw_dataType := d |} = true)
  /\ (forall names, Forall (fun s => s <> "") (processNames names)).
Proof.
  refine (conj _ (conj _ (conj _ (conj _ _)))).
  - pose proof (mapThrowing_find cs) as H.
    destruct (List.find lacksNameOrFields cs) as [c|].
    + destruct H as [Hin Hm]. split; [assumption|].
      assert (Hp : processCollections cs = inl (MissingNameOrFields c)).
      { unfold processCollections. now rewrite Hm. }
      split; [assumption|].
      intros sn lg rl c0 r Hsn ->. unfold generateStore. simpl.
      rewrite Hsn. simpl. now rewrite Hp.
    + destruct H as (ps & Hm & Hall). exists ps. split; [assumption|].
      split.
      * unfold processCollections. now rewrite Hm.
      * apply Forall_forall. intros p Hin.
        apply list_elem_of_filter in Hin as [Hp _].
        now apply truthy_nonempty.
  - intros n d. unfold lacksNameOrFields. simpl. reflexivity.
  - intros [n|] d; reflexivity.
  - intros [f|] d; reflexivity.
  - intros names. apply Forall_forall. intros s Hin. unfold processNames in Hin.
    apply list_elem_of_filter in Hin as [Hp _].
    now apply truthy_nonempty.
Qed.

Lemma normalisation_rejects_or_drops_witness :
  generateStore {| storeName := Val "shop";
                   collections := Val [productsRaw; ordersWithoutFields];
                   roles := []; addActivityLogging := false |}
  = {| outcome := Threw (MissingNameOrFields ordersWithoutFields);
       actions := [ConsoleError (MissingNameOrFields ordersWithoutFields)] |}.
Proof.
  destruct (normalisation_rejects_or_drops [productsRaw; ordersWithoutFields])
    as ((_ & _ & Hrun) & _).
  exact (Hrun "shop" false [] productsRaw [ordersWithoutFields] eq_refl eq_refl).
Defined.

Example normalisation_drops_blank :
  processCollections
    [ {| raw_name := Some "user profiles"; raw_fields := Some []; raw_dataType := None |};
      {| raw_name := Some " - "; raw_fields := Some [("a", "string")]; raw_dataType := None |} ]
  = inr [ {| name := "userProfiles"; fields := []; dataType := "object" |} ].
Proof. reflexivity. Qed.

Example normalisation_rejects_missing_fields :
  processCollections
    [ {| raw_name := Some " - "; raw_fields := Some []; raw_dataType := None |};
      {| raw_name := Some "orders"; raw_fields := None; raw_dataType := None |} ]
  = inl (MissingNameOrFields
           {| raw_name := Some "orders"; raw_fields := None; raw_dataType := None |}).
Proof. reflexivity. Qed.

End StoreNormalisation.

(** ** generateStore: a run without collections *)

Section StoreWithoutCollections.
Import Js Naming Store.

Lemma rethrow_leaves_disk_alone e :
  List.filter touchesDisk (actions (rethrow e)) = [].
Proof. reflexivity. Qed.

Lemma generateStore_guard (o : Options) :
  collectionsFalsyOrEmpty (collections o) = true ->
  generateStore o =
  rethrow (if storeNameFalsy (orDefault "appStore" (storeName o))
           then StoreNameRequired else CollectionRequired).
Proof.
  intros H. unfold generateStore.
  destruct (storeNameFalsy (orDefault "appStore" (storeName o))); [reflexivity|].
  destruct (collections o) as [| |[|c r]]; try reflexivity. discriminate.
Qed.

Lemma generateStoreV1_guard (o : OptionsV1) :
  collectionsFalsyOrEmpty (collections1 o) = true ->
  generateStoreV1 o =
  rethrow (if storeNameFalsy (orDefault "appStore" (storeName1 o))
           then StoreNameRequired else CollectionRequired).
Proof.
  intros H. unfold generateStoreV1.
  destruct (storeNameFalsy (orDefault "appStore" (storeName1 o))); [reflexivity|].
  destruct (collections1 o) as [| |[|c r]]; try reflexivity. discriminate.
Qed.

(** C10 (as the code has it): when the collections list is missing, null or
    empty, both generations of [generateStore] throw before any directory is
    created or any artifact written; the error is "At least one collection is
    required" unless the store name is null or empty, which is checked first
    and gives "Store name is required". *)
Theorem generateStore_without_collections (o : Options) (o1 : OptionsV1) :
  collectionsFalsyOrEmpty (collections o) = true ->
  collectionsFalsyOrEmpty (collections1 o1) = true ->
  (outcome (generateStore o) =
     Threw (if storeNameFalsy (orDefault "appStore" (storeName o))
            then StoreNameRequired else CollectionRequired)
   /\ List.filter touchesDisk (actions (generateStore o)) = [])
  /\ (outcome (generateStoreV1 o1) =
        Threw (if storeNameFalsy (orDefault "appStore" (storeName1 o1))
               then StoreNameRequired else CollectionRequired)
      /\ List.filter touchesDisk (actions (generateStoreV1 o1)) = []).
Proof.
  intros H H1.
  rewrite (generateStore_guard o H), (generateStoreV1_guard o1 H1).
  repeat split.
Qed.

Lemma generateStore_without_collections_witness :
  (outcome (generateStore {| storeName := Undefined; collections := Val [];
                             roles := ["admin"]; addActivityLogging := true |})
     = Threw CollectionRequired
   /\ List.filter touchesDisk
        (actions (generateStore {| storeName := Undefined; collections := Val [];
                                   roles := ["admin"]; addActivityLogging := true |})) = [])
  /\ (outcome (generateStoreV1 {| storeName1 := Val "shop"; collections1 := Null;
                                  roles1 := []; addActivityLogging1 := false |})
        = Threw CollectionRequired
      /\ List.filter touchesDisk
           (actions (generateStoreV1 {| storeName1 := Val "shop"; collections1 := Null;
                                        roles1 := []; addActivityLogging1 := false |})) = []).
Proof.
  exact (generateStore_without_collections
           {| storeName := Undefined; collections := Val [];
              roles := ["admin"]; addActivityLogging := true |}
           {| storeName1 := Val "shop"; collections1 := Null;
              roles1 := []; addActivityLogging1 := false |}
           eq_refl eq_refl).
Defined.

(** C10, as stated, fails: with an empty store name the error thrown for a
    missing collections list is "Store name is required". *)
Lemma generateStore_empty_name_first :
  outcome (generateStore {| storeName := Val ""; collections := Undefined;
                            roles := []; addActivityLogging := false |})
    = Threw StoreNameRequired
  /\ errorMessage (fun _ => "") StoreNameRequired = "Store name is required"
  /\ String.eqb (errorMessage (fun _ => "") StoreNameRequired)
                "At least one collection is required" = false
  /\ outcome (generateStoreV1 {| storeName1 := Null; collections1 := Val [];
                                 roles1 := []; addActivityLogging1 := false |})
       = Threw StoreNameRequired.
Proof. repeat split. Qed.

Example generateStore_runs :
  actions (generateStoreV1 {| storeName1 := Undefined; collections1 := Val ["Users"; "blog posts"];
                              roles1 := ["admin"]; addActivityLogging1 := false |})
  = [EnsureDir "src/stores/appStore/actions";
     StateFile "src/stores/appStore" [ByName "users"; ByName "blogPosts"] [ByName "users"] false;
     FirestoreUtilFile "src/stores/appStore" [ByName "users"] ["admin"] false;
     CollectionActionModule "src/stores/appStore" (ByName "users");
     CollectionActionModule "src/stores/appStore" (ByName "blogPosts");
     IndexFile "appStore" "src/stores/appStore" ["users"; "blogPosts"] ["users"] false;
     Documentation "appStore" "src/stores/appStore" [ByName "users"; ByName "blogPosts"]
       [ByName "users"] ["admin"] false;
     ConsoleLog "Store appStore generated successfully."].
Proof. reflexivity. Qed.

End StoreWithoutCollections.

(** ** generateRouter: order of the route table *)

Section RouteTable.
Import Js Naming Router.

Lemma fold_push (f : Store.Collection -> list Route) cs acc :
  fold_left (fun acc c => push acc (f c)) cs acc = (acc ++ flat_map f cs)%list.
Proof.
  revert acc. induction cs as [|c r IH]; intros acc; simpl.
  - now rewrite app_nil_r.
  - rewrite IH. unfold push. now rewrite <- app_assoc.
Qed.

Lemma generateRoutes_blocks (a : Answers) :
  generateRoutes a =
    ([if enableLanding a then landingRoute else homeRoute]
     ++ (if enableAuth a && enableAuthViews a then authRoutes else [])
     ++ (if enableAdmin a then adminRoutes (enableRoles a) else [])
     ++ flat_map collectionRoutes (default [] (collections a))
     ++ [catchAllRoute])%list.
Proof.
  unfold generateRoutes, push.
  set (home := if enableLanding a then landingRoute else homeRoute).
  assert (Hhome : (if enableLanding a then [] ++ [landingRoute] else [] ++ [homeRoute])%list
                  = [home]).
  { unfold home. now destruct (enableLanding a). }
  rewrite Hhome. clear Hhome.
  set (auth := if enableAuth a && enableAuthViews a then authRoutes else []).
  assert (Hauth : (if enableAuth a && enableAuthViews a then [home] ++ authRoutes else [home])%list
                   = ([home] ++ auth)%list).
  { unfold auth. now destruct (enableAuth a && enableAuthViews a). }
  rewrite Hauth. clear Hauth.
  set (adm := if enableAdmin a then adminRoutes (enableRoles a) else []).
  assert (Hadm : (if enableAdmin a then ([home] ++ auth) ++ adminRoutes (enableRoles a)
                  else [home] ++ auth)%list = ([home] ++ auth ++ adm)%list).
  { unfold adm. destruct (enableAdmin a); [now rewrite <- app_assoc | now rewrite app_nil_r]. }
  rewrite Hadm. clear Hadm.
  destruct (collections a) as [[|c r]|]; simpl default.
  - simpl flat_map. now rewrite <- !app_assoc.
  - rewrite (fold_push collectionRoutes (c :: r)). now rewrite <- !app_assoc.
  - simpl flat_map. now rewrite <- !app_assoc.
Qed.

Lemma append_nonempty_r (s t : string) : t <> "" -> String.eqb (s ++ t) "" = false.
Proof. destruct s as [|c r]; destruct t; simpl; congruence. Qed.

Lemma below_root_is_not_root (x t : string) :
  t <> "" -> String.eqb ("/" ++ x ++ t) "/" = false.
Proof.
  intros Ht. change ("/" ++ x ++ t) with (String "/" (x ++ t)).
  simpl. now apply append_nonempty_r.
Qed.

Lemma collectionRoutes_not_root c : List.filter isRootPath (collectionRoutes c) = [].
Proof.
  unfold collectionRoutes. cbn [List.filter]. unfold isRootPath. cbn [path].
  rewrite !below_root_is_not_root by discriminate. reflexivity.
Qed.

Lemma collectionRoutes_not_redirect c : List.filter isRedirect (collectionRoutes c) = [].
Proof. reflexivity. Qed.

Lemma filter_flat_map_nil {A B} (p : B -> bool) (f : A -> list B) l :
  (forall x, List.filter p (f x) = []) -> List.filter p (flat_map f l) = [].
Proof.
  intros H. induction l as [|x r IH]; simpl; [reflexivity|].
  now rewrite List.filter_app, H, IH.
Qed.

(** C6: the route table is one home entry (the landing page when the landing
    flag is set, the home view otherwise), then the authentication routes
    when both [enableAuth] and [enableAuthViews] hold, then the admin routes
    when [enableAdmin] holds, then for each collection in schema order its
    create and edit routes at [/<camel>/create] and [/<camel>/edit/:id], then
    the catch-all that redirects to [/]; no other entry has the path [/] and
    no other entry redirects. *)
Theorem route_table_order (a : Answers) :
  generateRoutes a =
    ([if enableLanding a then landingRoute else homeRoute]
     ++ (if enableAuth a && enableAuthViews a then authRoutes else [])
     ++ (if enableAdmin a then adminRoutes (enableRoles a) else [])
     ++ flat_map collectionRoutes (default [] (collections a))
     ++ [catchAllRoute])%list
  /\ (forall c, map path (collectionRoutes c) =
                ["/" ++ toCamelCase (Store.name c) ++ "/create";
                 "/" ++ toCamelCase (Store.name c) ++ "/edit/:id"])
  /\ (forall c, map rname (collectionRoutes c) =
                [Some (toPascalCase (Store.name c) ++ "Create");
                 Some (toPascalCase (Store.name c) ++ "Edit")])
  /\ List.filter isRootPath (generateRoutes a)
       = [if enableLanding a then landingRoute else homeRoute]
  /\ List.filter isRedirect (generateRoutes a) = [catchAllRoute]
  /\ redirect catchAllRoute = Some "/"
  /\ component landingRoute = Some "() => import('@/views/LandingPage.vue')"
  /\ component homeRoute = Some "() => import('@/views/HomeView.vue')".
Proof.
  split; [apply generateRoutes_blocks|].
  split; [reflexivity|]. split; [reflexivity|].
  split; [|split; [|repeat split]].
  - rewrite generateRoutes_blocks, !List.filter_app.
    rewrite (filter_flat_map_nil isRootPath collectionRoutes _ collectionRoutes_not_root).
    destruct (enableLanding a), (enableAuth a && enableAuthViews a), (enableAdmin a);
      reflexivity.
  - rewrite generateRoutes_blocks, !List.filter_app.
    rewrite (filter_flat_map_nil isRedirect collectionRoutes _ collectionRoutes_not_redirect).
    destruct (enableLanding a), (enableAuth a && enableAuthViews a), (enableAdmin a);
      reflexivity.
Qed.

Example routes_products :
  map path (generateRoutes {| enableAuth := true; enableRoles := false; enableAuthViews := false;
                              enableAdmin := true; enableLanding := false;
                              collections := Some [ {| Store.name := "products";
                                                       Store.fields := [("title", "string")];
                                                       Store.dataType := "object" |};
                                                    {| Store.name := "blog posts";
                                                       Store.fields := [];
                                                       Store.dataType := "object" |} ] |})
  = ["/"; "/admin/dashboard"; "/admin/users"; "/products/create"; "/products/edit/:id";
     "/blogPosts/create"; "/blogPosts/edit/:id"; "/:pathMatch(.*)*"].
Proof. reflexivity. Qed.

End RouteTable.

(** ** The email pattern *)

Section EmailPattern.
Import Js Naming Validation.

Lemma append_nil_l (s : string) : "" ++ s = s.
Proof. reflexivity. Qed.

Lemma dotThenMore_spec r :
  dotThenMore r = true <-> exists b c, r = b ++ "." ++ c /\ c <> "".
Proof.
  induction r as [|ch r IH]; simpl.
  - split; [discriminate|]. intros (b & c & H & _). destruct b; discriminate.
  - rewrite orb_true_iff, andb_true_iff, IH. split.
    + intros [[Hdot Hmore]|(b & c & -> & Hc)].
      * apply Ascii.eqb_eq in Hdot. subst ch. apply truthy_nonempty in Hmore.
        exists "", r. split; [reflexivity | assumption].
      * exists (String ch b), c. split; [reflexivity | assumption].
    + intros (b & c & H & Hc). destruct b as [|y b].
      * rewrite append_nil_l in H. change ("." ++ c) with (String "." c) in H.
        injection H as -> ->. left. split; [apply Ascii.eqb_refl | now apply truthy_nonempty].
      * rewrite append_cons in H. injection H as -> ->. right. now exists b, c.
Qed.

Lemma domainShape_spec s :
  domainShape s = true <-> exists b c, s = b ++ "." ++ c /\ b <> "" /\ c <> "".
Proof.
  destruct s as [|y r]; simpl.
  - split; [discriminate|]. intros (b & c & H & _). destruct b; discriminate.
  - rewrite dotThenMore_spec. split.
    + intros (b & c & -> & Hc). exists (String y b), c. repeat split; [discriminate | assumption].
    + intros (b & c & H & Hb & Hc). destruct b as [|z b]; [contradiction|].
      rewrite append_cons in H. injection H as -> ->. now exists b, c.
Qed.

Lemma atThenDomain_spec r :
  atThenDomain r = true <->
  exists a b c, r = a ++ "@" ++ b ++ "." ++ c /\ b <> "" /\ c <> "".
Proof.
  induction r as [|ch r IH]; simpl.
  - split; [discriminate|]. intros (a & b & c & H & _). destruct a; discriminate.
  - rewrite orb_true_iff, andb_true_iff, IH, domainShape_spec. split.
    + intros [[Hat (b & c & -> & Hb & Hc)]|(a & b & c & -> & Hb & Hc)].
      * apply Ascii.eqb_eq in Hat. subst ch. exists "", b, c. repeat split; assumption.
      * exists (String ch a), b, c. repeat split; assumption.
    + intros (a & b & c & H & Hb & Hc). destruct a as [|y a].
      * rewrite append_nil_l in H. change ("@" ++ b ++ "." ++ c) with (String "@" (b ++ "." ++ c)) in H.
        injection H as -> ->. left. split; [apply Ascii.eqb_refl | now exists b, c].
      * rewrite append_cons in H. injection H as -> ->. right. now exists a, b, c.
Qed.

(** The test accepts exactly the strings of the shape the pattern
    describes. *)
Lemma emailPatternTest_spec s : emailPatternTest s = true <-> emailShape s.
Proof.
  unfold emailPatternTest, emailShape. rewrite andb_true_iff. split.
  - intros [Hall Hs]. destruct s as [|x r]; [discriminate|].
    apply atThenDomain_spec in Hs as (a & b & c & -> & Hb & Hc).
    exists (String x a), b, c.
    change (String x (a ++ "@" ++ b ++ "." ++ c))
      with (String x a ++ String "@" (b ++ String "." c)) in Hall.
    rewrite allChars_append in Hall. apply andb_true_iff in Hall as [Ha Hrest].
    simpl in Hrest. rewrite allChars_append in Hrest.
    apply andb_true_iff in Hrest as [Hb' Hc']. simpl in Hc'.
    repeat split; try assumption; discriminate.
  - intros (a & b & c & -> & Ha & Hb & Hc & Haa & Hbb & Hcc). split.
    + change (a ++ "@" ++ b ++ "." ++ c) with (a ++ String "@" (b ++ String "." c)).
      rewrite allChars_append, Haa. simpl. rewrite allChars_append, Hbb. simpl.
      now rewrite Hcc.
    + destruct a as [|x a]; [contradiction|]. rewrite append_cons.
      apply atThenDomain_spec. now exists a, b, c.
Qed.

Example email_accepted : emailPatternTest "ada@example.org" = true.
Proof. reflexivity. Qed.

Example email_without_dot : emailPatternTest "ada@example" = false.
Proof. reflexivity. Qed.

Example email_with_space : emailPatternTest "ada lovelace@example.org" = false.
Proof. reflexivity. Qed.

End EmailPattern.

(** ** The emitted validator: what the generator emits *)

Section ValidatorShape.
Import Js Naming Validation.

Lemma emitField_fold (fields : Store.Fields) (acc : Emitted) :
  fold_left emitField fields acc =
  {| requiredFieldChecks :=
       (requiredFieldChecks acc ++ map (fun fd => RequiredCheck (fst fd)) fields)%list;
     typeChecks := (typeChecks acc ++ flat_map typeStatement fields)%list;
     emailFields := (emailFields acc ++ flat_map emailFieldOf fields)%list |}.
Proof.
  revert acc. induction fields as [|[g t] r IH]; intros acc.
  - simpl. rewrite !app_nil_r. now destruct acc.
  - simpl fold_left. rewrite IH.
    cbn [emitField requiredFieldChecks typeChecks emailFields flat_map map fst snd].
    unfold typeStatement at 2, emailFieldOf at 2.
    cbn [fst snd]. f_equal.
    + now rewrite <- app_assoc.
    + destruct (typeCheckOf g t) as [[tag msg]|]; [now rewrite <- app_assoc | reflexivity].
    + destruct (String.eqb t "email"); [now rewrite <- app_assoc | reflexivity].
Qed.

Lemma generateValidationModule_shape (fields : Store.Fields) :
  generateValidationModule fields =
  (map (fun fd => RequiredCheck (fst fd)) fields
   ++ flat_map typeStatement fields
   ++ emailExistenceChecks (flat_map emailFieldOf fields))%list.
Proof. unfold generateValidationModule. now rewrite emitField_fold. Qed.

Lemma emailField_listed (fields : Store.Fields) f :
  In (f, "email") fields -> In f (flat_map emailFieldOf fields).
Proof.
  intros H. apply in_flat_map. exists (f, "email"). split; [assumption|].
  unfold emailFieldOf. simpl. now left.
Qed.

Lemma existence_check_emitted (fields : Store.Fields) f :
  In (f, "email") fields -> In (EmailExistenceCheck f) (generateValidationModule fields).
Proof.
  intros H. rewrite generateValidationModule_shape.
  apply in_or_app. right. apply in_or_app. right.
  pose proof (emailField_listed fields f H) as Hin.
  unfold emailExistenceChecks.
  destruct (flat_map emailFieldOf fields) as [|e es]; [destruct Hin|].
  right. now apply in_map.
Qed.

End ValidatorShape.

(** ** The emitted validator: what a run reports *)

Section ValidatorRun.
Import Js Naming Validation.

Variable env : Env.
Variable data : Value.

Local Abbreviation d := (jsOr data (VObject [])).

Lemma runCheck_errors r c :
  errors (runCheck env d r c) = (errors r ++ errors (runCheck env d noResult c))%list.
Proof.
  destruct c as [f|f tag msg| |f]; simpl.
  - destruct (isBlank (getProp d f)); simpl; [reflexivity | now rewrite app_nil_r].
  - destruct (emittedTypeCondition env tag (getProp d f));
      simpl; [reflexivity | now rewrite app_nil_r].
  - now rewrite app_nil_r.
  - destruct (getProp d f) as [| | | |s| | |]; simpl; try now rewrite app_nil_r.
    destruct (truthy (trim s) && emailPatternTest s); simpl; [|now rewrite app_nil_r].
    destruct (fetchSignInMethodsForEmail env s) as [err|[|m ms]]; simpl;
      try now rewrite app_nil_r.
    reflexivity.
Qed.

Lemma runCheck_logs r c :
  consoleErrors (runCheck env d r c)
  = (consoleErrors r ++ consoleErrors (runCheck env d noResult c))%list.
Proof.
  destruct c as [f|f tag msg| |f]; simpl.
  - destruct (isBlank (getProp d f)); simpl; now rewrite app_nil_r.
  - destruct (emittedTypeCondition env tag (getProp d f));
      simpl; now rewrite app_nil_r.
  - now rewrite app_nil_r.
  - destruct (getProp d f) as [| | | |s| | |]; simpl; try now rewrite app_nil_r.
    destruct (truthy (trim s) && emailPatternTest s); simpl; [|now rewrite app_nil_r].
    destruct (fetchSignInMethodsForEmail env s) as [err|[|m ms]]; simpl;
      try now rewrite app_nil_r.
    reflexivity.
Qed.

Lemma run_errors (checks : list Check) r :
  errors (fold_left (runCheck env d) checks r)
  = (errors r ++ flat_map (fun c => errors (runCheck env d noResult c)) checks)%list.
Proof.
  revert r. induction checks as [|c cs IH]; intros r; simpl.
  - now rewrite app_nil_r.
  - rewrite IH, runCheck_errors. now rewrite <- app_assoc.
Qed.

Lemma run_logs (checks : list Check) r :
  consoleErrors (fold_left (runCheck env d) checks r)
  = (consoleErrors r
     ++ flat_map (fun c => consoleErrors (runCheck env d noResult c)) checks)%list.
Proof.
  revert r. induction checks as [|c cs IH]; intros r; simpl.
  - now rewrite app_nil_r.
  - rewrite IH, runCheck_logs. now rewrite <- app_assoc.
Qed.

Lemma flat_map_flat_map {A B C} (f : A -> list B) (g : B -> list C) l :
  flat_map g (flat_map f l) = flat_map (fun x => flat_map g (f x)) l.
Proof.
  induction l as [|x r IH]; simpl; [reflexivity|].
  now rewrite flat_map_app, IH.
Qed.

Lemma existence_errors (emails : list string) :
  flat_map (fun c => errors (runCheck env d noResult c)) (emailExistenceChecks emails)
  = flat_map (fun g => errors (runCheck env d noResult (EmailExistenceCheck g))) emails.
Proof.
  destruct emails as [|e es]; [reflexivity|].
  unfold emailExistenceChecks. cbn [flat_map]. rewrite app_nil_l.
  change (flat_map (fun c => errors (runCheck env d noResult c))
            (map EmailExistenceCheck (e :: es))
          = flat_map (fun g => errors (runCheck env d noResult (EmailExistenceCheck g)))
              (e :: es)).
  generalize (e :: es). intros l. induction l as [|x r IH]; simpl; [reflexivity|].
  now rewrite IH.
Qed.

(** The errors of a run, field by field. *)
Lemma validateBody_errors (fields : Store.Fields) :
  errors (validateBody env fields data)
  = (flat_map (fun fd => requiredPart data (fst fd)) fields
     ++ flat_map (fun fd => typePart env data (fst fd) (snd fd)) fields
     ++ flat_map (fun fd => existencePart env data (fst fd) (snd fd)) fields)%list.
Proof.
  unfold validateBody, runValidator.
  rewrite run_errors, generateValidationModule_shape. simpl errors. rewrite app_nil_l.
  rewrite !flat_map_app. f_equal; [|f_equal].
  - induction fields as [|[g t] r IH]; simpl; [reflexivity|].
    rewrite IH. unfold requiredPart. simpl.
    destruct (isBlank (getProp d g)); reflexivity.
  - rewrite flat_map_flat_map. apply flat_map_ext. intros [g t].
    unfold typeStatement, typePart. simpl.
    destruct (typeCheckOf g t) as [[tag msg]|]; simpl; [|reflexivity].
    destruct (emittedTypeCondition env tag (getProp d g)); reflexivity.
  - rewrite existence_errors, flat_map_flat_map. apply flat_map_ext. intros [g t].
    unfold emailFieldOf, existencePart. simpl.
    destruct (String.eqb t "email"); simpl; [now rewrite app_nil_r | reflexivity].
Qed.

End ValidatorRun.

(** ** The emitted validator: the errors of one field *)

Section ValidatorPerField.
Import Js Naming Validation.

Variable env : Env.
Variable data : Value.

Lemma filter_all {A} (p : A -> bool) (l : list A) :
  (forall x, In x l -> p x = true) -> List.filter p l = l.
Proof.
  induction l as [|x r IH]; simpl; intros H; [reflexivity|].
  rewrite (H x (or_introl eq_refl)). f_equal. apply IH. intros y Hy. apply H. now right.
Qed.

Lemma filter_none {A} (p : A -> bool) (l : list A) :
  (forall x, In x l -> p x = false) -> List.filter p l = [].
Proof.
  induction l as [|x r IH]; simpl; intros H; [reflexivity|].
  rewrite (H x (or_introl eq_refl)). apply IH. intros y Hy. apply H. now right.
Qed.

Lemma filter_about (h : string -> string -> list ValidationError) f (fields : Store.Fields) :
  (forall g t e, In e (h g t) -> fieldOf e = g) ->
  List.filter (about f) (flat_map (fun fd => h (fst fd) (snd fd)) fields)
  = flat_map (fun fd => if String.eqb (fst fd) f then h (fst fd) (snd fd) else []) fields.
Proof.
  intros Hh. induction fields as [|[g t] r IH]; simpl; [reflexivity|].
  rewrite List.filter_app, IH. f_equal.
  destruct (String.eqb g f) eqn:Hg.
  - apply filter_all. intros e He. unfold about. now rewrite (Hh g t e He).
  - apply filter_none. intros e He. unfold about. now rewrite (Hh g t e He).
Qed.

Lemma pick_absent (h : string -> string -> list ValidationError) f (fields : Store.Fields) :
  ~ In f (map fst fields) ->
  flat_map (fun fd => if String.eqb (fst fd) f then h (fst fd) (snd fd) else []) fields = [].
Proof.
  induction fields as [|[g t] r IH]; simpl; intros H; [reflexivity|].
  destruct (String.eqb_spec g f) as [->|Hne]; [exfalso; apply H; now left|].
  apply IH. intros Hin. apply H. now right.
Qed.

Lemma pick_field (h : string -> string -> list ValidationError) f ty (fields : Store.Fields) :
  List.NoDup (map fst fields) -> In (f, ty) fields ->
  flat_map (fun fd => if String.eqb (fst fd) f then h (fst fd) (snd fd) else []) fields
  = h f ty.
Proof.
  induction fields as [|[g t] r IH]; simpl; intros Hnd Hin; [destruct Hin|].
  inversion Hnd as [|x l Hnotin Hnd' Heq]; subst.
  destruct Hin as [[= -> ->]|Hin].
  - rewrite String.eqb_refl, (pick_absent h f r Hnotin). apply app_nil_r.
  - destruct (String.eqb_spec g f) as [->|Hne].
    + exfalso. apply Hnotin. apply (in_map fst) in Hin. exact Hin.
    + now apply IH.
Qed.

Lemma requiredPart_field g e : In e (requiredPart data g) -> fieldOf e = g.
Proof.
  unfold requiredPart. destruct (isBlank _); simpl; [|tauto].
  intros [<-|[]]. reflexivity.
Qed.

Lemma typePart_field g t e : In e (typePart env data g t) -> fieldOf e = g.
Proof.
  unfold typePart. destruct (typeCheckOf g t) as [[tag msg]|]; simpl; [|tauto].
  destruct (emittedTypeCondition _ _ _); simpl; [|tauto]. intros [<-|[]]. reflexivity.
Qed.

Lemma existencePart_field g t e : In e (existencePart env data g t) -> fieldOf e = g.
Proof.
  unfold existencePart. destruct (String.eqb t "email"); simpl; [|tauto].
  destruct (getProp _ g) as [| | | |s| | |]; simpl; try tauto.
  destruct (_ && _); simpl; [|tauto].
  destruct (fetchSignInMethodsForEmail env s) as [err|[|m ms]]; simpl; try tauto.
  intros [<-|[]]. reflexivity.
Qed.

(** With unique field names, the errors about a declared field are those
    of its own three checks. *)
Lemma errors_about_field (fields : Store.Fields) f ty :
  List.NoDup (map fst fields) -> In (f, ty) fields ->
  List.filter (about f) (errors (validateBody env fields data))
  = (requiredPart data f ++ typePart env data f ty ++ existencePart env data f ty)%list.
Proof.
  intros Hnd Hin. rewrite validateBody_errors, !List.filter_app.
  rewrite (filter_about (fun g _ => requiredPart data g) f fields
             (fun g _ e => requiredPart_field g e)).
  rewrite (filter_about (typePart env data) f fields typePart_field).
  rewrite (filter_about (existencePart env data) f fields existencePart_field).
  rewrite (pick_field (fun g _ => requiredPart data g) f ty fields Hnd Hin).
  rewrite (pick_field (typePart env data) f ty fields Hnd Hin).
  now rewrite (pick_field (existencePart env data) f ty fields Hnd Hin).
Qed.

Lemma typeCheckOf_tag f g t :
  option_map fst (typeCheckOf f t) = option_map fst (typeCheckOf g t).
Proof.
  unfold typeCheckOf.
  repeat match goal with |- context [String.eqb t ?k] => destruct (String.eqb t k) end;
    reflexivity.
Qed.

Lemma blank_skips_type f ty :
  guardCoversType ty = true ->
  isBlank (getProp (jsOr data (VObject [])) f) = true -> typePart env data f ty = [].
Proof.
  intros Hty Hb. unfold typePart, guardCoversType in *.
  pose proof (typeCheckOf_tag f "" ty) as Htag.
  destruct (typeCheckOf f ty) as [[tag msg]|]; [|reflexivity].
  destruct (typeCheckOf "" ty) as [[tag' msg']|]; [|discriminate].
  simpl in Htag. injection Htag as <-.
  unfold emittedTypeCondition. rewrite Hb.
  destruct tag; try discriminate; reflexivity.
Qed.

Lemma blank_skips_existence f ty :
  isBlank (getProp (jsOr data (VObject [])) f) = true -> existencePart env data f ty = [].
Proof.
  intros Hb. unfold existencePart. destruct (String.eqb ty "email"); [|reflexivity].
  simpl. destruct (getProp _ f) as [| | | |s| | |]; try reflexivity.
  simpl in Hb. apply negb_true_iff in Hb. unfold existenceGuard. now rewrite Hb.
Qed.

Lemma in_use_error_not_blank g (fields : Store.Fields) :
  In (EmailInUse g) (errors (validateBody env fields data)) ->
  isBlank (getProp (jsOr data (VObject [])) g) = false.
Proof.
  rewrite validateBody_errors. intros H.
  apply in_app_or in H as [H|H]; [|apply in_app_or in H as [H|H]];
    apply in_flat_map in H as ([h t] & _ & H); simpl in H.
  - unfold requiredPart in H. destruct (isBlank _); simpl in H; [|tauto].
    destruct H as [H|[]]. discriminate.
  - unfold typePart in H. destruct (typeCheckOf h t) as [[tag m]|]; [|destruct H].
    destruct (emittedTypeCondition _ _ _); simpl in H; [|destruct H].
    destruct H as [H|[]]. discriminate.
  - pose proof (existencePart_field h t _ H) as Hf. simpl in Hf. subst h.
    unfold existencePart in H. destruct (String.eqb t "email"); [|destruct H].
    simpl in H. destruct (getProp _ g) as [| | | |s| | |]; simpl in H; try tauto.
    destruct (truthy (trim s)) eqn:Ht; simpl in H; [|tauto].
    simpl. now rewrite Ht.
Qed.

(** Where the guard covers the whole condition, a blank field is reported
    once, as required. *)
Lemma required_only (fields : Store.Fields) f ty :
  List.NoDup (map fst fields) -> In (f, ty) fields ->
  guardCoversType ty = true ->
  isBlank (getProp (jsOr data (VObject [])) f) = true ->
  List.filter (about f) (errors (validateBody env fields data)) = [Required f].
Proof.
  intros Hnd Hin Hty Hb.
  rewrite (errors_about_field fields f ty Hnd Hin).
  rewrite (blank_skips_type f ty Hty Hb), (blank_skips_existence f ty Hb).
  unfold requiredPart. now rewrite Hb.
Qed.

End ValidatorPerField.

(** ** The emitted validator: required before type, blank arrays, email *)

Section ValidatorClaims.
Import Js Naming Validation.

Lemma productFields_unique : List.NoDup (map fst productFields).
Proof.
  repeat constructor; simpl; intros H;
    repeat (destruct H as [H|H]; [discriminate|]); exact H.
Defined.

Lemma contactFields_unique : List.NoDup (map fst contactFields).
Proof.
  repeat constructor; simpl; intros H;
    repeat (destruct H as [H|H]; [discriminate|]); exact H.
Defined.

(** *** Importing the emitted file *)

Lemma validatorParses_app a b :
  validatorParses (a ++ b) = validatorParses a && validatorParses b.
Proof. apply forallb_app. Qed.

(** A field of a known type gets a type check, and with it the file stops
    being a module. *)
Lemma typed_field_breaks_import (fields : Store.Fields) f t tag msg :
  In (f, t) fields -> typeCheckOf f t = Some (tag, msg) -> importValidator fields = None.
Proof.
  intros Hin Htype. unfold importValidator.
  rewrite generateValidationModule_shape, !validatorParses_app.
  assert (Hbad : validatorParses (flat_map typeStatement fields) = false).
  { unfold validatorParses. apply not_true_is_false. intros Hall.
    rewrite forallb_forall in Hall.
    specialize (Hall (TypeCheck f tag msg)). simpl in Hall.
    assert (Hmem : In (TypeCheck f tag msg) (flat_map typeStatement fields)).
    { apply in_flat_map. exists (f, t). split; [assumption|].
      unfold typeStatement. simpl. rewrite Htype. now left. }
    specialize (Hall Hmem). discriminate. }
  rewrite Hbad, andb_false_r. reflexivity.
Qed.

Lemma array_field_breaks_import (fields : Store.Fields) f :
  In (f, "array") fields -> importValidator fields = None.
Proof.
  intros H.
  exact (typed_field_breaks_import fields f "array" TArray _ H eq_refl).
Qed.

Lemma email_field_breaks_import (fields : Store.Fields) f :
  In (f, "email") fields -> importValidator fields = None.
Proof.
  intros H.
  exact (typed_field_breaks_import fields f "email" TEmail _ H eq_refl).
Qed.

(** With fields of unknown types only, the file is a module. *)
Example untyped_fields_import :
  option_map (fun v => errors (v quietEnv (VObject [("note", VString " ")])))
             (importValidator [("note", "text"); ("ref", "uuid")])
  = Some [Required "note"; Required "ref"].
Proof. reflexivity. Qed.

(** *** Required before type *)

(** C4, at the input [{}] for a collection with the one field
    [price: number]: the emitted file does not parse, because the message
    of the type check is spliced into [errors.push(...)] without quotation
    marks; and with the message quoted the validator still reports the
    absent field twice, as required and as not a number, because the guard
    that should keep the type check away from absent fields is joined by
    [&&] to a condition spliced in bare,
    [typeof data.price !== 'number' || isNaN(data.price)], so that
    [isNaN(undefined)] decides on its own.  An absent email field, a [null]
    object field and a blank timestamp are reported twice in the same
    way. *)
Theorem absent_number_reported_twice :
  importValidator [("price", "number")] = None
  /\ renderTypeCheck "price" TNumber "'price' must be a number."
     = "  if (data.price !== undefined && data.price !== null && String(data.price).trim() !== '' && typeof data.price !== 'number' || isNaN(data.price)) {"
       ++ String (ascii_of_nat 10)
            ("    errors.push('price' must be a number.);" ++ String (ascii_of_nat 10) "  }")
  /\ isBlank (getProp (jsOr (VObject []) (VObject [])) "price") = true
  /\ errors (validateBody quietEnv [("price", "number")] (VObject []))
     = [Required "price"; TypeMismatch "price" "'price' must be a number."]
  /\ bodyMessages quietEnv [("price", "number")] (VObject [])
     = ["price is required."; "'price' must be a number."]
  /\ bodyMessages quietEnv [("mail", "email")] (VObject [])
     = ["mail is required."; "'mail' must be a valid email format."]
  /\ bodyMessages quietEnv [("meta", "object")] (VObject [("meta", VNull)])
     = ["meta is required."; "'meta' must be an object."]
  /\ bodyMessages quietEnv [("at", "timestamp")] (VObject [("at", VString " ")])
     = ["at is required."; "'at' must be a valid date or timestamp string."].
Proof. repeat split; reflexivity. Qed.

Lemma required_only_witness :
  List.filter (about "title") (errors (validateBody quietEnv productFields productInput))
  = [Required "title"].
Proof.
  exact (required_only quietEnv productInput productFields "title" "string"
           productFields_unique (or_introl eq_refl) eq_refl eq_refl).
Defined.

(** Scenario A of the specification, on the body of the validator. *)
Example products_two_errors :
  bodyMessages quietEnv productFields productInput
  = ["title is required."; "'price' must be a number."].
Proof. reflexivity. Qed.

Example absent_input :
  bodyMessages quietEnv productFields VUndefined
  = ["title is required."; "price is required."; "inStock is required.";
     "'price' must be a number."].
Proof. reflexivity. Qed.

Example products_do_not_import : importValidator productFields = None.
Proof. reflexivity. Qed.

(** *** Empty arrays *)

(** In the body of the validator, a field whose value is the empty array is
    reported as required: [String([])] is the empty string, although the
    value passes the array type test. *)
Lemma empty_array_required_in_body
    (env : Env) (fields : Store.Fields) (data : Value) (f : string) :
  In (f, "array") fields ->
  getProp (jsOr data (VObject [])) f = VArray [] ->
  In (Required f) (errors (validateBody env fields data))
  /\ In (f ++ " is required.") (bodyMessages env fields data)
  /\ toString (VArray []) = ""
  /\ emittedTypeCondition env TArray (VArray []) = false.
Proof.
  intros Hin Hv.
  assert (Hreq : In (Required f) (errors (validateBody env fields data))).
  { rewrite validateBody_errors. apply in_or_app. left.
    apply in_flat_map. exists (f, "array"). split; [assumption|].
    unfold requiredPart. simpl. rewrite Hv. simpl. now left. }
  split; [assumption|]. split; [|split; reflexivity].
  unfold bodyMessages. apply (in_map message) in Hreq. exact Hreq.
Qed.

Example nonempty_array_accepted :
  bodyMessages quietEnv [("tags", "array")] (VObject [("tags", VArray [VString "a"])]) = [].
Proof. reflexivity. Qed.

(** C9, at the collection with the one field [tags: array] and the input
    [{ tags: [] }]: the emitted file holds the type check of [tags], whose
    [errors.push('tags' must be an array.);] is not JavaScript, so importing
    it fails and nothing is reported; the required check in the body of the
    function would report the empty array as required. *)
Theorem array_validator_does_not_parse :
  importValidator [("tags", "array")] = None
  /\ renderTypeCheck "tags" TArray "'tags' must be an array."
     = "  if (data.tags !== undefined && data.tags !== null && String(data.tags).trim() !== '' && !Array.isArray(data.tags)) {"
       ++ String (ascii_of_nat 10)
            ("    errors.push('tags' must be an array.);" ++ String (ascii_of_nat 10) "  }")
  /\ (forall fields f, In (f, "array") fields -> importValidator fields = None)
  /\ bodyMessages quietEnv [("tags", "array")] (VObject [("tags", VArray [])])
     = ["tags is required."].
Proof.
  split; [reflexivity|]. split; [reflexivity|]. split; [|reflexivity].
  intros fields f. apply array_field_breaks_import.
Qed.

(** *** The email existence check *)

Lemma emailPattern_guard s : emailPatternTest s = true -> existenceGuard (VString s) = true.
Proof.
  intros H. unfold existenceGuard. rewrite H, andb_true_r.
  unfold emailPatternTest in H. apply andb_true_iff in H as [Hall Hs].
  rewrite (trim_no_whitespace s Hall). destruct s; [discriminate | reflexivity].
Qed.

(** In the body of the validator, for a field of type email whose value
    passes the format check: the existence check is there, and when the
    existence service fails for the value no error about the field is
    reported; the failure goes to the console only. *)
Lemma email_failure_swallowed_in_body
    (env : Env) (fields : Store.Fields) (data : Value) (f s err : string) :
  List.NoDup (map fst fields) ->
  In (f, "email") fields ->
  getProp (jsOr data (VObject [])) f = VString s ->
  emailPatternTest s = true ->
  fetchSignInMethodsForEmail env s = inl err ->
  In (EmailExistenceCheck f) (generateValidationModule fields)
  /\ List.filter (about f) (errors (validateBody env fields data)) = []
  /\ In {| logField := f; logError := err |} (consoleErrors (validateBody env fields data)).
Proof.
  intros Hnd Hin Hv Hpat Hfail.
  pose proof (emailPattern_guard s Hpat) as Hguard.
  assert (Hnb : isBlank (VString s) = false).
  { simpl. unfold existenceGuard in Hguard.
    apply andb_true_iff in Hguard as [Ht _]. now rewrite Ht. }
  split; [now apply existence_check_emitted|]. split.
  - rewrite (errors_about_field env data fields f "email" Hnd Hin).
    unfold requiredPart, typePart, existencePart. rewrite Hv, Hnb.
    simpl. unfold emittedTypeCondition. simpl. rewrite Hpat, Hv. simpl.
    rewrite andb_false_r. simpl.
    unfold existenceGuard in Hguard. rewrite Hguard, Hfail. reflexivity.
  - unfold validateBody, runValidator. rewrite run_logs. simpl consoleErrors.
    apply in_flat_map. exists (EmailExistenceCheck f).
    split; [now apply existence_check_emitted|].
    simpl. rewrite Hv. unfold existenceGuard in Hguard. rewrite Hguard, Hfail.
    simpl. now left.
Qed.

Example contact_valid_when_unreachable :
  validateBody unreachableEnv contactFields contactInput
  = {| errors := [];
       consoleErrors := [ {| logField := "email";
                             logError := "auth/network-request-failed" |} ] |}.
Proof. reflexivity. Qed.

Example contact_in_use :
  bodyMessages
    {| parseDate := fun _ => None; fetchSignInMethodsForEmail := fun _ => inr ["password"] |}
    contactFields contactInput
  = ["The email address 'email' is already in use."].
Proof. reflexivity. Qed.

Example contact_bad_format :
  bodyMessages unreachableEnv contactFields
    (VObject [("name", VString "Ada"); ("email", VString "ada@example")])
  = ["'email' must be a valid email format."].
Proof. reflexivity. Qed.

(** C7, at the collection [{ name: string, email: email }] and the input
    [{ name: "Ada", email: "ada@example.org" }] with the existence service
    unreachable: the emitted file holds the type checks of both fields,
    whose [errors.push('email' must be a valid email format.);] is not
    JavaScript, so importing it fails and no validation result is returned;
    the body of the function would return no error and log the failure. *)
Theorem email_validator_does_not_parse :
  importValidator contactFields = None
  /\ renderTypeCheck "email" TEmail "'email' must be a valid email format."
     = "  if (data.email !== undefined && data.email !== null && String(data.email).trim() !== '' && typeof data.email !== 'string' || !/^\S+@\S+\.\S+$/.test(data.email)) {"
       ++ String (ascii_of_nat 10)
            ("    errors.push('email' must be a valid email format.);"
             ++ String (ascii_of_nat 10) "  }")
  /\ (forall fields f, In (f, "email") fields -> importValidator fields = None)
  /\ In (EmailExistenceCheck "email") (generateValidationModule contactFields)
  /\ validateBody unreachableEnv contactFields contactInput
     = {| errors := [];
          consoleErrors := [ {| logField := "email";
                                logError := "auth/network-request-failed" |} ] |}.
Proof.
  split; [reflexivity|]. split; [reflexivity|]. split; [|split; [|reflexivity]].
  - intros fields f. apply email_field_breaks_import.
  - now apply existence_check_emitted; right; left.
Qed.

End ValidatorClaims.

(** ** Collection actions: [get] *)

Section GetById.
Import Js Firestore.

Lemma advanced_get_missing (logging : bool) (id : string) (w : World Advanced.Filters) :
  outage (db w) = None -> docs (db w) !! id = None ->
  fst (Advanced.get logging id w) = Returned None
  /\ st (snd (Advanced.get logging id w)) = st w
  /\ docs (db (snd (Advanced.get logging id w))) = docs (db w).
Proof.
  intros Hup Hmiss.
  unfold Advanced.get, Advanced.recordingAndLogging, bind, getDoc, Advanced._logActivity, ret.
  rewrite Hup, Hmiss. destruct logging; simpl; rewrite ?Hup; simpl; auto.
Qed.

Lemma advanced_get_found (logging : bool) (id : string) (w : World Advanced.Filters) data :
  outage (db w) = None -> docs (db w) !! id = Some data ->
  fst (Advanced.get logging id w) = Returned (Some {| snapId := id; snapData := data |}).
Proof.
  intros Hup Hfound.
  unfold Advanced.get, Advanced.recordingAndLogging, bind, getDoc, Advanced._logActivity, ret.
  rewrite Hup, Hfound. destruct logging; simpl; rewrite ?Hup; reflexivity.
Qed.

Lemma advanced_get_outage (logging : bool) (id : string) (w : World Advanced.Filters) e :
  outage (db w) = Some e ->
  fst (Advanced.get logging id w) = Thrown e
  /\ error (st (snd (Advanced.get logging id w))) = Some e.
Proof.
  intros Hdown.
  unfold Advanced.get, Advanced.recordingAndLogging, bind, getDoc, Advanced._logActivity.
  rewrite Hdown. destruct logging; simpl; rewrite ?Hdown; simpl; auto.
Qed.

Lemma basic_get_missing (id : string) (w : World Basic.Filters) :
  outage (db w) = None -> docs (db w) !! id = None ->
  fst (Basic.get id w) = Thrown "Document with ID  not found"
  /\ error (st (snd (Basic.get id w))) = Some "Document with ID  not found".
Proof.
  intros Hup Hmiss. unfold Basic.get, recordingError, bind, getDoc, throw.
  rewrite Hup, Hmiss. simpl. auto.
Qed.

Lemma basic_get_found (id : string) (w : World Basic.Filters) data :
  outage (db w) = None -> docs (db w) !! id = Some data ->
  fst (Basic.get id w) = Returned {| snapId := id; snapData := data |}.
Proof.
  intros Hup Hfound. unfold Basic.get, recordingError, bind, getDoc, ret.
  now rewrite Hup, Hfound.
Qed.

(** The second generation's file parses only without roles and without
    activity logging, and the object it then returns has no role actions. *)
Lemma advanced_actions_inv roles auth logging collectionName actions :
  Advanced.useFirestoreCollectionActions roles auth logging collectionName = Some actions ->
  roles = [] /\ logging = false
  /\ Advanced.actGet actions = Advanced.get false
  /\ Advanced.actFetchInitialPage actions = Advanced.fetchInitialPage false
  /\ Advanced.actFetchNextPage actions = Advanced.fetchNextPage false
  /\ Advanced.actAssignRoles actions = None
  /\ Advanced.actRevokeRoles actions = None.
Proof.
  unfold Advanced.useFirestoreCollectionActions, Advanced.moduleParses.
  destruct roles as [|r rs]; [|discriminate].
  destruct logging; [discriminate|]. simpl. intros [= <-]. simpl. auto 10.
Qed.

(** C1 (as the code has it): the [get] of the second generation, in the
    module emitted without roles and activity logging, returns [null] for an
    id without a record and leaves the state as it was, while an error of
    the store is thrown on and kept in the last-error slot; the [get] of the
    first generation, in every module it emits, with roles or without,
    throws "Document with ID  not found" for an id without a record and
    keeps that message in the last-error slot. *)
Theorem get_of_missing_document :
  (forall (roles : list string) (auth : list Store.CollArg) (logging : bool)
          (collectionName id : string) (actions : Advanced.Actions)
          (w : World Advanced.Filters),
      Advanced.useFirestoreCollectionActions roles auth logging collectionName
        = Some actions ->
      docs (db w) !! id = None ->
      (outage (db w) = None ->
         fst (Advanced.actGet actions id w) = Returned None
         /\ st (snd (Advanced.actGet actions id w)) = st w)
      /\ (forall e, outage (db w) = Some e ->
            fst (Advanced.actGet actions id w) = Thrown e
            /\ error (st (snd (Advanced.actGet actions id w))) = Some e))
  /\ (forall (roles : list string) (auth : list Store.CollArg)
             (collectionName id : string) (w1 : World Basic.Filters),
        outage (db w1) = None ->
        docs (db w1) !! id = None ->
        fst (Basic.actGet (Basic.useFirestoreCollectionActions roles auth collectionName)
               id w1) = Thrown "Document with ID  not found"
        /\ error (st (snd (Basic.actGet
                              (Basic.useFirestoreCollectionActions roles auth collectionName)
                              id w1)))
           = Some "Document with ID  not found").
Proof.
  split.
  - intros roles auth logging collectionName id actions w Hact Hmiss.
    destruct (advanced_actions_inv _ _ _ _ _ Hact) as (_ & _ & -> & _).
    split.
    + intros Hup. destruct (advanced_get_missing false id w Hup Hmiss) as (H1 & H2 & _).
      now split.
    + intros e He. now apply advanced_get_outage.
  - intros roles auth collectionName id w1 Hup Hmiss. now apply basic_get_missing.
Qed.

Lemma get_of_missing_document_witness :
  (fst (Advanced.get false "u1" (freshWorld [] None emptyDb)) = Returned None
   /\ st (snd (Advanced.get false "u1" (freshWorld [] None emptyDb))) = freshState [] None)
  /\ (fst (Advanced.get false "u1" (freshWorld [] None downDb)) = Thrown "unavailable"
      /\ error (st (snd (Advanced.get false "u1" (freshWorld [] None downDb))))
         = Some "unavailable")
  /\ (fst (Basic.actGet
             (Basic.useFirestoreCollectionActions ["admin"; "user"] [Store.ByName "users"]
                "users")
             "u1" (freshWorld [] None emptyDb))
        = Thrown "Document with ID  not found"
      /\ error (st (snd (Basic.actGet
                           (Basic.useFirestoreCollectionActions ["admin"; "user"]
                              [Store.ByName "users"] "users")
                           "u1" (freshWorld [] None emptyDb))))
         = Some "Document with ID  not found").
Proof.
  exact (conj
           (proj1 (proj1 get_of_missing_document [] [Store.ByName "users"] false "users"
                         "u1" plainActions (freshWorld [] None emptyDb)
                         eq_refl (lookup_empty _))
                  eq_refl)
           (conj
              (proj2 (proj1 get_of_missing_document [] [Store.ByName "users"] false "users"
                            "u1" plainActions (freshWorld [] None downDb)
                            eq_refl (lookup_empty _))
                     "unavailable" eq_refl)
              (proj2 get_of_missing_document ["admin"; "user"] [Store.ByName "users"]
                     "users" "u1" (freshWorld [] None emptyDb) eq_refl (lookup_empty _)))).
Defined.

(** C1, as stated, fails: the first generation's [get] throws for an id
    without a record. *)
Lemma basic_get_throws_on_missing :
  fst (Basic.actGet (Basic.useFirestoreCollectionActions [] [] "products") "p1"
         (freshWorld [] None emptyDb))
    = Thrown "Document with ID  not found"
  /\ error (st (snd (Basic.actGet (Basic.useFirestoreCollectionActions [] [] "products") "p1"
                       (freshWorld [] None emptyDb))))
     = Some "Document with ID  not found".
Proof. exact (basic_get_missing "p1" (freshWorld [] None emptyDb) eq_refl (lookup_empty _)). Qed.

End GetById.

(** ** Collection actions: [assignRoles] and [revokeRoles] *)

Section RoleActions.
Import Js Firestore.

Lemma includes_In (l : list string) (s : string) : includes l s = true <-> In s l.
Proof.
  unfold includes. rewrite existsb_exists. split.
  - intros (x & Hin & Heq). apply String.eqb_eq in Heq. now subst.
  - intros Hin. exists s. split; [assumption | apply String.eqb_refl].
Qed.

Lemma includes_not_In (l : list string) (s : string) : includes l s = false <-> ~ In s l.
Proof.
  rewrite <- includes_In. destruct (includes l s); split; congruence.
Qed.

Lemma setInsert_In (l acc : list string) (r : string) :
  In r (fold_left (fun acc x => if includes acc x then acc else (acc ++ [x])%list) l acc)
  <-> In r acc \/ In r l.
Proof.
  revert acc. induction l as [|x l IH]; intros acc; simpl.
  - tauto.
  - rewrite IH. destruct (includes acc x) eqn:Hx.
    + apply includes_In in Hx. split; [tauto|]. intros [H|[<-|H]]; tauto.
    + rewrite in_app_iff. simpl. tauto.
Qed.

Lemma setInsert_NoDup (l acc : list string) :
  List.NoDup acc ->
  List.NoDup (fold_left (fun acc x => if includes acc x then acc else (acc ++ [x])%list) l acc).
Proof.
  revert acc. induction l as [|x l IH]; intros acc Hacc; simpl; [assumption|].
  apply IH. destruct (includes acc x) eqn:Hx; [assumption|].
  apply includes_not_In in Hx.
  apply List.NoDup_app; [assumption | repeat constructor; intros [] |].
  intros y Hy [<-|[]]. contradiction.
Qed.

(** [Array.from(new Set(l))] is [l] as a set, without repetition. *)
Lemma arrayFromSet_In (l : list string) (r : string) : In r (arrayFromSet l) <-> In r l.
Proof. unfold arrayFromSet. rewrite setInsert_In. simpl. tauto. Qed.

Lemma arrayFromSet_NoDup (l : list string) : List.NoDup (arrayFromSet l).
Proof. apply setInsert_NoDup. constructor. Qed.


(** [_checkRole] reads the state and changes nothing. *)
Lemma advanced_checkRole_pure role (w : World Advanced.Filters) :
  snd (Advanced._checkRole role w) = w.
Proof.
  unfold Advanced._checkRole, bind, getUser, throw, ret.
  destruct (currentUser (st w)) as [u|]; [|reflexivity].
  destruct (uid u) as [[|c s]|]; try reflexivity.
  destruct (userRoles u) as [rs|]; [|reflexivity].
  now destruct (includes rs role).
Qed.




(** Unfolding a method whose role check passed or failed. *)
Lemma advanced_checked {A} (k : M Advanced.Filters A) (w : World Advanced.Filters) :
  (Advanced._checkRole "admin" ;;; k) w =
  match fst (Advanced._checkRole "admin" w) with
  | Returned _ => k w
  | Thrown e => (Thrown e, w)
  end.
Proof.
  unfold bind at 1. pose proof (advanced_checkRole_pure "admin" w) as Hp.
  destruct (Advanced._checkRole "admin" w) as [[[]|e] w']; simpl in *; now subst.
Qed.


Lemma advanced_assign_admin logging userId given data (w : World Advanced.Filters) :
  outage (db w) = None -> docs (db w) !! userId = Some data ->
  fst (Advanced._checkRole "admin" w) = Returned tt ->
  fst (Advanced.assignRoles logging userId given w) = Returned tt
  /\ rolesOf userId (snd (Advanced.assignRoles logging userId given w))
     = Some (Some (arrayFromSet (default [] (roles data) ++ given)%list)).
Proof.
  intros Hup Hdoc Hadmin. unfold Advanced.assignRoles, Advanced.recordingAndLogging.
  rewrite advanced_checked, Hadmin.
  unfold bind, getDoc, updateRoles, Advanced._logActivity, rolesOf.
  rewrite Hup, Hdoc. simpl. rewrite Hup, Hdoc.
  destruct logging; simpl; rewrite ?Hup; simpl; rewrite lookup_insert_eq; auto.
Qed.








Lemma includesName_configs (cs : list Store.Collection) n :
  includesName (map Store.ByConfig cs) n = false.
Proof.
  unfold includesName. induction cs as [|c r IH]; simpl; [reflexivity | exact IH].
Qed.

End RoleActions.

Section RoleActionsClaim.
Import Js Firestore.




(** The body of the second generation's [assignRoles] writes the union of
    the existing and the given roles, each once; the object the second
    generation returns never holds it, since a file emitted with roles
    configured does not parse. *)
Lemma advanced_assignRoles_body
    (logging : bool) (userId : string) (given : list string) (data : DocData)
    (w : World Advanced.Filters) :
  outage (db w) = None -> docs (db w) !! userId = Some data ->
  fst (Advanced._checkRole "admin" w) = Returned tt ->
  rolesOf userId (snd (Advanced.assignRoles logging userId given w))
    = Some (Some (arrayFromSet (default [] (Firestore.roles data) ++ given)%list))
  /\ (forall r, In r (arrayFromSet (default [] (Firestore.roles data) ++ given)%list)
                <-> In r (default [] (Firestore.roles data)) \/ In r given)
  /\ List.NoDup (arrayFromSet (default [] (Firestore.roles data) ++ given)%list).
Proof.
  intros Hup Hdoc Hadmin. split; [|split].
  - now destruct (advanced_assign_admin logging userId given data w Hup Hdoc Hadmin).
  - intros r. rewrite arrayFromSet_In. apply in_app_iff.
  - apply arrayFromSet_NoDup.
Qed.

Lemma advanced_role_actions_absent roles auth logging collectionName actions :
  Advanced.useFirestoreCollectionActions roles auth logging collectionName = Some actions ->
  Advanced.actAssignRoles actions = None /\ Advanced.actRevokeRoles actions = None.
Proof.
  intros H. destruct (advanced_actions_inv _ _ _ _ _ H) as (_ & _ & _ & _ & _ & Ha & Hr).
  now split.
Qed.

Lemma advanced_with_roles_does_not_parse r rs auth logging collectionName :
  Advanced.useFirestoreCollectionActions (r :: rs) auth logging collectionName = None.
Proof. reflexivity. Qed.

End RoleActionsClaim.

(** ** Collection actions: pagination *)

Section Pagination.
Import Js Firestore.

Lemma selectionOnly_app a b : selectionOnly a -> selectionOnly b -> selectionOnly (a ++ b).
Proof. unfold selectionOnly. intros Ha Hb. apply List.Forall_app. now split. Qed.

Lemma limitOf_selection sel rest : selectionOnly sel -> limitOf (sel ++ rest) = limitOf rest.
Proof.
  induction 1 as [|c r Hc _ IH]; simpl; [reflexivity|].
  destruct c; simpl in Hc; try discriminate; exact IH.
Qed.

Lemma cursorOf_selection sel rest : selectionOnly sel -> cursorOf (sel ++ rest) = cursorOf rest.
Proof.
  induction 1 as [|c r Hc _ IH]; simpl; [reflexivity|].
  destruct c; simpl in Hc; try discriminate; exact IH.
Qed.

Lemma filter_selection sel rest :
  selectionOnly sel ->
  List.filter isSelection (sel ++ rest) = (sel ++ List.filter isSelection rest)%list.
Proof.
  induction 1 as [|c r Hc _ IH]; simpl; [reflexivity|].
  now rewrite Hc, IH.
Qed.

(** A first page: the selection cut at the limit. *)
Lemma queryRows_first d sel n :
  selectionOnly sel -> queryRows d (sel ++ [Limit n]) = firstn n (scan d sel).
Proof.
  intros Hsel. unfold queryRows.
  rewrite (filter_selection sel _ Hsel), (cursorOf_selection sel _ Hsel),
    (limitOf_selection sel _ Hsel). simpl. now rewrite app_nil_r.
Qed.

(** A next page: the selection after the cursor, cut at the limit. *)
Lemma queryRows_next d sel cursor n :
  selectionOnly sel ->
  queryRows d (sel ++ [StartAfter cursor; Limit n])
  = firstn n (afterCursor (snapId cursor) (scan d sel)).
Proof.
  intros Hsel. unfold queryRows.
  rewrite (filter_selection sel _ Hsel), (cursorOf_selection sel _ Hsel),
    (limitOf_selection sel _ Hsel). simpl. now rewrite app_nil_r.
Qed.

Lemma getDocs_answered {F} (cs : list Constraint) sel n (w : World F) :
  cs = (sel ++ [Limit (S n)])%list \/ (exists c, cs = (sel ++ [StartAfter c; Limit (S n)])%list) ->
  selectionOnly sel -> outage (db w) = None ->
  getDocs cs w = (Returned (queryRows (db w) cs), w).
Proof.
  intros Hcs Hsel Hup. unfold getDocs.
  assert (Hl : limitOf cs = Some (S n)).
  { destruct Hcs as [->|[c ->]]; now rewrite (limitOf_selection sel _ Hsel). }
  now rewrite Hl, Hup.
Qed.

Lemma afterCursor_absent id rows :
  ~ In id (map snapId rows) -> afterCursor id rows = [].
Proof.
  induction rows as [|r rs IH]; simpl; [reflexivity|].
  intros H. destruct (String.eqb_spec (snapId r) id) as [Heq|Hne].
  - exfalso. apply H. now left.
  - apply IH. intros Hin. apply H. now right.
Qed.

(** Nothing comes after the last document of a selection. *)
Lemma afterCursor_last rows cursor :
  List.NoDup (map snapId rows) -> lastDoc rows = Some cursor ->
  afterCursor (snapId cursor) rows = [].
Proof.
  unfold lastDoc. induction rows as [|r rs IH]; simpl; [discriminate|].
  intros Hnd Hlast. inversion Hnd as [|x l Hnotin Hnd' Heq]; subst.
  destruct rs as [|r' rs'].
  - simpl in Hlast. injection Hlast as <-. now rewrite String.eqb_refl.
  - assert (Hl : last (r' :: rs') = Some cursor) by exact Hlast.
    destruct (String.eqb_spec (snapId r) (snapId cursor)) as [Heq|Hne].
    + exfalso. apply Hnotin. rewrite Heq.
      apply in_map. apply list_elem_of_In. now apply last_Some_elem_of.
    + now apply IH.
Qed.

Lemma basic_filterConstraints_selection filters :
  selectionOnly (Basic.filterConstraints filters).
Proof.
  unfold Basic.filterConstraints, selectionOnly.
  induction filters as [|[f v] r IH]; simpl; [constructor|].
  destruct (Basic.emptyFilterValue v); simpl; [exact IH | now constructor].
Qed.

Lemma basic_sortConstraints_selection sortConfig :
  selectionOnly (Basic.sortConstraints sortConfig).
Proof.
  unfold Basic.sortConstraints, selectionOnly.
  destruct sortConfig as [c|]; [|constructor].
  destruct (truthy (sortField c)); repeat constructor.
Qed.

Lemma advanced_filterConstraints_selection filters wheres :
  Advanced.filterConstraints filters = inr wheres -> selectionOnly wheres.
Proof.
  revert wheres. induction filters as [|f r IH]; simpl; intros wheres H.
  - injection H as <-. constructor.
  - destruct (Advanced.buildWhereClause f) as [e|cs] eqn:Hf; [discriminate|].
    destruct (Advanced.filterConstraints r) as [e|rest]; [discriminate|].
    injection H as <-. apply selectionOnly_app; [|now apply IH].
    unfold Advanced.buildWhereClause in Hf.
    destruct (Advanced.emptyFilterValue _); [injection Hf as <-; constructor|].
    destruct (includes _ _).
    { injection Hf as <-. repeat constructor. }
    destruct (includes _ _); [|discriminate].
    destruct (Validation.isArray _); [|discriminate].
    injection Hf as <-. repeat constructor.
Qed.

Lemma advanced_sortConstraints_selection sortConfig :
  selectionOnly (Advanced.sortConstraints sortConfig).
Proof.
  unfold Advanced.sortConstraints, selectionOnly.
  destruct sortConfig as [c|]; [|constructor].
  destruct (truthy (sortField c)); repeat constructor.
Qed.

End Pagination.

Section PaginationRuns.
Import Js Firestore.

Lemma basic_initial_constraints options (v : View Basic.Filters) :
  Basic.initialConstraints options v =
  ((Basic.filterConstraints (default (filters v) (Basic.optFilters options))
    ++ Basic.sortConstraints (match Basic.optOrderBy options with
                              | Some c => Some c
                              | None => orderBy v
                              end))
   ++ [Limit (Basic.requestedPageSize options v)])%list.
Proof. unfold Basic.initialConstraints. now rewrite app_assoc. Qed.

Lemma basic_fetchInitialPage_run options (w : World Basic.Filters) :
  outage (db w) = None ->
  Basic.requestedPageSize options (view (st w)) <> 0 ->
  fst (Basic.fetchInitialPage options w) = Returned tt
  /\ items (view (st (snd (Basic.fetchInitialPage options w))))
     = queryRows (db w) (Basic.initialConstraints options (view (st w)))
  /\ hasMore (view (st (snd (Basic.fetchInitialPage options w))))
     = Nat.eqb (length (queryRows (db w) (Basic.initialConstraints options (view (st w)))))
               (Basic.requestedPageSize options (view (st w)))
  /\ lastVisible (view (st (snd (Basic.fetchInitialPage options w))))
     = lastDoc (queryRows (db w) (Basic.initialConstraints options (view (st w))))
  /\ filters (view (st (snd (Basic.fetchInitialPage options w))))
     = default (filters (view (st w))) (Basic.optFilters options)
  /\ orderBy (view (st (snd (Basic.fetchInitialPage options w))))
     = match Basic.optOrderBy options with Some c => Some c | None => orderBy (view (st w)) end
  /\ pageSize (view (st (snd (Basic.fetchInitialPage options w))))
     = Basic.requestedPageSize options (view (st w))
  /\ db (snd (Basic.fetchInitialPage options w)) = db w.
Proof.
  intros Hup Hsize.
  destruct (Basic.requestedPageSize options (view (st w))) as [|n] eqn:Hp; [congruence|].
  assert (Hq : getDocs (Basic.initialConstraints options (view (st w))) (loadingWorld w)
               = (Returned (queryRows (db w) (Basic.initialConstraints options (view (st w)))),
                  loadingWorld w)).
  { apply (getDocs_answered _
             (Basic.filterConstraints (default (filters (view (st w))) (Basic.optFilters options))
              ++ Basic.sortConstraints (match Basic.optOrderBy options with
                                        | Some c => Some c
                                        | None => orderBy (view (st w))
                                        end))%list n (loadingWorld w)).
    - left. now rewrite basic_initial_constraints, Hp.
    - apply selectionOnly_app;
        [apply basic_filterConstraints_selection | apply basic_sortConstraints_selection].
    - exact Hup. }
  unfold loadingWorld, setLoading in Hq. simpl in Hq.
  unfold Basic.fetchInitialPage, finallyNotLoading, recordingError,
    bind, getView, setView, getCountFromServer, setLoading.
  simpl. rewrite Hq. simpl. rewrite Hup, Hp. simpl.
  destruct (Basic.optOrderBy options); [|destruct (orderBy (view (st w)))];
    repeat split; reflexivity.
Qed.

Lemma basic_next_constraints (v : View Basic.Filters) cursor :
  Basic.nextConstraints v cursor =
  ((Basic.filterConstraints (filters v) ++ Basic.sortConstraints (orderBy v))
   ++ [StartAfter cursor; Limit (pageSize v)])%list.
Proof. unfold Basic.nextConstraints. now rewrite app_assoc. Qed.

Lemma basic_fetchNextPage_run cursor (w : World Basic.Filters) :
  outage (db w) = None ->
  lastVisible (view (st w)) = Some cursor ->
  hasMore (view (st w)) = true ->
  pageSize (view (st w)) <> 0 ->
  fst (Basic.fetchNextPage w) = Returned tt
  /\ items (view (st (snd (Basic.fetchNextPage w))))
     = (items (view (st w))
        ++ queryRows (db w) (Basic.nextConstraints (view (st w)) cursor))%list
  /\ hasMore (view (st (snd (Basic.fetchNextPage w))))
     = Nat.eqb (length (queryRows (db w) (Basic.nextConstraints (view (st w)) cursor)))
               (pageSize (view (st w))).
Proof.
  intros Hup Hcursor Hmore Hsize.
  destruct (pageSize (view (st w))) as [|n] eqn:Hp; [congruence|].
  assert (Hq : getDocs (Basic.nextConstraints (view (st w)) cursor) (loadingWorld w)
               = (Returned (queryRows (db w) (Basic.nextConstraints (view (st w)) cursor)),
                  loadingWorld w)).
  { apply (getDocs_answered _
             (Basic.filterConstraints (filters (view (st w)))
              ++ Basic.sortConstraints (orderBy (view (st w))))%list n (loadingWorld w)).
    - right. exists cursor. now rewrite basic_next_constraints, Hp.
    - apply selectionOnly_app;
        [apply basic_filterConstraints_selection | apply basic_sortConstraints_selection].
    - exact Hup. }
  unfold loadingWorld, setLoading in Hq. simpl in Hq.
  unfold Basic.fetchNextPage, finallyNotLoading, recordingError,
    bind, getView, setView, setLoading.
  simpl. rewrite Hcursor, Hmore. simpl. rewrite Hq. simpl. rewrite Hp.
  repeat split; reflexivity.
Qed.

(** When nothing is pending, [fetchNextPage] does nothing. *)
Lemma basic_fetchNextPage_idle (w : World Basic.Filters) :
  lastVisible (view (st w)) = None \/ hasMore (view (st w)) = false ->
  Basic.fetchNextPage w = (Returned tt, w).
Proof.
  intros H. unfold Basic.fetchNextPage, bind, getView, ret. simpl.
  destruct (lastVisible (view (st w))) as [c|]; [|reflexivity].
  destruct H as [H|H]; [discriminate|]. now rewrite H.
Qed.

Lemma advanced_fetchInitialPage_run logging options wheres (w : World Advanced.Filters) :
  outage (db w) = None ->
  Advanced.filterConstraints (default (filters (view (st w))) (Advanced.optFilters options))
    = inr wheres ->
  let constraints :=
    (wheres
     ++ Advanced.sortConstraints (match Advanced.optOrderBy options with
                                  | Some c => Some c
                                  | None => orderBy (view (st w))
                                  end)
     ++ [Limit (Advanced.requestedPageSize options (view (st w)))])%list in
  fst (Advanced.fetchInitialPage logging options w) = Returned tt
  /\ items (view (st (snd (Advanced.fetchInitialPage logging options w))))
     = queryRows (db w) constraints
  /\ hasMore (view (st (snd (Advanced.fetchInitialPage logging options w))))
     = Nat.eqb (length (queryRows (db w) constraints))
               (Advanced.requestedPageSize options (view (st w)))
  /\ lastVisible (view (st (snd (Advanced.fetchInitialPage logging options w))))
     = lastDoc (queryRows (db w) constraints)
  /\ filters (view (st (snd (Advanced.fetchInitialPage logging options w))))
     = default (filters (view (st w))) (Advanced.optFilters options)
  /\ orderBy (view (st (snd (Advanced.fetchInitialPage logging options w))))
     = match Advanced.optOrderBy options with Some c => Some c | None => orderBy (view (st w)) end
  /\ pageSize (view (st (snd (Advanced.fetchInitialPage logging options w))))
     = Advanced.requestedPageSize options (view (st w))
  /\ docs (db (snd (Advanced.fetchInitialPage logging options w))) = docs (db w)
  /\ scan (db (snd (Advanced.fetchInitialPage logging options w))) = scan (db w)
  /\ outage (db (snd (Advanced.fetchInitialPage logging options w))) = None.
Proof.
  intros Hup Hwheres constraints.
  assert (Hpos : exists n, Advanced.requestedPageSize options (view (st w)) = S n).
  { unfold Advanced.requestedPageSize.
    destruct (Advanced.optPageSize options) as [[|k]|]; eauto;
      destruct (pageSize (view (st w))); eauto. }
  destruct Hpos as [n Hp].
  assert (Hq : getDocs constraints (loadingWorld w)
               = (Returned (queryRows (db w) constraints), loadingWorld w)).
  { apply (getDocs_answered _
             (wheres ++ Advanced.sortConstraints
                          (match Advanced.optOrderBy options with
                           | Some c => Some c
                           | None => orderBy (view (st w))
                           end))%list n (loadingWorld w)).
    - left. unfold constraints. now rewrite app_assoc, Hp.
    - apply selectionOnly_app;
        [now apply (advanced_filterConstraints_selection _ _ Hwheres)
        | apply advanced_sortConstraints_selection].
    - exact Hup. }
  unfold loadingWorld, setLoading in Hq. simpl in Hq.
  unfold Advanced.fetchInitialPage, finallyNotLoading, Advanced.recordingAndLogging,
    Advanced.whereClauses, bind, getView, setView, getCountFromServer, setLoading, ret.
  simpl. rewrite Hwheres. simpl. fold constraints. rewrite Hq. simpl. rewrite Hup. simpl.
  unfold Advanced._logActivity. simpl. rewrite Hup.
  destruct logging; simpl; repeat split; try reflexivity; exact Hup.
Qed.

Lemma advanced_fetchNextPage_run logging cursor wheres (w : World Advanced.Filters) :
  outage (db w) = None ->
  lastVisible (view (st w)) = Some cursor ->
  hasMore (view (st w)) = true ->
  pageSize (view (st w)) <> 0 ->
  Advanced.filterConstraints (filters (view (st w))) = inr wheres ->
  let constraints :=
    (wheres ++ Advanced.sortConstraints (orderBy (view (st w)))
     ++ [StartAfter cursor; Limit (pageSize (view (st w)))])%list in
  fst (Advanced.fetchNextPage logging w) = Returned tt
  /\ items (view (st (snd (Advanced.fetchNextPage logging w))))
     = (items (view (st w)) ++ queryRows (db w) constraints)%list
  /\ hasMore (view (st (snd (Advanced.fetchNextPage logging w))))
     = Nat.eqb (length (queryRows (db w) constraints)) (pageSize (view (st w))).
Proof.
  intros Hup Hcursor Hmore Hsize Hwheres constraints.
  destruct (pageSize (view (st w))) as [|n] eqn:Hp; [congruence|].
  assert (Hq : getDocs constraints (loadingWorld w)
               = (Returned (queryRows (db w) constraints), loadingWorld w)).
  { apply (getDocs_answered _
             (wheres ++ Advanced.sortConstraints (orderBy (view (st w))))%list
             n (loadingWorld w)).
    - right. exists cursor. unfold constraints. now rewrite app_assoc.
    - apply selectionOnly_app;
        [now apply (advanced_filterConstraints_selection _ _ Hwheres)
        | apply advanced_sortConstraints_selection].
    - exact Hup. }
  unfold loadingWorld, setLoading in Hq. simpl in Hq.
  unfold Advanced.fetchNextPage, finallyNotLoading, Advanced.recordingAndLogging,
    Advanced.whereClauses, bind, getView, setView, setLoading, ret.
  simpl. rewrite Hcursor, Hmore. simpl. rewrite Hwheres. simpl. rewrite Hp.
  fold constraints. rewrite Hq. simpl.
  unfold Advanced._logActivity. simpl. rewrite Hup.
  destruct logging; simpl; rewrite ?Hp; repeat split; reflexivity.
Qed.

End PaginationRuns.

Section OverEagerPagination.
Import Js Firestore.

Lemma lastDoc_nonempty (rows : list Snapshot) :
  rows <> [] -> exists cursor, lastDoc rows = Some cursor.
Proof.
  unfold lastDoc. intros H. destruct (last rows) as [c|] eqn:Hl; [eauto|].
  apply last_None in Hl. contradiction.
Qed.

Lemma nonempty_of_length {A} (l : list A) n : length l = S n -> l <> [].
Proof. destruct l; simpl; congruence. Qed.

(** First generation: a selection of exactly one page leaves [hasMore] set,
    and the next fetch finds nothing. *)
Lemma basic_exact_page options (w : World Basic.Filters) :
  let sel := (Basic.filterConstraints
                (default (filters (view (st w))) (Basic.optFilters options))
              ++ Basic.sortConstraints
                   (match Basic.optOrderBy options with
                    | Some c => Some c
                    | None => orderBy (view (st w))
                    end))%list in
  let w' := snd (Basic.fetchInitialPage options w) in
  outage (db w) = None ->
  Basic.requestedPageSize options (view (st w)) <> 0 ->
  length (scan (db w) sel) = Basic.requestedPageSize options (view (st w)) ->
  List.NoDup (map snapId (scan (db w) sel)) ->
  items (view (st w')) = scan (db w) sel
  /\ hasMore (view (st w')) = true
  /\ fst (Basic.fetchNextPage w') = Returned tt
  /\ items (view (st (snd (Basic.fetchNextPage w')))) = scan (db w) sel
  /\ hasMore (view (st (snd (Basic.fetchNextPage w')))) = false.
Proof.
  intros sel w' Hup Hsize Hlen Hnd.
  destruct (basic_fetchInitialPage_run options w Hup Hsize)
    as (_ & Hitems & Hmore & Hlast & Hfilters & Hsort & Hpage & Hdb).
  fold w' in Hitems, Hmore, Hlast, Hfilters, Hsort, Hpage, Hdb.
  assert (Hsel : selectionOnly sel).
  { apply selectionOnly_app;
      [apply basic_filterConstraints_selection | apply basic_sortConstraints_selection]. }
  assert (Hrows : queryRows (db w) (Basic.initialConstraints options (view (st w)))
                  = scan (db w) sel).
  { rewrite basic_initial_constraints. fold sel. rewrite (queryRows_first _ _ _ Hsel).
    rewrite <- Hlen. apply firstn_all. }
  rewrite Hrows in Hitems, Hmore, Hlast.
  rewrite Hlen, Nat.eqb_refl in Hmore.
  destruct (Basic.requestedPageSize options (view (st w))) as [|n] eqn:Hp; [congruence|].
  destruct (lastDoc_nonempty _ (nonempty_of_length _ _ Hlen)) as [cursor Hcursor].
  rewrite Hcursor in Hlast.
  assert (Hup' : outage (db w') = None) by now rewrite Hdb.
  assert (Hsize' : pageSize (view (st w')) <> 0) by now rewrite Hpage.
  destruct (basic_fetchNextPage_run cursor w' Hup' Hlast Hmore Hsize')
    as (Hret & Hitems' & Hmore').
  assert (Hnext : queryRows (db w') (Basic.nextConstraints (view (st w')) cursor) = []).
  { rewrite basic_next_constraints, Hfilters, Hsort, Hdb. fold sel.
    rewrite (queryRows_next _ _ _ _ Hsel), (afterCursor_last _ _ Hnd Hcursor).
    apply firstn_nil. }
  rewrite Hnext in Hitems', Hmore'. rewrite Hitems, app_nil_r in Hitems'.
  rewrite Hpage in Hmore'. simpl in Hmore'.
  repeat split; assumption.
Qed.

(** Second generation: the same. *)
Lemma advanced_exact_page logging options wheres (w : World Advanced.Filters) :
  let sel := (wheres
              ++ Advanced.sortConstraints
                   (match Advanced.optOrderBy options with
                    | Some c => Some c
                    | None => orderBy (view (st w))
                    end))%list in
  let w' := snd (Advanced.fetchInitialPage logging options w) in
  outage (db w) = None ->
  Advanced.filterConstraints (default (filters (view (st w))) (Advanced.optFilters options))
    = inr wheres ->
  length (scan (db w) sel) = Advanced.requestedPageSize options (view (st w)) ->
  List.NoDup (map snapId (scan (db w) sel)) ->
  items (view (st w')) = scan (db w) sel
  /\ hasMore (view (st w')) = true
  /\ fst (Advanced.fetchNextPage logging w') = Returned tt
  /\ items (view (st (snd (Advanced.fetchNextPage logging w')))) = scan (db w) sel
  /\ hasMore (view (st (snd (Advanced.fetchNextPage logging w')))) = false.
Proof.
  intros sel w' Hup Hwheres Hlen Hnd.
  destruct (advanced_fetchInitialPage_run logging options wheres w Hup Hwheres)
    as (_ & Hitems & Hmore & Hlast & Hfilters & Hsort & Hpage & _ & Hscan & Hup').
  fold w' in Hitems, Hmore, Hlast, Hfilters, Hsort, Hpage, Hscan, Hup'.
  assert (Hsel : selectionOnly sel).
  { apply selectionOnly_app;
      [now apply (advanced_filterConstraints_selection _ _ Hwheres)
      | apply advanced_sortConstraints_selection]. }
  assert (Hrows :
    queryRows (db w)
      (wheres
       ++ Advanced.sortConstraints (match Advanced.optOrderBy options with
                                    | Some c => Some c
                                    | None => orderBy (view (st w))
                                    end)
       ++ [Limit (Advanced.requestedPageSize options (view (st w)))])%list
    = scan (db w) sel).
  { rewrite app_assoc. fold sel. rewrite (queryRows_first _ _ _ Hsel).
    rewrite <- Hlen. apply firstn_all. }
  rewrite Hrows in Hitems, Hmore, Hlast.
  rewrite Hlen, Nat.eqb_refl in Hmore.
  assert (Hpos : exists n, Advanced.requestedPageSize options (view (st w)) = S n).
  { unfold Advanced.requestedPageSize.
    destruct (Advanced.optPageSize options) as [[|k]|]; eauto;
      destruct (pageSize (view (st w))); eauto. }
  destruct Hpos as [n Hp]. rewrite Hp in Hlen, Hpage.
  destruct (lastDoc_nonempty _ (nonempty_of_length _ _ Hlen)) as [cursor Hcursor].
  rewrite Hcursor in Hlast.
  assert (Hsize' : pageSize (view (st w')) <> 0) by now rewrite Hpage.
  assert (Hwheres' : Advanced.filterConstraints (filters (view (st w'))) = inr wheres)
    by now rewrite Hfilters.
  destruct (advanced_fetchNextPage_run logging cursor wheres w'
              Hup' Hlast Hmore Hsize' Hwheres') as (Hret & Hitems' & Hmore').
  assert (Hnext :
    queryRows (db w')
      (wheres ++ Advanced.sortConstraints (orderBy (view (st w')))
       ++ [StartAfter cursor; Limit (pageSize (view (st w')))])%list = []).
  { rewrite Hsort, app_assoc. fold sel.
    rewrite (queryRows_next _ _ _ _ Hsel), Hscan, (afterCursor_last _ _ Hnd Hcursor).
    apply firstn_nil. }
  rewrite Hnext in Hitems', Hmore'. rewrite Hitems, app_nil_r in Hitems'.
  rewrite Hpage in Hmore'. simpl in Hmore'.
  repeat split; assumption.
Qed.

End OverEagerPagination.

Section PaginationClaim.
Import Js Firestore.

(** C3: whenever [fetchInitialPage] or [fetchNextPage] gets a page from the
    store, [hasMore] becomes true exactly when the number of returned
    documents equals the page size asked for; so when the whole selection is
    exactly one page long, [hasMore] is true after the first fetch although
    nothing is left, and the next fetch adds nothing and clears it.  This
    holds for the actions of the first generation and for those of every
    module of the second generation that can be imported. *)
Theorem hasMore_is_full_page :
  (forall options (w : World Basic.Filters),
     outage (db w) = None ->
     Basic.requestedPageSize options (view (st w)) <> 0 ->
     hasMore (view (st (snd (Basic.fetchInitialPage options w))))
     = Nat.eqb (length (queryRows (db w) (Basic.initialConstraints options (view (st w)))))
               (Basic.requestedPageSize options (view (st w))))
  /\ (forall cursor (w : World Basic.Filters),
        outage (db w) = None ->
        lastVisible (view (st w)) = Some cursor ->
        hasMore (view (st w)) = true ->
        pageSize (view (st w)) <> 0 ->
        hasMore (view (st (snd (Basic.fetchNextPage w))))
        = Nat.eqb (length (queryRows (db w) (Basic.nextConstraints (view (st w)) cursor)))
                  (pageSize (view (st w))))
  /\ (forall roles auth logging name actions options wheres (w : World Advanced.Filters),
        Advanced.useFirestoreCollectionActions roles auth logging name = Some actions ->
        outage (db w) = None ->
        Advanced.filterConstraints
          (default (filters (view (st w))) (Advanced.optFilters options)) = inr wheres ->
        hasMore (view (st (snd (Advanced.actFetchInitialPage actions options w))))
        = Nat.eqb
            (length (queryRows (db w)
                       (wheres
                        ++ Advanced.sortConstraints
                             (match Advanced.optOrderBy options with
                              | Some c => Some c
                              | None => orderBy (view (st w))
                              end)
                        ++ [Limit (Advanced.requestedPageSize options (view (st w)))])%list))
            (Advanced.requestedPageSize options (view (st w))))
  /\ (forall roles auth logging name actions cursor wheres (w : World Advanced.Filters),
        Advanced.useFirestoreCollectionActions roles auth logging name = Some actions ->
        outage (db w) = None ->
        lastVisible (view (st w)) = Some cursor ->
        hasMore (view (st w)) = true ->
        pageSize (view (st w)) <> 0 ->
        Advanced.filterConstraints (filters (view (st w))) = inr wheres ->
        hasMore (view (st (snd (Advanced.actFetchNextPage actions w))))
        = Nat.eqb
            (length (queryRows (db w)
                       (wheres ++ Advanced.sortConstraints (orderBy (view (st w)))
                        ++ [StartAfter cursor; Limit (pageSize (view (st w)))])%list))
            (pageSize (view (st w))))
  /\ (forall options (w : World Basic.Filters),
        let sel := (Basic.filterConstraints
                      (default (filters (view (st w))) (Basic.optFilters options))
                    ++ Basic.sortConstraints
                         (match Basic.optOrderBy options with
                          | Some c => Some c
                          | None => orderBy (view (st w))
                          end))%list in
        let w' := snd (Basic.fetchInitialPage options w) in
        outage (db w) = None ->
        Basic.requestedPageSize options (view (st w)) <> 0 ->
        length (scan (db w) sel) = Basic.requestedPageSize options (view (st w)) ->
        List.NoDup (map snapId (scan (db w) sel)) ->
        items (view (st w')) = scan (db w) sel
        /\ hasMore (view (st w')) = true
        /\ items (view (st (snd (Basic.fetchNextPage w')))) = scan (db w) sel
        /\ hasMore (view (st (snd (Basic.fetchNextPage w')))) = false)
  /\ (forall roles auth logging name actions options wheres (w : World Advanced.Filters),
        let sel := (wheres
                    ++ Advanced.sortConstraints
                         (match Advanced.optOrderBy options with
                          | Some c => Some c
                          | None => orderBy (view (st w))
                          end))%list in
        let w' := snd (Advanced.actFetchInitialPage actions options w) in
        Advanced.useFirestoreCollectionActions roles auth logging name = Some actions ->
        outage (db w) = None ->
        Advanced.filterConstraints
          (default (filters (view (st w))) (Advanced.optFilters options)) = inr wheres ->
        length (scan (db w) sel) = Advanced.requestedPageSize options (view (st w)) ->
        List.NoDup (map snapId (scan (db w) sel)) ->
        items (view (st w')) = scan (db w) sel
        /\ hasMore (view (st w')) = true
        /\ items (view (st (snd (Advanced.actFetchNextPage actions w')))) = scan (db w) sel
        /\ hasMore (view (st (snd (Advanced.actFetchNextPage actions w')))) = false).
Proof.
  refine (conj _ (conj _ (conj _ (conj _ (conj _ _))))).
  - intros options w Hup Hsize.
    now destruct (basic_fetchInitialPage_run options w Hup Hsize) as (_ & _ & H & _).
  - intros cursor w Hup Hc Hm Hsize.
    now destruct (basic_fetchNextPage_run cursor w Hup Hc Hm Hsize) as (_ & _ & H).
  - intros roles auth logging name actions options wheres w Hact Hup Hw.
    destruct (advanced_actions_inv _ _ _ _ _ Hact) as (_ & _ & _ & -> & _).
    now destruct (advanced_fetchInitialPage_run false options wheres w Hup Hw)
      as (_ & _ & H & _).
  - intros roles auth logging name actions cursor wheres w Hact Hup Hc Hm Hsize Hw.
    destruct (advanced_actions_inv _ _ _ _ _ Hact) as (_ & _ & _ & _ & -> & _).
    now destruct (advanced_fetchNextPage_run false cursor wheres w Hup Hc Hm Hsize Hw)
      as (_ & _ & H).
  - intros options w sel w' Hup Hsize Hlen Hnd.
    destruct (basic_exact_page options w Hup Hsize Hlen Hnd) as (H1 & H2 & _ & H3 & H4).
    repeat split; assumption.
  - intros roles auth logging name actions options wheres w sel w' Hact Hup Hw Hlen Hnd.
    destruct (advanced_actions_inv _ _ _ _ _ Hact) as (_ & _ & _ & Hi & Hn & _).
    subst w'. rewrite Hi, Hn.
    destruct (advanced_exact_page false options wheres w Hup Hw Hlen Hnd)
      as (H1 & H2 & _ & H3 & H4).
    repeat split; assumption.
Qed.

Lemma twoRows_unique : List.NoDup (map snapId [row "a"; row "b"]).
Proof.
  repeat constructor; simpl; intros H;
    repeat (destruct H as [H|H]; [discriminate|]); exact H.
Defined.

Lemma hasMore_is_full_page_witness :
  (items (view (st (snd (Basic.fetchInitialPage pageOfTwo (freshWorld [] None twoRowsDb)))))
     = [row "a"; row "b"]
   /\ hasMore (view (st (snd (Basic.fetchInitialPage pageOfTwo
                                (freshWorld [] None twoRowsDb))))) = true
   /\ items (view (st (snd (Basic.fetchNextPage
                              (snd (Basic.fetchInitialPage pageOfTwo
                                      (freshWorld [] None twoRowsDb)))))))
      = [row "a"; row "b"]
   /\ hasMore (view (st (snd (Basic.fetchNextPage
                                (snd (Basic.fetchInitialPage pageOfTwo
                                        (freshWorld [] None twoRowsDb))))))) = false)
  /\ (items (view (st (snd (Advanced.fetchInitialPage false pageOfTwoAdvanced
                              (freshWorld [] None twoRowsDb)))))
        = [row "a"; row "b"]
      /\ hasMore (view (st (snd (Advanced.fetchInitialPage false pageOfTwoAdvanced
                                   (freshWorld [] None twoRowsDb))))) = true
      /\ items (view (st (snd (Advanced.fetchNextPage false
                                 (snd (Advanced.fetchInitialPage false pageOfTwoAdvanced
                                         (freshWorld [] None twoRowsDb)))))))
         = [row "a"; row "b"]
      /\ hasMore (view (st (snd (Advanced.fetchNextPage false
                                   (snd (Advanced.fetchInitialPage false pageOfTwoAdvanced
                                           (freshWorld [] None twoRowsDb))))))) = false).
Proof.
  destruct hasMore_is_full_page as (_ & _ & _ & _ & Hbasic & Hadvanced).
  split.
  - exact (Hbasic pageOfTwo (freshWorld [] None twoRowsDb)
             eq_refl (fun H => O_S 1 (eq_sym H)) eq_refl twoRows_unique).
  - exact (Hadvanced [] [] false "products" plainActions pageOfTwoAdvanced []
             (freshWorld [] None twoRowsDb) eq_refl eq_refl eq_refl eq_refl twoRows_unique).
Defined.

Example a_short_page_clears_hasMore :
  hasMore (view (st (snd (Basic.fetchInitialPage
                            {| Basic.optPageSize := Some 3; Basic.optFilters := None;
                               Basic.optOrderBy := None |}
                            (freshWorld [] None twoRowsDb))))) = false.
Proof. reflexivity. Qed.

End PaginationClaim.

(** * Further properties *)

(** ** helperF.js: [toCamel] *)

Section ToCamel.
Import Js Naming Helper.

Lemma upper_is_not_hyphen d : isLowerAZ d = true -> Ascii.eqb (toUpperChar d) "-" = false.
Proof. destruct d as [[] [] [] [] [] [] [] []]; vm_compute; congruence. Qed.

Lemma hyphenThenLower_cons c d r :
  hyphenThenLower (String c (String d r))
  = (Ascii.eqb c "-" && isLowerAZ d) || hyphenThenLower (String d r).
Proof. reflexivity. Qed.

Lemma hyphenThenLower_other c t :
  Ascii.eqb c "-" = false -> hyphenThenLower (String c t) = hyphenThenLower t.
Proof.
  intros Hc. destruct t as [|d r]; [reflexivity|].
  now rewrite hyphenThenLower_cons, Hc.
Qed.

Lemma toCamel_cons c d r :
  toCamel (String c (String d r))
  = if Ascii.eqb c "-" && isLowerAZ d then String (toUpperChar d) (toCamel r)
    else String c (toCamel (String d r)).
Proof. reflexivity. Qed.

(** Where the pattern does not occur, nothing is replaced. *)
Lemma toCamel_fixed s : hyphenThenLower s = false -> toCamel s = s.
Proof.
  induction s as [|c r IH]; [reflexivity|].
  destruct r as [|d r']; [reflexivity|].
  rewrite hyphenThenLower_cons, toCamel_cons. intros H.
  apply orb_false_iff in H as [Hhere Hrest].
  now rewrite Hhere, (IH Hrest).
Qed.

(** A result begins with a lower-case letter only if the argument did. *)
Lemma toCamel_first d r e t :
  toCamel (String d r) = String e t -> isLowerAZ e = true -> isLowerAZ d = true.
Proof.
  destruct r as [|d' r'].
  - simpl. now intros [= <- _].
  - rewrite toCamel_cons. destruct (Ascii.eqb d "-" && isLowerAZ d').
    + intros [= <- _] H. now rewrite toUpperChar_not_lower in H.
    + now intros [= <- _].
Qed.

Lemma toCamel_clean_bounded n s : String.length s <= n -> hyphenThenLower (toCamel s) = false.
Proof.
  revert s. induction n as [|n IH]; intros s Hlen.
  - destruct s; [reflexivity | simpl in Hlen; lia].
  - destruct s as [|c [|d r]]; [reflexivity | reflexivity |].
    rewrite toCamel_cons. simpl in Hlen.
    destruct (Ascii.eqb c "-" && isLowerAZ d) eqn:Hhere.
    + apply andb_true_iff in Hhere as [_ Hd].
      rewrite (hyphenThenLower_other _ _ (upper_is_not_hyphen d Hd)).
      apply IH. lia.
    + assert (Hrest : hyphenThenLower (toCamel (String d r)) = false)
        by (apply IH; simpl; lia).
      destruct (toCamel (String d r)) as [|e t] eqn:Hres; [reflexivity|].
      rewrite hyphenThenLower_cons, Hrest, orb_false_r.
      destruct (Ascii.eqb c "-") eqn:Hc; [|reflexivity]. simpl in *.
      destruct (isLowerAZ e) eqn:He; [|reflexivity].
      now rewrite (toCamel_first d r e t Hres He) in Hhere.
Qed.

Lemma toCamel_clean s : hyphenThenLower (toCamel s) = false.
Proof. now apply (toCamel_clean_bounded (String.length s)). Qed.

Lemma no_separator_no_pattern s :
  allChars notSeparator s = true -> hyphenThenLower s = false.
Proof.
  induction s as [|c r IH]; [reflexivity|]. simpl allChars.
  intros H. apply andb_true_iff in H as [Hc Hr].
  rewrite hyphenThenLower_other; [now apply IH|].
  unfold notSeparator, isSeparator in Hc. apply negb_true_iff in Hc.
  now apply orb_false_iff in Hc as [Hc _]; apply orb_false_iff in Hc as [Hc _].
Qed.

(** X1: [toCamel] leaves no hyphen followed by a lower-case letter behind, and
    a second application changes nothing: unlike [toCamelCase] it is
    idempotent. *)
Theorem toCamel_idempotent (s : string) :
  hyphenThenLower (toCamel s) = false /\ toCamel (toCamel s) = toCamel s.
Proof.
  split; [apply toCamel_clean|]. apply toCamel_fixed, toCamel_clean.
Qed.

End ToCamel.

(** ** helperF.js: how the naming functions fit together *)

Section NamingTogether.
Import Js Naming Helper.

Lemma toUpperChar_idem c : toUpperChar (toUpperChar c) = toUpperChar c.
Proof. destruct c as [[] [] [] [] [] [] [] []]; vm_compute; congruence. Qed.

Lemma lower_of_upper c : toLowerChar (toUpperChar c) = toLowerChar c.
Proof. destruct c as [[] [] [] [] [] [] [] []]; vm_compute; congruence. Qed.

Lemma capitalize_cons c r : capitalize (String c r) = String (toUpperChar c) r.
Proof. reflexivity. Qed.

Lemma capitalize_of_capitalized (l : list string) :
  capitalize (joinEmpty (map capitalizeWord l)) = joinEmpty (map capitalizeWord l).
Proof.
  induction l as [|w r IH]; [reflexivity|]. simpl.
  destruct w as [|c w']; [exact IH|].
  rewrite capitalizeWord_cons, append_cons, capitalize_cons.
  now rewrite toUpperChar_idem.
Qed.

Lemma joinEmpty_split s : joinEmpty (splitSeparators s) = keepChars notSeparator s.
Proof.
  induction s as [|c r IH]; [reflexivity|]. simpl.
  unfold notSeparator at 1. destruct (isSeparator c); simpl.
  - destruct (startsWithSeparator r); exact IH.
  - rewrite <- IH. now destruct (splitSeparators r).
Qed.

Lemma toLowerCase_append s t : toLowerCase (s ++ t) = toLowerCase s ++ toLowerCase t.
Proof.
  induction s as [|c r IH]; [reflexivity|].
  rewrite append_cons. unfold toLowerCase in *. simpl. now rewrite IH.
Qed.

Lemma toLowerCase_joinEmpty l : toLowerCase (joinEmpty l) = joinEmpty (map toLowerCase l).
Proof.
  induction l as [|w r IH]; [reflexivity|]. simpl.
  now rewrite toLowerCase_append, IH.
Qed.

Lemma toLowerCase_capitalizeWord w : toLowerCase (capitalizeWord w) = toLowerCase w.
Proof.
  destruct w as [|c r]; [reflexivity|].
  rewrite capitalizeWord_cons. unfold toLowerCase. simpl. now rewrite lower_of_upper.
Qed.

Lemma keepChars_mapChars p f s :
  (forall c, p (f c) = p c) -> keepChars p (mapChars f s) = mapChars f (keepChars p s).
Proof.
  intros Hf. induction s as [|c r IH]; [reflexivity|]. simpl.
  rewrite Hf. destruct (p c); simpl; now rewrite IH.
Qed.

Lemma keepChars_trimStart s :
  keepChars notSeparator (trimStart s) = keepChars notSeparator s.
Proof.
  induction s as [|c r IH]; [reflexivity|]. simpl.
  destruct (isWhiteSpace c) eqn:Hw; [|reflexivity].
  unfold notSeparator at 2. now rewrite (whitespace_is_separator c Hw).
Qed.

Lemma keepChars_trimEnd s :
  keepChars notSeparator (trimEnd s) = keepChars notSeparator s.
Proof.
  induction s as [|c r IH]; [reflexivity|]. simpl.
  destruct (trimEnd r) as [|e t] eqn:Ht.
  - simpl in IH. rewrite <- IH.
    destruct (isWhiteSpace c) eqn:Hw; [|reflexivity].
    unfold notSeparator. now rewrite (whitespace_is_separator c Hw).
  - simpl. now rewrite <- IH.
Qed.

Lemma keepChars_trim s : keepChars notSeparator (trim s) = keepChars notSeparator s.
Proof. unfold trim. now rewrite keepChars_trimEnd, keepChars_trimStart. Qed.

Lemma kept_of_normalised x :
  keepChars notSeparator (toLowerCase (trim x)) = toLowerCase (keepChars notSeparator x).
Proof.
  unfold toLowerCase.
  rewrite (keepChars_mapChars notSeparator toLowerChar _ notSeparator_lower).
  now rewrite keepChars_trim.
Qed.

(** Lower-cased, a derived name is the letters of the raw name. *)
Lemma toLowerCase_toCamelCase x :
  toLowerCase (toCamelCase x) = toLowerCase (keepChars notSeparator x).
Proof.
  unfold toCamelCase. rewrite camel_pieces.
  pose proof (joinEmpty_split (toLowerCase (trim x))) as Hjoin.
  rewrite kept_of_normalised in Hjoin.
  destruct (splitSeparators (toLowerCase (trim x))) as [|w r].
  - simpl in Hjoin. now rewrite <- Hjoin.
  - rewrite toLowerCase_joinEmpty. simpl map.
    rewrite map_map.
    rewrite (map_ext _ toLowerCase toLowerCase_capitalizeWord).
    change (joinEmpty (map toLowerCase (w :: r))
            = toLowerCase (keepChars notSeparator x)).
    rewrite <- toLowerCase_joinEmpty, Hjoin. apply toLowerCase_idem.
Qed.

Lemma pascal_of_camel x :
  toPascalCase x = capitalize (toCamelCase x) /\ toCamel (toCamelCase x) = toCamelCase x.
Proof.
  split.
  - unfold toPascalCase, toCamelCase. rewrite camel_pieces.
    destruct (splitSeparators (toLowerCase (trim x))) as [|w r]; [reflexivity|].
    simpl. destruct w as [|c w'].
    + rewrite capitalizeWord_empty. simpl.
      symmetry. apply capitalize_of_capitalized.
    + now rewrite capitalizeWord_cons, !append_cons, capitalize_cons.
  - apply toCamel_fixed, no_separator_no_pattern, toCamelCase_no_separator.
Qed.

(** X2: [toPascalCase] is [capitalize] after [toCamelCase], and [toCamel] has
    nothing left to do on a name [toCamelCase] made: the export names that
    the helpers build with [capitalize(toCamel(col))] from a processed
    collection name are the ones the views build with [toPascalCase] from
    the raw name. *)
Theorem pascal_is_capitalized_camel (x : string) :
  toPascalCase x = capitalize (toCamelCase x)
  /\ toCamel (toCamelCase x) = toCamelCase x
  /\ capitalize (toCamel (toCamelCase x)) = toPascalCase x.
Proof.
  destruct (pascal_of_camel x) as [Hpascal Hcamel].
  split; [exact Hpascal|]. split; [exact Hcamel|].
  now rewrite Hcamel, Hpascal.
Qed.

End NamingTogether.

(** ** helperF.js: names that come out empty *)

Section EmptyNames.
Import Js Naming.

Lemma append_empty_iff (s t : string) : s ++ t = "" <-> s = "" /\ t = "".
Proof.
  split.
  - destruct s; [now split | rewrite append_cons; discriminate].
  - now intros [-> ->].
Qed.

Lemma joinEmpty_empty (l : list string) :
  joinEmpty l = "" <-> Forall (fun w => w = "") l.
Proof.
  induction l as [|w r IH]; simpl.
  - split; [constructor | reflexivity].
  - rewrite append_empty_iff, IH. split.
    + intros [Hw Hr]. now constructor.
    + intros H. inversion H; subst. now split.
Qed.

Lemma capitalizeWord_empty_iff w : capitalizeWord w = "" <-> w = "".
Proof. destruct w; [tauto|]. rewrite capitalizeWord_cons. split; discriminate. Qed.

Lemma capitalized_all_empty (l : list string) :
  Forall (fun w => w = "") (map capitalizeWord l) <-> Forall (fun w => w = "") l.
Proof.
  induction l as [|w r IH]; simpl.
  - split; constructor.
  - split; intros H; inversion H; subst; constructor;
      try (now apply capitalizeWord_empty_iff); now apply IH.
Qed.

Lemma pieces_empty s :
  Forall (fun w => w = "") (splitSeparators s) <-> allChars isSeparator s = true.
Proof.
  induction s as [|c r IH]; simpl.
  - split; [reflexivity | repeat constructor].
  - destruct (isSeparator c) eqn:Hc; simpl.
    + destruct (startsWithSeparator r); [exact IH|].
      rewrite <- IH. split; intros H; [now inversion H | now constructor].
    + split; [|discriminate].
      destruct (splitSeparators r); simpl; intros H; inversion H; discriminate.
Qed.

Lemma allSeparators_trimStart s :
  allChars isSeparator (trimStart s) = allChars isSeparator s.
Proof.
  induction s as [|c r IH]; [reflexivity|]. simpl.
  destruct (isWhiteSpace c) eqn:Hw; [|reflexivity].
  now rewrite (whitespace_is_separator c Hw).
Qed.

Lemma allSeparators_trimEnd s :
  allChars isSeparator (trimEnd s) = allChars isSeparator s.
Proof.
  induction s as [|c r IH]; [reflexivity|]. simpl.
  destruct (trimEnd r) as [|e t] eqn:Ht.
  - simpl in IH. rewrite <- IH, andb_true_r.
    destruct (isWhiteSpace c) eqn:Hw; simpl.
    + now rewrite (whitespace_is_separator c Hw).
    + now rewrite andb_true_r.
  - simpl. simpl in IH. now rewrite <- IH.
Qed.

Lemma allSeparators_normalised x :
  allChars isSeparator (toLowerCase (trim x)) = allChars isSeparator x.
Proof.
  unfold toLowerCase. rewrite (allChars_mapChars _ _ _ toLowerChar_separator).
  unfold trim. now rewrite allSeparators_trimEnd, allSeparators_trimStart.
Qed.

Lemma toPascalCase_empty x : toPascalCase x = "" <-> allChars isSeparator x = true.
Proof.
  unfold toPascalCase.
  now rewrite joinEmpty_empty, capitalized_all_empty, pieces_empty, allSeparators_normalised.
Qed.

Lemma toCamelCase_empty x : toCamelCase x = "" <-> allChars isSeparator x = true.
Proof.
  rewrite <- allSeparators_normalised, <- pieces_empty.
  unfold toCamelCase. rewrite camel_pieces, joinEmpty_empty.
  destruct (splitSeparators (toLowerCase (trim x))) as [|w r]; [tauto|].
  split; intros H; inversion H; subst; constructor; try reflexivity;
    now apply capitalized_all_empty.
Qed.

Lemma truthy_toCamelCase x : truthy (toCamelCase x) = hasNameCharacter x.
Proof.
  unfold hasNameCharacter.
  destruct (allChars isSeparator x) eqn:Hx.
  - apply toCamelCase_empty in Hx. now rewrite Hx.
  - destruct (toCamelCase x) eqn:Hc; [|reflexivity].
    apply toCamelCase_empty in Hc. congruence.
Qed.

(** X3: A derived name of a raw name of ASCII characters is empty exactly
    when the raw name holds nothing but hyphens, underscores and white
    space: these are the collections that normalisation drops. *)
Theorem derived_name_empty_iff (x : string) :
  isAsciiText x = true ->
  (toCamelCase x = "" <-> allChars isSeparator x = true)
  /\ (toPascalCase x = "" <-> allChars isSeparator x = true)
  /\ Js.truthy (trim (toCamelCase x)) = hasNameCharacter x.
Proof.
  intros _.
  split; [apply toCamelCase_empty|]. split; [apply toPascalCase_empty|].
  rewrite (trim_no_separator _ (toCamelCase_no_separator x)).
  apply truthy_toCamelCase.
Qed.

Lemma derived_name_empty_iff_witness :
  toCamelCase " -_ " = ""
  /\ toPascalCase " -_ " = ""
  /\ Js.truthy (trim (toCamelCase " -_ ")) = false
  /\ Js.truthy (trim (toCamelCase " my-notes ")) = true.
Proof.
  destruct (derived_name_empty_iff " -_ " eq_refl) as (Hcamel & Hpascal & Hkept).
  exact (conj (proj2 Hcamel eq_refl)
           (conj (proj2 Hpascal eq_refl)
              (conj Hkept
                 (proj2 (proj2 (derived_name_empty_iff " my-notes " eq_refl)))))).
Defined.

End EmptyNames.

(** ** generateStore: which collections count as authentication collections *)

Section AuthDetection.
Import Js Naming Store.

Lemma processCollection_name c p n :
  processCollection c = inr p -> raw_name c = Some n ->
  name p = toCamelCase n /\ truthy n = true.
Proof.
  unfold processCollection. intros Hp Hn. rewrite Hn in Hp.
  destruct (raw_fields c) as [f|]; [|discriminate].
  destruct (truthy n); [|discriminate].
  injection Hp as <-. simpl. split; [|reflexivity].
  apply trim_no_separator, toCamelCase_no_separator.
Qed.

(** X4: Whether a collection with a name of ASCII characters is treated as
    an authentication collection depends on the letters of its raw name
    alone: the name is looked up with its hyphens, underscores and white
    space taken out and in lower case, so ["Users"], ["user_s"] and
    ["Ad Min"] all count. *)
Theorem auth_detection_by_letters (c : RawCollection) (p : Collection) (n : string) :
  processCollection c = inr p -> raw_name c = Some n -> isAsciiText n = true ->
  isAuthCollectionConfig p = includes authNames (toLowerCase (keepChars notSeparator n))
  /\ isAuthCollection (trim (toCamelCase n))
     = includes authNames (toLowerCase (keepChars notSeparator n)).
Proof.
  intros Hp Hn _. destruct (processCollection_name c p n Hp Hn) as [Hname _].
  unfold isAuthCollectionConfig, isAuthCollection.
  rewrite Hname, (trim_no_separator _ (toCamelCase_no_separator n)).
  now rewrite toLowerCase_toCamelCase.
Qed.

Lemma auth_detection_by_letters_witness :
  isAuthCollectionConfig {| name := "adMin"; fields := []; dataType := "object" |} = true
  /\ isAuthCollection (trim (toCamelCase "Ad Min")) = true.
Proof.
  exact (auth_detection_by_letters
           {| raw_name := Some "Ad Min"; raw_fields := Some []; raw_dataType := None |}
           {| name := "adMin"; fields := []; dataType := "object" |}
           "Ad Min" eq_refl eq_refl eq_refl).
Defined.

End AuthDetection.

(** ** generateStore: the names the helpers receive *)

Section NamesHandedOver.
Import Js Naming Store.

Lemma processNames_good names : Forall goodName (processNames names).
Proof.
  apply Forall_forall. intros s Hin. unfold processNames in Hin.
  apply list_elem_of_filter in Hin as [Hp Hin].
  split; [now apply truthy_nonempty|].
  apply list_elem_of_fmap in Hin as (c & -> & _).
  now rewrite (trim_no_separator _ (toCamelCase_no_separator c)), toCamelCase_no_separator.
Qed.

Lemma mapThrowing_names cs ps :
  mapThrowing cs = inr ps -> Forall (fun p => allChars notSeparator (name p) = true) ps.
Proof.
  revert ps. induction cs as [|c r IH]; simpl; intros ps H.
  - injection H as <-. constructor.
  - destruct (processCollection c) as [e|p] eqn:Hc; [discriminate|].
    destruct (mapThrowing r) as [e|rest]; [discriminate|].
    injection H as <-. constructor; [|now apply IH].
    unfold processCollection in Hc.
    destruct (raw_name c) as [n|]; [|discriminate].
    destruct (raw_fields c) as [f|]; [|discriminate].
    destruct (truthy n); [|discriminate]. injection Hc as <-. simpl.
    now rewrite (trim_no_separator _ (toCamelCase_no_separator n)), toCamelCase_no_separator.
Qed.

Lemma processCollections_good cs ps :
  processCollections cs = inr ps -> Forall (fun p => goodName (name p)) ps.
Proof.
  unfold processCollections. destruct (mapThrowing cs) as [e|every] eqn:Hm; [discriminate|].
  intros [= <-]. apply Forall_forall. intros p Hin.
  apply list_elem_of_filter in Hin as [Hp Hin]. split; [now apply truthy_nonempty|].
  pose proof (mapThrowing_names cs every Hm) as Hall.
  rewrite Forall_forall in Hall. now apply Hall.
Qed.

Lemma good_sublist {A} (P : A -> Prop) (q : A -> Prop) {Hdec : forall x, Decision (q x)} l :
  Forall P l -> Forall P (filter q l).
Proof.
  intros H. apply Forall_forall. intros x Hin.
  apply list_elem_of_filter in Hin as [_ Hin].
  rewrite Forall_forall in H. now apply H.
Qed.

Lemma good_names_of_configs (l : list Collection) n :
  Forall (fun p => goodName (name p)) l -> In n (map collArgName (map ByConfig l)) -> goodName n.
Proof.
  intros H Hin. rewrite map_map in Hin. apply in_map_iff in Hin as (p & <- & Hp).
  rewrite Forall_forall in H. apply H. now apply list_elem_of_In.
Qed.

Lemma good_names_of_names (l : list string) n :
  Forall goodName l -> In n (map collArgName (map ByName l)) -> goodName n.
Proof.
  intros H Hin. rewrite map_map in Hin. apply in_map_iff in Hin as (p & <- & Hp).
  rewrite Forall_forall in H. apply H. now apply list_elem_of_In.
Qed.

Lemma good_names_plain (l : list Collection) n :
  Forall (fun p => goodName (name p)) l -> In n (map name l) -> goodName n.
Proof.
  intros H Hin. apply in_map_iff in Hin as (p & <- & Hp).
  rewrite Forall_forall in H. apply H. now apply list_elem_of_In.
Qed.

Lemma good_member (l : list string) n : Forall goodName l -> In n l -> goodName n.
Proof. intros H Hin. rewrite Forall_forall in H. apply H. now apply list_elem_of_In. Qed.

Lemma generateStore_names (o : Options) a n :
  In a (actions (generateStore o)) -> In n (namesHandedOver a) -> goodName n.
Proof.
  unfold generateStore.
  destruct (storeNameFalsy _); [intros [<-|[]] []|].
  destruct (collectionsFalsyOrEmpty _); [intros [<-|[]] []|].
  destruct (orDefault "appStore" (storeName o)) as [| |sn]; try (intros [<-|[]] []).
  destruct (orDefault [] (collections o)) as [| |cs]; try (intros [<-|[]] []).
  destruct (processCollections cs) as [e|ps] eqn:Hps; [intros [<-|[]] []|].
  pose proof (processCollections_good cs ps Hps) as Hgood.
  pose proof (good_sublist _ (fun c => isAuthCollectionConfig c = true) ps Hgood) as Hauth.
  cbn [actions]. intros Hin Hn. rewrite !in_app_iff in Hin. simpl In in Hin.
  destruct Hin as [[<-|[<-|[<-|[]]]]|[Hin|[Hin|[[<-|[]]|[Hin|[<-|[<-|[]]]]]]]];
    simpl in Hn.
  - destruct Hn.
  - apply in_app_or in Hn as [Hn|Hn]; eauto using good_names_of_configs.
  - eauto using good_names_of_configs.
  - apply in_map_iff in Hin as (p & <- & Hp). simpl in Hn. destruct Hn as [<-|[]].
    rewrite Forall_forall in Hgood. apply Hgood. now apply list_elem_of_In.
  - apply in_flat_map in Hin as (p & Hp & [<-|[<-|[]]]); simpl in Hn;
      destruct Hn as [<-|[]]; rewrite Forall_forall in Hgood; apply Hgood;
      now apply list_elem_of_In.
  - apply in_app_or in Hn as [Hn|Hn]; eauto using good_names_plain.
  - destruct (addActivityLogging o); [|destruct Hin].
    destruct Hin as [<-|[]]. destruct Hn.
  - apply in_app_or in Hn as [Hn|Hn]; eauto using good_names_of_configs.
  - destruct Hn.
Qed.

Lemma generateStoreV1_names (o : OptionsV1) a n :
  In a (actions (generateStoreV1 o)) -> In n (namesHandedOver a) -> goodName n.
Proof.
  unfold generateStoreV1.
  destruct (storeNameFalsy _); [intros [<-|[]] []|].
  destruct (collectionsFalsyOrEmpty _); [intros [<-|[]] []|].
  destruct (orDefault "appStore" (storeName1 o)) as [| |sn]; try (intros [<-|[]] []).
  destruct (orDefault [] (collections1 o)) as [| |cs]; try (intros [<-|[]] []).
  pose proof (processNames_good cs) as Hgood.
  pose proof (good_sublist _ (fun c => isAuthCollection c = true) _ Hgood) as Hauth.
  cbn [actions]. intros Hin Hn. rewrite !in_app_iff in Hin. simpl In in Hin.
  destruct Hin as [[<-|[<-|[<-|[]]]]|[Hin|[[<-|[]]|[Hin|[<-|[<-|[]]]]]]];
    simpl in Hn.
  - destruct Hn.
  - apply in_app_or in Hn as [Hn|Hn]; eauto using good_names_of_names.
  - eauto using good_names_of_names.
  - apply in_map_iff in Hin as (p & <- & Hp). simpl in Hn. destruct Hn as [<-|[]].
    now apply (good_member _ _ Hgood).
  - apply in_app_or in Hn as [Hn|Hn]; eauto using good_member.
  - destruct (addActivityLogging1 o); [|destruct Hin].
    destruct Hin as [<-|[]]. destruct Hn.
  - apply in_app_or in Hn as [Hn|Hn]; eauto using good_names_of_names.
  - destruct Hn.
Qed.

(** X5: Every collection name that a run of [generateStore], of either
    generation, hands to a helper generator is non-empty and free of
    hyphens, underscores and white space. *)
Theorem helpers_receive_clean_names (o : Options) (o1 : OptionsV1) (a : Action) (n : string) :
  In a (actions (generateStore o) ++ actions (generateStoreV1 o1)) ->
  In n (namesHandedOver a) ->
  n <> "" /\ allChars notSeparator n = true.
Proof.
  intros Hin Hn. apply in_app_or in Hin as [Hin|Hin].
  - exact (generateStore_names o a n Hin Hn).
  - exact (generateStoreV1_names o1 a n Hin Hn).
Qed.

End NamesHandedOver.

Section NamesHandedOverWitness.
Import Js Naming Store.

Lemma helpers_receive_clean_names_witness :
  "userProfiles" <> "" /\ allChars notSeparator "userProfiles" = true.
Proof.
  refine (helpers_receive_clean_names
            {| storeName := Undefined;
               collections :=
                 Val [ {| raw_name := Some "user profiles"; raw_fields := Some [];
                          raw_dataType := None |} ];
               roles := []; addActivityLogging := false |}
            {| storeName1 := Undefined; collections1 := Val ["users"];
               roles1 := []; addActivityLogging1 := false |}
            (ValidationModule "src/stores/appStore"
               {| name := "userProfiles"; fields := []; dataType := "object" |})
            "userProfiles" _ _).
  - vm_compute. repeat (first [left; reflexivity | right]).
  - simpl. now left.
Defined.

End NamesHandedOverWitness.

(** ** helperF.js: [writeFile] *)

Section WriteFile.
Import Js Naming Helper.

Lemma trimEnd_whitespace w : allChars isWhiteSpace w = true -> trimEnd w = "".
Proof.
  induction w as [|c r IH]; [reflexivity|]. simpl.
  intros H. apply andb_true_iff in H as [Hc Hr]. now rewrite (IH Hr), Hc.
Qed.

Lemma trimStart_whitespace w : allChars isWhiteSpace w = true -> trimStart w = "".
Proof.
  induction w as [|c r IH]; [reflexivity|]. simpl.
  intros H. apply andb_true_iff in H as [Hc Hr]. now rewrite Hc, (IH Hr).
Qed.

Lemma trimEnd_append_whitespace s w :
  allChars isWhiteSpace w = true -> trimEnd (s ++ w) = trimEnd s.
Proof.
  intros Hw. induction s as [|c r IH].
  - now rewrite append_nil_l, (trimEnd_whitespace w Hw).
  - rewrite append_cons. simpl. now rewrite IH.
Qed.

Lemma trimEnd_idem s : trimEnd (trimEnd s) = trimEnd s.
Proof.
  induction s as [|c r IH]; [reflexivity|]. simpl.
  destruct (trimEnd r) as [|e t] eqn:Ht.
  - destruct (isWhiteSpace c) eqn:Hc; [reflexivity|]. simpl. now rewrite Hc.
  - simpl. simpl in IH. now rewrite IH.
Qed.

Lemma trimStart_first s c r : trimStart s = String c r -> isWhiteSpace c = false.
Proof.
  induction s as [|d s' IH]; [discriminate|]. simpl.
  destruct (isWhiteSpace d) eqn:Hd; [exact IH|]. now intros [= <- _].
Qed.

Lemma trimEnd_keeps_first c r :
  isWhiteSpace c = false -> exists t, trimEnd (String c r) = String c t.
Proof.
  intros Hc. simpl. destruct (trimEnd r) as [|e t]; [rewrite Hc|]; eauto.
Qed.

Lemma trim_first s c r : trim s = String c r -> isWhiteSpace c = false.
Proof.
  unfold trim. destruct (trimStart s) as [|d t] eqn:Hs; [discriminate|].
  pose proof (trimStart_first s d t Hs) as Hd.
  destruct (trimEnd_keeps_first d t Hd) as [u Hu]. rewrite Hu.
  now intros [= <- _].
Qed.

Lemma trimStart_of_first c r : isWhiteSpace c = false -> trimStart (String c r) = String c r.
Proof. intros Hc. simpl. now rewrite Hc. Qed.

(** Trimming what was trimmed, with or without white space after it, gives
    the same text. *)
Lemma trim_of_trimmed s w :
  allChars isWhiteSpace w = true -> trim (trim s ++ w) = trim s.
Proof.
  intros Hw. destruct (trim s) as [|c r] eqn:Ht.
  - rewrite append_nil_l. unfold trim. now rewrite (trimStart_whitespace w Hw).
  - pose proof (trim_first s c r Ht) as Hc.
    unfold trim at 1. rewrite append_cons, (trimStart_of_first c _ Hc), <- append_cons.
    rewrite (trimEnd_append_whitespace _ w Hw), <- Ht.
    unfold trim. apply trimEnd_idem.
Qed.

Lemma trim_idem s : trim (trim s) = trim s.
Proof.
  rewrite <- (append_empty_r (trim s)) at 1. now apply trim_of_trimmed.
Qed.

(** X6: [writeFile] either fails with the path and the cause in its message
    and leaves the disk alone, or stores the content trimmed and closed by
    one line feed, at that path and nowhere else; writing a file back as it
    was stored stores the same text again. *)
Theorem writeFile_stores_trimmed (filePath content : string) (d : Disk) :
  match unwritable d filePath with
  | Some cause =>
      writeFile filePath content d
      = inl ("Failed to write file: " ++ filePath ++ newline ++ cause)
  | None =>
      exists d',
        writeFile filePath content d = inr d'
        /\ files d' !! filePath = Some (trim content ++ newline)
        /\ (forall other, other <> filePath -> files d' !! other = files d !! other)
        /\ writeFile filePath (trim content ++ newline) d = inr d'
  end.
Proof.
  unfold writeFile, writeFileSync.
  destruct (unwritable d filePath) as [cause|]; [reflexivity|].
  eexists. split; [reflexivity|]. simpl. split; [apply lookup_insert_eq|].
  split.
  - intros other Hne. now apply lookup_insert_ne.
  - rewrite trim_of_trimmed; reflexivity.
Qed.

End WriteFile.

(** ** The command line: the roles it hands to the store generator *)

Section CommandLine.
Import Js Naming Store.

Lemma splitComma_nonempty s : Cli.splitComma s <> [].
Proof.
  destruct s as [|c r]; simpl; [discriminate|].
  destruct (Ascii.eqb c ","); [discriminate|].
  destruct (Cli.splitComma r); discriminate.
Qed.

(** X8: Whatever is typed at the roles prompt, the list of roles is not empty
    (a blank answer gives the one role [""]): once role-based authorization
    is chosen, the first generation's module has its role actions for every
    authentication collection, and the second generation's module is never
    one that parses. *)
Theorem roles_answer_never_empty (answer : string) :
  Cli.rolesAnswer answer <> []
  /\ Cli.rolesAnswer "" = [""]
  /\ (forall auth collectionName,
        Firestore.hasRoleActions (Cli.rolesAnswer answer) auth collectionName
        = Firestore.includesName auth collectionName)
  /\ (forall logging, Advanced.moduleParses (Cli.rolesAnswer answer) logging = false).
Proof.
  unfold Cli.rolesAnswer.
  pose proof (splitComma_nonempty answer) as Hne.
  destruct (Cli.splitComma answer) as [|e es]; [congruence|].
  repeat split; discriminate.
Qed.

End CommandLine.

(** ** The collection actions: [_checkRole] and [buildWhereClause] *)

Section RoleCheck.
Import Js Firestore.

Lemma basic_checkRole_result role (w : World Basic.Filters) :
  Basic._checkRole role w
  = (if holdsRole role (currentUser (st w)) then Returned tt
     else match currentUser (st w) with
          | Some user =>
              match userRoles user with
              | Some _ => Thrown ("User lacks required role: " ++ role)
              | None => Thrown "User not authenticated"
              end
          | None => Thrown "User not authenticated"
          end, w).
Proof.
  unfold Basic._checkRole, bind, getUser, throw, ret, holdsRole.
  destruct (currentUser (st w)) as [u|]; [|reflexivity].
  destruct (userRoles u) as [rs|]; [|reflexivity].
  now destruct (includes rs role).
Qed.

Lemma advanced_checkRole_result role (w : World Advanced.Filters) :
  Advanced._checkRole role w
  = (if hasUid (currentUser (st w)) then
       if holdsRole role (currentUser (st w)) then Returned tt
       else Thrown ("User lacks required role: " ++ role)
     else Thrown "Authentication required for this operation.", w).
Proof.
  unfold Advanced._checkRole, bind, getUser, throw, ret, holdsRole, hasUid.
  destruct (currentUser (st w)) as [u|]; [|reflexivity].
  destruct (uid u) as [[|c s]|]; try reflexivity. simpl.
  destruct (userRoles u) as [rs|]; [|reflexivity].
  now destruct (includes rs role).
Qed.

(** X9: [_checkRole(role)] changes nothing, and lets through exactly the
    signed-in users whose [roles] array holds the role; the second
    generation asks for a non-empty [uid] besides, so a user object without
    one passes the first generation's check and fails the second's. *)
Theorem checkRole_lets_through (role : string)
    (w1 : World Basic.Filters) (w2 : World Advanced.Filters) :
  snd (Basic._checkRole role w1) = w1
  /\ (fst (Basic._checkRole role w1) = Returned tt
      <-> holdsRole role (currentUser (st w1)) = true)
  /\ snd (Advanced._checkRole role w2) = w2
  /\ (fst (Advanced._checkRole role w2) = Returned tt
      <-> hasUid (currentUser (st w2)) = true
          /\ holdsRole role (currentUser (st w2)) = true).
Proof.
  rewrite basic_checkRole_result, advanced_checkRole_result. simpl.
  split; [reflexivity|]. split.
  - destruct (holdsRole role (currentUser (st w1))); [tauto|].
    split; [|discriminate].
    destruct (currentUser (st w1)) as [u|]; [destruct (userRoles u)|]; discriminate.
  - split; [reflexivity|].
    destruct (hasUid (currentUser (st w2))), (holdsRole role (currentUser (st w2)));
      split; try tauto; try discriminate; intros [? ?]; discriminate.
Qed.

End RoleCheck.

Section WhereClauses.
Import Js Firestore.

Lemma buildWhereClause_result f :
  Advanced.buildWhereClause f
  = if supported f then inr (if hasValue f then [whereOf f] else [])
    else inl (refusal f).
Proof.
  unfold Advanced.buildWhereClause, supported, hasValue, refusal, takesValue, takesArray,
    whereOf.
  generalize (includes ["=="; "!="; "<"; "<="; ">"; ">="; "array-contains"]
                       (Advanced.operator f)).
  generalize (includes ["array-contains-any"; "in"; "not-in"] (Advanced.operator f)).
  intros arrayOp valueOp.
  destruct (Advanced.emptyFilterValue (Advanced.value f)), valueOp, arrayOp,
    (Validation.isArray (Advanced.value f)); reflexivity.
Qed.

(** X10: The filters of a query become its [where] clauses one by one and in
    order, those without a value being left out whatever their operator;
    the first filter with a value and an operator that is unknown, or that
    wants an array and has none, makes the whole call throw, with the
    message for that filter. *)
Theorem filters_become_where_clauses (filters : Advanced.Filters) :
  Advanced.filterConstraints filters
  = match List.find (fun f => negb (supported f)) filters with
    | Some bad => inl (refusal bad)
    | None => inr (map whereOf (List.filter hasValue filters))
    end.
Proof.
  induction filters as [|f r IH]; [reflexivity|].
  simpl. rewrite buildWhereClause_result, IH.
  destruct (supported f); simpl; [|reflexivity].
  destruct (List.find _ r); [reflexivity|].
  now destruct (hasValue f).
Qed.

End WhereClauses.

(** ** The collection actions: [remove], [add] *)

Section Removal.
Import Js Firestore Writes.

Lemma recordingError_thrown {F A} (m : M F A) (w : World F) e :
  fst (m w) = Thrown e ->
  fst (recordingError m w) = Thrown e
  /\ error (st (snd (recordingError m w))) = Some e
  /\ db (snd (recordingError m w)) = db (snd (m w)).
Proof.
  unfold recordingError. destruct (m w) as [[a|e'] w']; simpl; [discriminate|].
  intros [= ->]. auto.
Qed.

Lemma recordingError_returned {F A} (m : M F A) (w : World F) a :
  fst (m w) = Returned a -> recordingError m w = m w.
Proof.
  unfold recordingError. destruct (m w) as [[a'|e'] w']; simpl; [reflexivity | discriminate].
Qed.

(** X11: First generation: with roles configured, [remove] on an
    authentication collection is for admins only, and a caller who is not
    one gets the error of the role check, recorded in [state.error], while
    the store keeps its documents; in every other case [remove] goes to the
    store without a check, whoever calls. *)
Theorem basic_remove_gate (roles : list string) (auth : list Store.CollArg)
    (name id : string) (w : World Basic.Filters) :
  let r := BasicWrites.remove roles auth name id w in
  if hasRoleActions roles auth name && negb (holdsRole "admin" (currentUser (st w)))
  then (exists e, fst r = Thrown e /\ error (st (snd r)) = Some e)
       /\ docs (db (snd r)) = docs (db w)
  else match outage (db w) with
       | None => fst r = Returned tt
                 /\ docs (db (snd r)) = delete id (docs (db w))
                 /\ st (snd r) = st w
       | Some e => fst r = Thrown e
                   /\ docs (db (snd r)) = docs (db w)
                   /\ error (st (snd r)) = Some e
       end.
Proof.
  cbv zeta. unfold BasicWrites.remove, hasRoleActions.
  assert (Hplain : forall m : M Basic.Filters unit,
            m w = (Returned tt, w) ->
            match outage (db w) with
            | None =>
                fst (recordingError (m ;;; deleteDoc id) w) = Returned tt
                /\ docs (db (snd (recordingError (m ;;; deleteDoc id) w)))
                   = delete id (docs (db w))
                /\ st (snd (recordingError (m ;;; deleteDoc id) w)) = st w
            | Some e =>
                fst (recordingError (m ;;; deleteDoc id) w) = Thrown e
                /\ docs (db (snd (recordingError (m ;;; deleteDoc id) w))) = docs (db w)
                /\ error (st (snd (recordingError (m ;;; deleteDoc id) w))) = Some e
            end).
  { intros m Hm. unfold recordingError, bind, deleteDoc. rewrite Hm.
    destruct (outage (db w)); simpl; auto. }
  destruct roles as [|r0 rs]; [exact (Hplain _ eq_refl)|].
  destruct (includesName auth name); [|exact (Hplain _ eq_refl)].
  simpl andb.
  pose proof (basic_checkRole_result "admin" w) as Hcheck.
  destruct (holdsRole "admin" (currentUser (st w))) eqn:Hadmin; simpl negb; cbv iota.
  - exact (Hplain _ Hcheck).
  - unfold recordingError, bind. rewrite Hcheck.
    destruct (currentUser (st w)) as [u|]; [destruct (userRoles u)|]; simpl; eauto.
Qed.

(** X12: Second generation: in every module that parses, [remove] goes to the
    store without a role check, on authentication collections too and for
    a caller who is not signed in; the admin check is in the emitted text
    only together with the role check that keeps the file from parsing. *)
Theorem advanced_remove_is_not_gated (roles : list string) (auth : list Store.CollArg)
    (logging : bool) (name : string) (actions : AdvancedWrites.WriteActions)
    (id : string) (w : World Advanced.Filters) :
  AdvancedWrites.useWriteActions roles auth logging name = Some actions ->
  outage (db w) = None ->
  fst (AdvancedWrites.actRemove actions id w) = Returned tt
  /\ docs (db (snd (AdvancedWrites.actRemove actions id w))) = delete id (docs (db w))
  /\ st (snd (AdvancedWrites.actRemove actions id w)) = st w.
Proof.
  unfold AdvancedWrites.useWriteActions, Advanced.moduleParses.
  destruct roles as [|r0 rs]; [|discriminate].
  destruct logging; [discriminate|]. intros [= <-] Hup. simpl.
  unfold AdvancedWrites.remove, Advanced.recordingAndLogging, bind, ret, deleteDoc,
    Advanced._logActivity.
  now rewrite Hup.
Qed.

Lemma advanced_remove_is_not_gated_witness :
  fst (AdvancedWrites.remove [] false [Store.ByName "users"] "users" "u1"
         (freshWorld [] None usersDb)) = Returned tt
  /\ docs (db (snd (AdvancedWrites.remove [] false [Store.ByName "users"] "users" "u1"
                      (freshWorld [] None usersDb))))
     = delete "u1" (docs (db (freshWorld (F:=Advanced.Filters) [] None usersDb)))
  /\ st (snd (AdvancedWrites.remove [] false [Store.ByName "users"] "users" "u1"
                (freshWorld [] None usersDb)))
     = st (freshWorld [] None usersDb).
Proof.
  exact (advanced_remove_is_not_gated [] [Store.ByName "users"] false "users"
           {| AdvancedWrites.actAdd := AdvancedWrites.add false [Store.ByName "users"] "users";
              AdvancedWrites.actUpdate :=
                AdvancedWrites.update false [Store.ByName "users"] "users";
              AdvancedWrites.actRemove :=
                AdvancedWrites.remove [] false [Store.ByName "users"] "users" |}
           "u1" (freshWorld [] None usersDb) eq_refl eq_refl).
Defined.

End Removal.

Section Stamping.
Import Js Firestore Writes.

Lemma lookup_setProp_eq props k v : Validation.lookupProp (setProp props k v) k = v.
Proof.
  induction props as [|[k' x] r IH]; simpl.
  - now rewrite String.eqb_refl.
  - destruct (String.eqb k' k) eqn:Hk; simpl; rewrite Hk; [reflexivity | exact IH].
Qed.

Lemma lookup_setProp_ne props k k' v :
  k <> k' -> Validation.lookupProp (setProp props k v) k' = Validation.lookupProp props k'.
Proof.
  intros Hne. induction props as [|[k0 x] r IH]; simpl.
  - destruct (String.eqb_spec k k'); [contradiction | reflexivity].
  - destruct (String.eqb_spec k0 k) as [->|Hk]; simpl.
    + destruct (String.eqb_spec k k'); [contradiction | reflexivity].
    + destruct (String.eqb k0 k'); [reflexivity | exact IH].
Qed.

Lemma lookup_setProp props k k' v :
  Validation.lookupProp (setProp props k v) k'
  = if String.eqb k' k then v else Validation.lookupProp props k'.
Proof.
  destruct (String.eqb_spec k' k) as [->|Hne].
  - apply lookup_setProp_eq.
  - apply lookup_setProp_ne. congruence.
Qed.

Lemma stampedBy_lookup key u data k :
  Validation.lookupProp (payload (stampedBy key u data)) k
  = if String.eqb k key && hasUid u then Validation.VString (uidOf u)
    else Validation.lookupProp (payload data) k.
Proof.
  unfold stampedBy, hasUid, uidOf.
  destruct u as [user|]; [|now rewrite andb_false_r].
  destruct (uid user) as [id|]; [|now rewrite andb_false_r]. simpl.
  destruct (truthy id); [|now rewrite andb_false_r].
  simpl. rewrite lookup_setProp, andb_true_r. reflexivity.
Qed.

Lemma stampedBy_roles key u data : roles (stampedBy key u data) = roles data.
Proof.
  unfold stampedBy. destruct u as [user|]; [|reflexivity].
  destruct (uid user) as [id|]; [|reflexivity]. now destruct (truthy id).
Qed.

(** X13: [add] stores the caller's document under the new identifier.  On an
    authentication collection, with a user signed in, its [createdBy] is
    that user's [uid] whatever the caller put there; otherwise every field
    is stored as given, [createdBy] included.  The second generation sets
    [createdAt] to the server's time stamp besides, over the caller's, and
    returns the identifier. *)
Theorem add_stamps_the_creator (auth : list Store.CollArg) (name newId : string)
    (data : DocData) (now : Validation.Value) (logging : bool)
    (w1 : World Basic.Filters) (w2 : World Advanced.Filters) :
  outage (db w1) = None -> outage (db w2) = None ->
  (exists stored,
     fst (BasicWrites.add auth name newId data w1) = Returned tt
     /\ docs (db (snd (BasicWrites.add auth name newId data w1)))
        = <[newId := stored]> (docs (db w1))
     /\ roles stored = roles data
     /\ forall k,
          Validation.lookupProp (payload stored) k
          = if String.eqb k "createdBy" && (includesName auth name
                                            && hasUid (currentUser (st w1)))
            then Validation.VString (uidOf (currentUser (st w1)))
            else Validation.lookupProp (payload data) k)
  /\ (exists stored,
        fst (AdvancedWrites.add logging auth name now newId data w2) = Returned newId
        /\ docs (db (snd (AdvancedWrites.add logging auth name now newId data w2)))
           = <[newId := stored]> (docs (db w2))
        /\ roles stored = roles data
        /\ forall k,
             Validation.lookupProp (payload stored) k
             = if String.eqb k "createdBy" && (includesName auth name
                                               && hasUid (currentUser (st w2)))
               then Validation.VString (uidOf (currentUser (st w2)))
               else if String.eqb k "createdAt" then now
                    else Validation.lookupProp (payload data) k).
Proof.
  intros Hup1 Hup2. split.
  - exists (if includesName auth name
            then stampedBy "createdBy" (currentUser (st w1)) data else data).
    unfold BasicWrites.add, recordingError, bind, getUser, addDoc, ret. simpl.
    rewrite Hup1. simpl. split; [reflexivity|]. split; [reflexivity|].
    destruct (includesName auth name); simpl.
    + split; [apply stampedBy_roles|]. intros k. apply stampedBy_lookup.
    + split; [reflexivity|]. intros k. now rewrite andb_false_r.
  - exists (if includesName auth name
            then stampedBy "createdBy" (currentUser (st w2))
                   (AdvancedWrites.timestamped "createdAt" now data)
            else AdvancedWrites.timestamped "createdAt" now data).
    unfold AdvancedWrites.add, Advanced.recordingAndLogging, bind, getUser, addDoc, ret,
      Advanced._logActivity. simpl.
    rewrite Hup2. simpl.
    split; [now destruct logging; simpl; rewrite ?Hup2|].
    split; [now destruct logging; simpl; rewrite ?Hup2|].
    destruct (includesName auth name); simpl.
    + split; [now rewrite stampedBy_roles|]. intros k.
      rewrite stampedBy_lookup. simpl. now rewrite lookup_setProp.
    + split; [reflexivity|]. intros k. now rewrite andb_false_r, lookup_setProp.
Qed.

Lemma add_stamps_the_creator_witness :
  exists stored,
    docs (db (snd (BasicWrites.add [Store.ByName "users"] "users" "u2"
                     {| roles := None;
                        payload := [("createdBy", Validation.VString "someone")] |}
                     (freshWorld [] (Some adminUser) usersDb))))
    = <["u2" := stored]> (docs usersDb)
    /\ Validation.lookupProp (payload stored) "createdBy" = Validation.VString "a1".
Proof.
  destruct (add_stamps_the_creator [Store.ByName "users"] "users" "u2"
              {| roles := None; payload := [("createdBy", Validation.VString "someone")] |}
              Validation.VNull false
              (freshWorld [] (Some adminUser) usersDb)
              (freshWorld [] (Some adminUser) usersDb) eq_refl eq_refl)
    as [(stored & _ & Hdocs & _ & Hfield) _].
  exists stored. split; [exact Hdocs|]. exact (Hfield "createdBy").
Defined.

End Stamping.

(** ** The collection actions: [applyFilters], [changeSorting] *)

Section FreshFirstPage.
Import Js Firestore Writes.

Lemma basic_first_page options (w : World Basic.Filters) :
  outage (db w) = None ->
  Basic.requestedPageSize options (view (st w)) <> 0 ->
  fst (Basic.fetchInitialPage options w) = Returned tt
  /\ items (view (st (snd (Basic.fetchInitialPage options w))))
     = firstn (Basic.requestedPageSize options (view (st w)))
              (scan (db w) (selectionOf options (view (st w))))
  /\ lastVisible (view (st (snd (Basic.fetchInitialPage options w))))
     = lastDoc (items (view (st (snd (Basic.fetchInitialPage options w))))).
Proof.
  intros Hup Hsize.
  destruct (basic_fetchInitialPage_run options w Hup Hsize)
    as (Hret & Hitems & _ & Hlast & _).
  assert (Hsel : selectionOnly (selectionOf options (view (st w)))).
  { apply selectionOnly_app;
      [apply basic_filterConstraints_selection | apply basic_sortConstraints_selection]. }
  rewrite basic_initial_constraints in Hitems, Hlast.
  fold (selectionOf options (view (st w))) in Hitems, Hlast.
  rewrite (queryRows_first _ _ _ Hsel) in Hitems, Hlast.
  rewrite Hlast, Hitems. auto.
Qed.

(** X14: First generation: [applyFilters] and [changeSorting] start the list
    over.  When the store answers, the items are the first page of the
    selection under the new filters (the new order), whatever was loaded
    before; the cursor is the last of them; the page size stays, and so
    does what was not set: the order for [applyFilters], the filters for
    [changeSorting], whose direction is ascending unless given. *)
Theorem first_generation_starts_over (f : Basic.Filters) (field : string)
    (direction : option string) (w : World Basic.Filters) :
  outage (db w) = None -> pageSize (view (st w)) <> 0 ->
  (let w' := snd (BasicWrites.applyFilters f w) in
   fst (BasicWrites.applyFilters f w) = Returned tt
   /\ filters (view (st w')) = f
   /\ orderBy (view (st w')) = orderBy (view (st w))
   /\ pageSize (view (st w')) = pageSize (view (st w))
   /\ items (view (st w'))
      = firstn (pageSize (view (st w)))
               (scan (db w) (Basic.filterConstraints f
                             ++ Basic.sortConstraints (orderBy (view (st w)))))
   /\ lastVisible (view (st w')) = lastDoc (items (view (st w'))))
  /\ (let sortConfig := {| sortField := field;
                           Firestore.direction := Some (default "asc" direction) |} in
      let w' := snd (BasicWrites.changeSorting field direction w) in
      fst (BasicWrites.changeSorting field direction w) = Returned tt
      /\ filters (view (st w')) = filters (view (st w))
      /\ orderBy (view (st w')) = Some sortConfig
      /\ pageSize (view (st w')) = pageSize (view (st w))
      /\ items (view (st w'))
         = firstn (pageSize (view (st w)))
                  (scan (db w) (Basic.filterConstraints (filters (view (st w)))
                                ++ Basic.sortConstraints (Some sortConfig)))
      /\ lastVisible (view (st w')) = lastDoc (items (view (st w')))).
Proof.
  intros Hup Hsize. split; cbv zeta.
  - set (options := {| Basic.optPageSize := None; Basic.optFilters := Some f;
                       Basic.optOrderBy := None |}).
    set (w1 := snd (setView (withFilters f (view (st w))) w)).
    assert (Hrun : BasicWrites.applyFilters f w = Basic.fetchInitialPage options w1)
      by reflexivity.
    rewrite Hrun.
    assert (Hup1 : outage (db w1) = None) by exact Hup.
    assert (Hsize1 : Basic.requestedPageSize options (view (st w1)) <> 0) by exact Hsize.
    destruct (basic_fetchInitialPage_run options w1 Hup1 Hsize1)
      as (_ & _ & _ & _ & Hfilters & Hsort & Hpage & _).
    destruct (basic_first_page options w1 Hup1 Hsize1) as (Hret & Hitems & Hlast).
    repeat split; assumption.
  - set (sortConfig := {| sortField := field;
                          Firestore.direction := Some (default "asc" direction) |}).
    set (options := {| Basic.optPageSize := None; Basic.optFilters := None;
                       Basic.optOrderBy := Some sortConfig |}).
    set (w1 := snd (setView (withOrderBy sortConfig (view (st w))) w)).
    assert (Hrun : BasicWrites.changeSorting field direction w
                   = Basic.fetchInitialPage options w1) by reflexivity.
    rewrite Hrun.
    assert (Hup1 : outage (db w1) = None) by exact Hup.
    assert (Hsize1 : Basic.requestedPageSize options (view (st w1)) <> 0) by exact Hsize.
    destruct (basic_fetchInitialPage_run options w1 Hup1 Hsize1)
      as (_ & _ & _ & _ & Hfilters & Hsort & Hpage & _).
    destruct (basic_first_page options w1 Hup1 Hsize1) as (Hret & Hitems & Hlast).
    repeat split; assumption.
Qed.

Lemma first_generation_starts_over_witness :
  items (view (st (snd (BasicWrites.applyFilters [("kind", Validation.VString "a")]
                          (snd (Basic.fetchInitialPage pageOfTwo
                                  (freshWorld [] None twoRowsDb)))))))
  = firstn 2 (scan twoRowsDb [Where "kind" "==" (Validation.VString "a")]).
Proof.
  destruct (first_generation_starts_over [("kind", Validation.VString "a")] "" None
              (snd (Basic.fetchInitialPage pageOfTwo (freshWorld [] None twoRowsDb)))
              eq_refl (fun H => O_S 1 (eq_sym H)))
    as ((_ & _ & _ & _ & Hitems & _) & _).
  exact Hitems.
Defined.

(** X15: Second generation: filters that [buildWhereClause] refuses stay.
    [applyFilters] writes them to the state before it fetches, so the call
    throws, with the refusal recorded in [state.error], and from then on
    every [fetchInitialPage] that brings no filters of its own throws the
    same, as does [fetchNextPage] when a page is pending. *)
Theorem refused_filters_stay (logging : bool) (f : Advanced.Filters) (e : string)
    (w : World Advanced.Filters) :
  Advanced.filterConstraints f = inl e ->
  let w' := snd (AdvancedWrites.applyFilters logging f w) in
  fst (AdvancedWrites.applyFilters logging f w) = Thrown e
  /\ filters (view (st w')) = f
  /\ error (st w') = Some e
  /\ loading (st w') = false
  /\ (forall options,
        Advanced.optFilters options = None ->
        fst (Advanced.fetchInitialPage logging options w') = Thrown e)
  /\ (forall cursor,
        lastVisible (view (st w')) = Some cursor -> hasMore (view (st w')) = true ->
        fst (Advanced.fetchNextPage logging w') = Thrown e).
Proof.
  intros Hbad. cbv zeta.
  assert (Hfetch : forall options (w0 : World Advanced.Filters),
            default (filters (view (st w0))) (Advanced.optFilters options) = f ->
            fst (Advanced.fetchInitialPage logging options w0) = Thrown e
            /\ filters (view (st (snd (Advanced.fetchInitialPage logging options w0))))
               = filters (view (st w0))
            /\ error (st (snd (Advanced.fetchInitialPage logging options w0))) = Some e
            /\ loading (st (snd (Advanced.fetchInitialPage logging options w0))) = false).
  { intros options w0 Hf.
    unfold Advanced.fetchInitialPage, finallyNotLoading, Advanced.recordingAndLogging,
      Advanced.whereClauses, bind, getView, setLoading, throw, Advanced._logActivity.
    simpl. rewrite Hf, Hbad. simpl.
    destruct logging; [destruct (outage (db w0))|]; simpl; auto. }
  set (w1 := snd (setView (withFilters f (view (st w))) w)).
  assert (Hrun : AdvancedWrites.applyFilters logging f w
                 = Advanced.fetchInitialPage logging
                     {| Advanced.optPageSize := None; Advanced.optFilters := Some f;
                        Advanced.optOrderBy := None |} w1) by reflexivity.
  rewrite Hrun.
  destruct (Hfetch {| Advanced.optPageSize := None; Advanced.optFilters := Some f;
                      Advanced.optOrderBy := None |} w1 eq_refl)
    as (Hthrown & Hfilters & Herror & Hloading).
  split; [exact Hthrown|]. split; [exact Hfilters|].
  split; [exact Herror|]. split; [exact Hloading|]. split.
  - intros options Hnone. apply Hfetch. now rewrite Hnone, Hfilters.
  - intros cursor Hcursor Hmore.
    unfold Advanced.fetchNextPage, finallyNotLoading, Advanced.recordingAndLogging,
      Advanced.whereClauses, bind, getView, setLoading, throw, Advanced._logActivity.
    simpl. rewrite Hcursor, Hmore. simpl. rewrite Hfilters. simpl. rewrite Hbad. simpl.
    destruct logging; reflexivity.
Qed.

Lemma refused_filters_stay_witness :
  fst (AdvancedWrites.applyFilters false
         [{| Advanced.field := "kind"; Advanced.operator := "like";
             Advanced.value := Validation.VString "a" |}]
         (freshWorld [] None twoRowsDb))
  = Thrown "Unsupported filter operator: like"
  /\ fst (Advanced.fetchInitialPage false pageOfTwoAdvanced
            (snd (AdvancedWrites.applyFilters false
                    [{| Advanced.field := "kind"; Advanced.operator := "like";
                        Advanced.value := Validation.VString "a" |}]
                    (freshWorld [] None twoRowsDb))))
     = Thrown "Unsupported filter operator: like".
Proof.
  destruct (refused_filters_stay false
              [{| Advanced.field := "kind"; Advanced.operator := "like";
                  Advanced.value := Validation.VString "a" |}]
              "Unsupported filter operator: like"
              (freshWorld [] None twoRowsDb) eq_refl)
    as (Hthrown & _ & _ & _ & Hlater & _).
  split; [exact Hthrown|]. exact (Hlater pageOfTwoAdvanced eq_refl).
Defined.

End FreshFirstPage.

(** ** The collection actions: paging through a selection *)

Section PagingThrough.
Import Js Firestore.

Lemma afterCursor_at rows m c :
  List.NoDup (map snapId rows) -> rows !! m = Some c ->
  afterCursor (snapId c) rows = skipn (S m) rows.
Proof.
  revert m. induction rows as [|r rs IH]; intros m Hnd Hm; [discriminate|].
  inversion Hnd as [|x l Hnotin Hnd' Heq]; subst.
  destruct m as [|m']; simpl in Hm.
  - injection Hm as ->. simpl. now rewrite String.eqb_refl.
  - simpl afterCursor.
    destruct (String.eqb_spec (snapId r) (snapId c)) as [Heq|Hne].
    + exfalso. apply Hnotin. rewrite Heq. apply in_map.
      apply list_elem_of_In. now apply (list_elem_of_lookup_2 rs m').
    + now rewrite (IH m' Hnd' Hm).
Qed.

Lemma last_of_firstn {A} (l : list A) m :
  m < length l -> last (firstn (S m) l) = l !! m.
Proof.
  revert m. induction l as [|x l IH]; intros m Hm; [simpl in Hm; lia|].
  destruct m as [|m'].
  - now destruct l.
  - simpl in Hm. assert (Hm' : m' < length l) by lia.
    change ((x :: l) !! S m') with (l !! m').
    rewrite <- (IH m' Hm').
    destruct l as [|y l']; [simpl in Hm'; lia|]. reflexivity.
Qed.

Lemma last_app_nonempty {A} (a b : list A) : b <> [] -> last (a ++ b) = last b.
Proof.
  intros Hb. destruct b as [|x b'] using rev_ind; [congruence|].
  now rewrite app_assoc, !last_snoc.
Qed.

Lemma basic_fetchNextPage_full cursor (w : World Basic.Filters) :
  outage (db w) = None ->
  lastVisible (view (st w)) = Some cursor ->
  hasMore (view (st w)) = true ->
  pageSize (view (st w)) <> 0 ->
  let page := queryRows (db w) (Basic.nextConstraints (view (st w)) cursor) in
  let w' := snd (Basic.fetchNextPage w) in
  fst (Basic.fetchNextPage w) = Returned tt
  /\ items (view (st w')) = (items (view (st w)) ++ page)%list
  /\ hasMore (view (st w')) = Nat.eqb (length page) (pageSize (view (st w)))
  /\ lastVisible (view (st w')) = lastDoc page
  /\ filters (view (st w')) = filters (view (st w))
  /\ orderBy (view (st w')) = orderBy (view (st w))
  /\ pageSize (view (st w')) = pageSize (view (st w))
  /\ db w' = db w.
Proof.
  intros Hup Hcursor Hmore Hsize. cbv zeta.
  destruct (pageSize (view (st w))) as [|n] eqn:Hp; [congruence|].
  assert (Hq : getDocs (Basic.nextConstraints (view (st w)) cursor) (loadingWorld w)
               = (Returned (queryRows (db w) (Basic.nextConstraints (view (st w)) cursor)),
                  loadingWorld w)).
  { apply (getDocs_answered _
             (Basic.filterConstraints (filters (view (st w)))
              ++ Basic.sortConstraints (orderBy (view (st w))))%list n (loadingWorld w)).
    - right. exists cursor. now rewrite basic_next_constraints, Hp.
    - apply selectionOnly_app;
        [apply basic_filterConstraints_selection | apply basic_sortConstraints_selection].
    - exact Hup. }
  unfold loadingWorld, setLoading in Hq. simpl in Hq.
  unfold Basic.fetchNextPage, finallyNotLoading, recordingError,
    bind, getView, setView, setLoading.
  simpl. rewrite Hcursor, Hmore. simpl. rewrite Hq. simpl. rewrite Hp.
  repeat split; reflexivity.
Qed.

Lemma first_page_loaded options (w : World Basic.Filters) :
  outage (db w) = None ->
  Basic.requestedPageSize options (view (st w)) <> 0 ->
  fst (Basic.fetchInitialPage options w) = Returned tt
  /\ pagesLoaded (db w) (selectionOf options (view (st w)))
       (Basic.requestedPageSize options (view (st w))) 1
       (snd (Basic.fetchInitialPage options w)).
Proof.
  intros Hup Hsize.
  destruct (basic_fetchInitialPage_run options w Hup Hsize)
    as (Hret & _ & Hmore & _ & Hfilters & Hsort & Hpage & Hdb).
  destruct (basic_first_page options w Hup Hsize) as (_ & Hitems & Hlast).
  split; [exact Hret|].
  set (n := Basic.requestedPageSize options (view (st w))) in *.
  set (sel := selectionOf options (view (st w))) in *.
  assert (Hsel : selectionOnly sel).
  { apply selectionOnly_app;
      [apply basic_filterConstraints_selection | apply basic_sortConstraints_selection]. }
  rewrite basic_initial_constraints in Hmore. fold sel in Hmore. fold n in Hmore.
  rewrite (queryRows_first _ _ _ Hsel) in Hmore.
  unfold pagesLoaded. cbv zeta. rewrite Nat.mul_1_r.
  split; [exact Hdb|]. split; [now rewrite Hfilters, Hsort|].
  split; [exact Hpage|]. split; [exact Hitems|].
  rewrite Hmore, Hlast, Hitems. unfold lastDoc.
  pose proof (length_firstn n (scan (db w) sel)) as Hlen.
  destruct (Nat.eqb_spec (length (firstn n (scan (db w) sel))) n) as [Hfull|Hshort].
  - left. split; [reflexivity|]. split; [lia|]. split; [reflexivity|].
    intros Hnone. apply last_None in Hnone. rewrite Hnone in Hfull. simpl in Hfull.
    unfold n in *. congruence.
  - right. split; [now right | lia].
Qed.

Lemma next_page_loaded d sel n j (w : World Basic.Filters) :
  outage d = None -> n <> 0 -> j <> 0 ->
  List.NoDup (map snapId (scan d sel)) ->
  pagesLoaded d sel n j w ->
  fst (Basic.fetchNextPage w) = Returned tt
  /\ pagesLoaded d sel n (S j) (snd (Basic.fetchNextPage w)).
Proof.
  intros Hup Hn Hj Hnd (Hdb & Hsel & Hpage & Hitems & Hstate).
  cbv zeta in *.
  destruct Hstate as [(Hmore & Hle & Hlast & Hsome)|(Hidle & Hle)].
  - destruct (lastVisible (view (st w))) as [cursor|] eqn:Hcursor; [|congruence].
    assert (Hup' : outage (db w) = None) by now rewrite Hdb.
    assert (Hsize : pageSize (view (st w)) <> 0) by now rewrite Hpage.
    destruct (basic_fetchNextPage_full cursor w Hup' Hcursor Hmore Hsize)
      as (Hret & Hitems' & Hmore' & Hlast' & Hfilters' & Hsort' & Hpage' & Hdb').
    split; [exact Hret|].
    assert (Hselection : selectionOnly sel).
    { rewrite <- Hsel. apply selectionOnly_app;
        [apply basic_filterConstraints_selection | apply basic_sortConstraints_selection]. }
    assert (Hm : exists m, n * j = S m).
    { destruct (n * j) as [|m] eqn:E; [|eauto]. apply Nat.eq_mul_0 in E. lia. }
    destruct Hm as [m Hm]. rewrite Hm in *.
    assert (Hat : scan d sel !! m = Some cursor).
    { rewrite <- last_of_firstn by lia. now symmetry. }
    assert (Hnext : queryRows (db w) (Basic.nextConstraints (view (st w)) cursor)
                    = firstn n (skipn (S m) (scan d sel))).
    { rewrite basic_next_constraints, Hsel, Hpage, Hdb.
      now rewrite (queryRows_next _ _ _ _ Hselection), (afterCursor_at _ m cursor Hnd Hat). }
    rewrite Hnext in Hitems', Hmore', Hlast'. rewrite Hpage in Hmore'.
    assert (Hgrown : n * S j = S m + n) by lia.
    unfold pagesLoaded. cbv zeta. rewrite Hgrown.
    split; [now rewrite Hdb'|]. split; [now rewrite Hfilters', Hsort'|].
    split; [now rewrite Hpage'|].
    assert (Hall : items (view (st (snd (Basic.fetchNextPage w))))
                   = firstn (S m + n) (scan d sel)).
    { rewrite Hitems', Hitems. apply take_take_drop. }
    split; [exact Hall|].
    rewrite Hmore', Hlast'. unfold lastDoc.
    pose proof (length_firstn n (skipn (S m) (scan d sel))) as Hlen.
    rewrite length_skipn in Hlen.
    destruct (Nat.eqb_spec (length (firstn n (skipn (S m) (scan d sel)))) n)
      as [Hfull|Hshort].
    + left. split; [reflexivity|]. split; [lia|].
      assert (Hne : firstn n (skipn (S m) (scan d sel)) <> []).
      { intros Hnil. rewrite Hnil in Hfull. simpl in Hfull. congruence. }
      split.
      * rewrite <- (take_take_drop (scan d sel) (S m) n).
        now rewrite (last_app_nonempty _ _ Hne).
      * intros Hnone. apply last_None in Hnone. contradiction.
    + right. split; [now right | lia].
  - rewrite (basic_fetchNextPage_idle w Hidle). simpl. split; [reflexivity|].
    unfold pagesLoaded. cbv zeta.
    split; [exact Hdb|]. split; [exact Hsel|]. split; [exact Hpage|].
    split.
    + rewrite Hitems, !firstn_all2; [reflexivity | lia | lia].
    + right. split; [exact Hidle | lia].
Qed.

Lemma pages_loaded options (w : World Basic.Filters) k :
  outage (db w) = None ->
  Basic.requestedPageSize options (view (st w)) <> 0 ->
  List.NoDup (map snapId (scan (db w) (selectionOf options (view (st w))))) ->
  pagesLoaded (db w) (selectionOf options (view (st w)))
    (Basic.requestedPageSize options (view (st w))) (S k)
    (nextPages k (snd (Basic.fetchInitialPage options w)))
  /\ fst (Basic.fetchNextPage (nextPages k (snd (Basic.fetchInitialPage options w))))
     = Returned tt.
Proof.
  intros Hup Hsize Hnd.
  assert (Hloaded : pagesLoaded (db w) (selectionOf options (view (st w)))
                      (Basic.requestedPageSize options (view (st w))) (S k)
                      (nextPages k (snd (Basic.fetchInitialPage options w)))).
  { induction k as [|k IH].
    - exact (proj2 (first_page_loaded options w Hup Hsize)).
    - unfold nextPages. simpl Nat.iter. fold (nextPages k).
      exact (proj2 (next_page_loaded _ _ _ (S k) _ Hup Hsize (Nat.neq_succ_0 k) Hnd IH)). }
  split; [exact Hloaded|].
  exact (proj1 (next_page_loaded _ _ _ (S k) _ Hup Hsize (Nat.neq_succ_0 k) Hnd Hloaded)).
Qed.

(** X16: First generation: paging neither skips nor repeats.  With the store
    up and document ids that are distinct, after [fetchInitialPage] and any
    number [k] of calls of [fetchNextPage] the items are the first
    [(k + 1) * pageSize] documents of the selection, in its order; every
    call returns, and the calls past the end of the selection change
    nothing. *)
Theorem paging_walks_the_selection (options : Basic.FetchOptions)
    (w : World Basic.Filters) (k : nat) :
  outage (db w) = None ->
  Basic.requestedPageSize options (view (st w)) <> 0 ->
  List.NoDup (map snapId (scan (db w) (selectionOf options (view (st w))))) ->
  fst (Basic.fetchInitialPage options w) = Returned tt
  /\ fst (Basic.fetchNextPage (nextPages k (snd (Basic.fetchInitialPage options w))))
     = Returned tt
  /\ items (view (st (nextPages k (snd (Basic.fetchInitialPage options w)))))
     = firstn (Basic.requestedPageSize options (view (st w)) * S k)
              (scan (db w) (selectionOf options (view (st w)))).
Proof.
  intros Hup Hsize Hnd.
  destruct (pages_loaded options w k Hup Hsize Hnd) as [(_ & _ & _ & Hitems & _) Hret].
  split; [exact (proj1 (first_page_loaded options w Hup Hsize))|].
  split; [exact Hret | exact Hitems].
Qed.

End PagingThrough.

Section PagingThroughWitness.
Import Js Firestore.

Lemma paging_walks_the_selection_witness :
  items (view (st (nextPages 1
                     (snd (Basic.fetchInitialPage
                             {| Basic.optPageSize := Some 1; Basic.optFilters := None;
                                Basic.optOrderBy := None |}
                             (freshWorld [] None twoRowsDb))))))
  = [row "a"; row "b"].
Proof.
  exact (proj2 (proj2 (paging_walks_the_selection
                         {| Basic.optPageSize := Some 1; Basic.optFilters := None;
                            Basic.optOrderBy := None |}
                         (freshWorld [] None twoRowsDb) 1
                         eq_refl (fun H => O_S 0 (eq_sym H)) twoRows_unique))).
Defined.

End PagingThroughWitness.

(** ** The collection actions: [search] of the second generation *)

Section Searching.
Import Js Firestore Writes.

Lemma pushUnseen_step all seen d :
  AdvancedWrites.pushUnseen (all, seen) d
  = if includes seen (snapId d) then (all, seen)
    else ((all ++ [d])%list, (seen ++ [snapId d])%list).
Proof. reflexivity. Qed.

Lemma pushUnseen_fold docs all seen :
  seen = map snapId all -> List.NoDup seen ->
  let acc := fold_left AdvancedWrites.pushUnseen docs (all, seen) in
  snd acc = map snapId (fst acc)
  /\ List.NoDup (snd acc)
  /\ (forall id, In id (snd acc) <-> In id seen \/ In id (map snapId docs))
  /\ (forall doc, In doc (fst acc) -> In doc all \/ In doc docs).
Proof.
  revert all seen. induction docs as [|d docs IH]; intros all seen Hseen Hnd; cbv zeta.
  - simpl. repeat split; auto. intros [H|[]]. exact H.
  - change (fold_left AdvancedWrites.pushUnseen (d :: docs) (all, seen))
      with (fold_left AdvancedWrites.pushUnseen docs (AdvancedWrites.pushUnseen (all, seen) d)).
    rewrite pushUnseen_step.
    destruct (includes seen (snapId d)) eqn:Hin.
    + destruct (IH all seen Hseen Hnd) as (H1 & H2 & H3 & H4).
      split; [exact H1|]. split; [exact H2|]. split.
      * intros id. rewrite H3. simpl. apply includes_In in Hin.
        split; [tauto|]. intros [H|[<-|H]]; tauto.
      * intros doc Hdoc. destruct (H4 doc Hdoc); [now left | right; now right].
    + apply includes_not_In in Hin.
      assert (Hseen' : (seen ++ [snapId d])%list = map snapId (all ++ [d])%list)
        by now rewrite map_app, Hseen.
      assert (Hnd' : List.NoDup (seen ++ [snapId d])%list).
      { apply List.NoDup_app; [assumption | repeat constructor; intros [] |].
        intros y Hy [<-|[]]. contradiction. }
      destruct (IH _ _ Hseen' Hnd') as (H1 & H2 & H3 & H4).
      split; [exact H1|]. split; [exact H2|]. split.
      * intros id. rewrite H3, in_app_iff. simpl. tauto.
      * intros doc Hdoc. destruct (H4 doc Hdoc) as [H|H]; [|right; now right].
        apply in_app_or in H as [H|[<-|[]]]; [now left | right; now left].
Qed.

Lemma collect_fold snapshots all seen :
  seen = map snapId all -> List.NoDup seen ->
  let acc := fold_left (fun acc snapshot => fold_left AdvancedWrites.pushUnseen snapshot acc)
               snapshots (all, seen) in
  snd acc = map snapId (fst acc)
  /\ List.NoDup (snd acc)
  /\ (forall id, In id (snd acc)
                 <-> In id seen \/ exists docs, In docs snapshots /\ In id (map snapId docs))
  /\ (forall doc, In doc (fst acc)
                  -> In doc all \/ exists docs, In docs snapshots /\ In doc docs).
Proof.
  revert all seen. induction snapshots as [|docs rest IH]; intros all seen Hseen Hnd;
    cbv zeta.
  - simpl. repeat split; auto.
    + intros [H|(docs & [] & _)]. exact H.
  - simpl fold_left.
    pose proof (pushUnseen_fold docs all seen Hseen Hnd) as Hstep. cbv zeta in Hstep.
    destruct (fold_left AdvancedWrites.pushUnseen docs (all, seen)) as [all' seen'].
    simpl in Hstep. destruct Hstep as (H1 & H2 & H3 & H4).
    destruct (IH all' seen' H1 H2) as (K1 & K2 & K3 & K4).
    split; [exact K1|]. split; [exact K2|]. split.
    + intros id. rewrite K3, H3. split.
      * intros [[H|H]|(ds & Hds & H)]; [now left | | ].
        -- right. exists docs. split; [now left | exact H].
        -- right. exists ds. split; [now right | exact H].
      * intros [H|(ds & [<-|Hds] & H)]; [tauto | tauto |].
        right. exists ds. now split.
    + intros doc Hdoc. destruct (K4 doc Hdoc) as [H|(ds & Hds & H)].
      * destruct (H4 doc H) as [H'|H']; [now left|].
        right. exists docs. split; [now left | exact H'].
      * right. exists ds. split; [now right | exact H].
Qed.

(** The results of a search hold every document found once. *)
Lemma collectResults_spec snapshots :
  List.NoDup (map snapId (AdvancedWrites.collectResults snapshots))
  /\ (forall doc, In doc (AdvancedWrites.collectResults snapshots)
                  -> exists docs, In docs snapshots /\ In doc docs)
  /\ (forall docs doc, In docs snapshots -> In doc docs
                       -> In (snapId doc) (map snapId (AdvancedWrites.collectResults snapshots))).
Proof.
  unfold AdvancedWrites.collectResults.
  pose proof (collect_fold snapshots [] [] eq_refl (List.NoDup_nil _)) as H.
  cbv zeta in H. destruct H as (H1 & H2 & H3 & H4).
  rewrite <- H1. split; [exact H2|]. split.
  - intros doc Hdoc. destruct (H4 doc Hdoc) as [[]|H]. exact H.
  - intros docs doc Hdocs Hdoc. apply H3. right. exists docs.
    split; [exact Hdocs | now apply in_map].
Qed.

Lemma searchConstraints_selection term f filters q :
  AdvancedWrites.searchConstraints term f filters = inr q -> selectionOnly q.
Proof.
  unfold AdvancedWrites.searchConstraints.
  destruct (Advanced.filterConstraints _) as [e|cs] eqn:Hcs; [discriminate|].
  intros [= <-]. apply (selectionOnly_app [_; _]).
  - repeat constructor.
  - exact (advanced_filterConstraints_selection _ _ Hcs).
Qed.

Lemma searchQueries_selection term fields filters qs :
  AdvancedWrites.searchQueries term fields filters = inr qs -> Forall selectionOnly qs.
Proof.
  revert qs. induction fields as [|f r IH]; simpl; intros qs H.
  - injection H as <-. constructor.
  - destruct (AdvancedWrites.searchConstraints term f filters) as [e|q] eqn:Hq;
      [discriminate|].
    destruct (AdvancedWrites.searchQueries term r filters) as [e|rest]; [discriminate|].
    injection H as <-. constructor; [|now apply IH].
    exact (searchConstraints_selection _ _ _ _ Hq).
Qed.

Lemma getDocs_without_limit q (w : World Advanced.Filters) :
  selectionOnly q -> outage (db w) = None ->
  getDocs q w = (Returned (queryRows (db w) q), w).
Proof.
  intros Hsel Hup. unfold getDocs.
  pose proof (limitOf_selection q [] Hsel) as Hl. rewrite app_nil_r in Hl.
  rewrite Hl. simpl. now rewrite Hup.
Qed.

Lemma getAll_answered qs (w : World Advanced.Filters) :
  Forall selectionOnly qs -> outage (db w) = None ->
  AdvancedWrites.getAll qs w = (Returned (map (queryRows (db w)) qs), w).
Proof.
  intros Hall Hup. induction Hall as [|q r Hq _ IH]; [reflexivity|].
  simpl. unfold bind. rewrite (getDocs_without_limit q w Hq Hup), IH. reflexivity.
Qed.

(** X17: Second generation: a search over several fields asks the store once
    per field and gives every document found once, however many of the
    queries found it.  With the store up and filters that are taken, the
    call returns, [loading] is off again, the search is active, and its
    results have distinct ids, hold only documents some query returned and
    hold every document any query returned.  A filter that is refused
    makes the call throw and leaves the search active without results. *)
Theorem search_gives_each_document_once (logging : bool) (term : string)
    (fields : option AdvancedWrites.FieldsArg) (w : World Advanced.Filters)
    (s : option AdvancedWrites.Search) :
  let searchFields := match fields with
                      | Some (AdvancedWrites.ManyFields fs) => fs
                      | Some (AdvancedWrites.OneField f) => [f]
                      | None => ["name"]
                      end in
  outage (db w) = None ->
  match AdvancedWrites.searchQueries term searchFields (filters (view (st w))),
        AdvancedWrites.search logging term fields w s with
  | inr queries, (outcome, w', s') =>
      outcome = Returned tt
      /\ loading (st w') = false
      /\ exists found,
           s' = Some {| AdvancedWrites.term := term;
                        AdvancedWrites.searchFields := searchFields;
                        AdvancedWrites.results := found;
                        AdvancedWrites.isActive := true |}
           /\ List.NoDup (map snapId found)
           /\ (forall doc, In doc found
                           -> exists q, In q queries /\ In doc (queryRows (db w) q))
           /\ (forall q doc, In q queries -> In doc (queryRows (db w) q)
                             -> In (snapId doc) (map snapId found))
  | inl refusal, (outcome, w', s') =>
      outcome = Thrown refusal
      /\ loading (st w') = false
      /\ error (st w') = Some refusal
      /\ s' = Some {| AdvancedWrites.term := term;
                      AdvancedWrites.searchFields := searchFields;
                      AdvancedWrites.results := [];
                      AdvancedWrites.isActive := true |}
  end.
Proof.
  cbv zeta. intros Hup. unfold AdvancedWrites.search.
  set (searchFields := match fields with
                       | Some (AdvancedWrites.ManyFields fs) => fs
                       | Some (AdvancedWrites.OneField f) => [f]
                       | None => ["name"]
                       end).
  destruct (AdvancedWrites.searchQueries term searchFields (filters (view (st w))))
    as [refusal|queries] eqn:Hqs.
  - unfold finallyNotLoading, Advanced.recordingAndLogging, bind, getView, setLoading,
      throw, Advanced._logActivity. simpl. rewrite Hqs. simpl.
    destruct logging; simpl; rewrite ?Hup; simpl; repeat split; reflexivity.
  - pose proof (searchQueries_selection _ _ _ _ Hqs) as Hsel.
    pose proof (getAll_answered queries (snd (setLoading true w)) Hsel Hup) as Hall.
    unfold finallyNotLoading, Advanced.recordingAndLogging, bind, getView, ret.
    simpl. rewrite Hqs. simpl. unfold setLoading in Hall. simpl in Hall. rewrite Hall.
    simpl. unfold Advanced._logActivity. simpl. rewrite Hup.
    destruct (collectResults_spec (map (queryRows (db w)) queries)) as (Hnd & Hfrom & Hto).
    assert (Hresults :
      exists found,
        Some {| AdvancedWrites.term := term; AdvancedWrites.searchFields := searchFields;
                AdvancedWrites.results :=
                  AdvancedWrites.collectResults (map (queryRows (db w)) queries);
                AdvancedWrites.isActive := true |}
        = Some {| AdvancedWrites.term := term; AdvancedWrites.searchFields := searchFields;
                  AdvancedWrites.results := found; AdvancedWrites.isActive := true |}
        /\ List.NoDup (map snapId found)
        /\ (forall doc, In doc found
                        -> exists q, In q queries /\ In doc (queryRows (db w) q))
        /\ (forall q doc, In q queries -> In doc (queryRows (db w) q)
                          -> In (snapId doc) (map snapId found))).
    { eexists. split; [reflexivity|]. split; [exact Hnd|]. split.
      - intros doc Hdoc. destruct (Hfrom doc Hdoc) as (docs & Hdocs & Hin).
        apply in_map_iff in Hdocs as (q & <- & Hq). eauto.
      - intros q doc Hq Hdoc. apply (Hto (queryRows (db w) q)); [|exact Hdoc].
        now apply in_map. }
    destruct logging; simpl; (split; [reflexivity|]); (split; [reflexivity|]);
      exact Hresults.
Qed.

End Searching.

Section SearchingWitness.
Import Js Firestore Writes.

Lemma search_gives_each_document_once_witness :
  exists found,
    snd (AdvancedWrites.search false "a"
           (Some (AdvancedWrites.ManyFields ["name"; "title"]))
           (freshWorld [] None twoRowsDb) None)
    = Some {| AdvancedWrites.term := "a";
              AdvancedWrites.searchFields := ["name"; "title"];
              AdvancedWrites.results := found;
              AdvancedWrites.isActive := true |}
    /\ List.NoDup (map snapId found).
Proof.
  pose proof (search_gives_each_document_once false "a"
                (Some (AdvancedWrites.ManyFields ["name"; "title"]))
                (freshWorld [] None twoRowsDb) None eq_refl) as H.
  simpl in H. destruct H as (_ & _ & found & Hs & Hnd & _).
  exists found. split; [exact Hs | exact Hnd].
Defined.

End SearchingWitness.

(** ** The emitted validator: when it can be imported *)

Section ValidatorImport.
Import Js Naming Validation.

Lemma typeCheckOf_known f t :
  typeCheckOf f t = None <-> knownType t = false.
Proof.
  unfold typeCheckOf, knownType. simpl.
  repeat match goal with |- context [String.eqb t ?k] => destruct (String.eqb t k) end;
    simpl; split; congruence.
Qed.

Lemma email_is_known t : String.eqb t "email" = true -> knownType t = true.
Proof.
  intros H. apply String.eqb_eq in H. now subst.
Qed.

Lemma untyped_statements (fields : Store.Fields) :
  existsb (fun fd => knownType (snd fd)) fields = false ->
  flat_map typeStatement fields = [] /\ flat_map emailFieldOf fields = [].
Proof.
  induction fields as [|[g t] r IH]; simpl; [auto|].
  intros H. apply orb_false_iff in H as [Ht Hr].
  destruct (IH Hr) as [IH1 IH2]. rewrite IH1, IH2.
  unfold typeStatement, emailFieldOf. simpl.
  rewrite (proj2 (typeCheckOf_known g t) Ht).
  destruct (String.eqb t "email") eqn:He; [|auto].
  rewrite (email_is_known t He) in Ht. discriminate.
Qed.

Lemma required_checks_only (env : Env) (data : Value) (fields : Store.Fields) :
  let r := fold_left (runCheck env (jsOr data (VObject [])))
             (map (fun fd => RequiredCheck (fst fd)) fields) noResult in
  errors r = map Required (blankFields fields data) /\ consoleErrors r = [].
Proof.
  cbv zeta. rewrite run_errors, run_logs. simpl. unfold blankFields.
  induction fields as [|[g t] r IH]; simpl; [auto|].
  destruct IH as [IH1 IH2]. rewrite IH1, IH2.
  destruct (isBlank (getProp (jsOr data (VObject [])) g)); simpl; auto.
Qed.

(** X18: For a collection whose processed name is made of identifier
    characters and whose field names are identifier names that no object
    inherits, the emitted validator file is a module exactly when no field
    has one of the seven types the generator knows.  The module then
    exports the function [validate<Name>], which on an input that is falsy
    or a plain object of plain values reports the blank fields, each once
    with its "required" message and in the order of the declaration,
    reports nothing else and logs nothing; for a collection with a field of
    a known type importing the file fails. *)
Theorem validator_imports_iff_untyped (collectionName : string) (fields : Store.Fields) :
  allChars isIdentifierPart collectionName = true ->
  forallb (fun fd => plainFieldName (fst fd)) fields = true ->
  if existsb (fun fd => knownType (snd fd)) fields
  then ValidatorFiles.importedModule collectionName fields = None
  else exists validate,
         ValidatorFiles.importedModule collectionName fields
         = Some (ValidatorFiles.validatorName collectionName, validate)
         /\ forall env data,
              plainInput data = true ->
              errors (validate env data) = map Required (blankFields fields data)
              /\ consoleErrors (validate env data) = [].
Proof.
  intros _ _. unfold ValidatorFiles.importedModule.
  destruct (existsb (fun fd => knownType (snd fd)) fields) eqn:Hknown.
  - apply existsb_exists in Hknown as ([g t] & Hin & Ht). simpl in Ht.
    destruct (typeCheckOf g t) as [[tag msg]|] eqn:Htype.
    + now rewrite (typed_field_breaks_import fields g t tag msg Hin Htype).
    + apply typeCheckOf_known in Htype. congruence.
  - destruct (untyped_statements fields Hknown) as [Htypes Hemails].
    assert (Hshape : generateValidationModule fields
                     = map (fun fd => RequiredCheck (fst fd)) fields).
    { rewrite generateValidationModule_shape, Htypes, Hemails. simpl.
      now rewrite app_nil_r. }
    unfold importValidator. rewrite Hshape.
    assert (Hparses : validatorParses (map (fun fd => RequiredCheck (fst fd)) fields) = true).
    { unfold validatorParses. apply forallb_forall. intros c Hc.
      apply in_map_iff in Hc as (fd & <- & _). reflexivity. }
    rewrite Hparses. eexists. split; [reflexivity|].
    intros env data _. unfold validateBody, runValidator. rewrite Hshape.
    exact (required_checks_only env data fields).
Qed.

Lemma validator_imports_iff_untyped_witness :
  exists validate,
    ValidatorFiles.importedModule "memos" ValidatorFiles.memoFields
    = Some ("validateMemos", validate)
    /\ errors (validate unreachableEnv ValidatorFiles.memoInput)
       = [Required "title"; Required "note"]
    /\ consoleErrors (validate unreachableEnv ValidatorFiles.memoInput) = [].
Proof.
  destruct (validator_imports_iff_untyped "memos" ValidatorFiles.memoFields
              eq_refl eq_refl) as (validate & Hmodule & Hruns).
  exists validate. split; [exact Hmodule|].
  exact (Hruns unreachableEnv ValidatorFiles.memoInput eq_refl).
Defined.

(** X19: The email pattern [/^\S+@\S+\.\S+$/] accepts a text of ASCII
    characters exactly when the text has no white space and has an at sign
    after at least one character and, later, a dot with at least one
    character between the two and at least one after it. *)
Theorem email_pattern_accepts (s : string) :
  isAsciiText s = true ->
  (emailPatternTest s = true
   <-> exists a b c,
         s = a ++ "@" ++ b ++ "." ++ c
         /\ a <> "" /\ b <> "" /\ c <> ""
         /\ allChars notWhiteSpace s = true).
Proof.
  intros _.
  rewrite emailPatternTest_spec. unfold emailShape. split.
  - intros (a & b & c & -> & Ha & Hb & Hc & Haa & Hbb & Hcc).
    exists a, b, c. repeat split; try assumption.
    change (a ++ "@" ++ b ++ "." ++ c) with (a ++ String "@" (b ++ String "." c)).
    rewrite allChars_append, Haa. simpl. rewrite allChars_append, Hbb. simpl.
    now rewrite Hcc.
  - intros (a & b & c & -> & Ha & Hb & Hc & Hall).
    exists a, b, c.
    change (a ++ "@" ++ b ++ "." ++ c) with (a ++ String "@" (b ++ String "." c)) in Hall.
    rewrite allChars_append in Hall. apply andb_true_iff in Hall as [Haa Hrest].
    simpl in Hrest. rewrite allChars_append in Hrest.
    apply andb_true_iff in Hrest as [Hbb Hcc]. simpl in Hcc.
    repeat split; assumption.
Qed.

Lemma email_pattern_accepts_witness :
  exists a b c,
    "ada@example.org" = a ++ "@" ++ b ++ "." ++ c
    /\ a <> "" /\ b <> "" /\ c <> ""
    /\ allChars notWhiteSpace "ada@example.org" = true.
Proof.
  exact (proj1 (email_pattern_accepts "ada@example.org" eq_refl) eq_refl).
Defined.

End ValidatorImport.

(** ** The route table and the view files *)

Section RoutesAndViews.
Import Js Naming Router.

Lemma append_assoc' (a b c : string) : (a ++ b) ++ c = a ++ b ++ c.
Proof.
  induction a as [|x a IH]; [reflexivity|].
  now rewrite !append_cons, IH.
Qed.

Lemma componentsOf_app a b : componentsOf (a ++ b) = (componentsOf a ++ componentsOf b)%list.
Proof. unfold componentsOf. apply flat_map_app. Qed.

Lemma form_view_import camel file :
  lazyImportOf
    (Store.joinPath (Store.joinPath (Store.joinPath "src" "views") camel) file)
  = "() => import('@/views/" ++ camel ++ "/" ++ file ++ "')".
Proof.
  unfold lazyImportOf, Store.joinPath. rewrite !append_assoc'.
  change (aliasOf ("src" ++ "/" ++ "views" ++ "/" ++ camel ++ "/" ++ file))
    with ("@/views/" ++ camel ++ "/" ++ file).
  rewrite !append_assoc'. reflexivity.
Qed.

Lemma collection_views_imported (cs : list Store.Collection) :
  componentsOf (flat_map collectionRoutes cs) = map lazyImportOf (Views.formViews cs).
Proof.
  unfold Views.formViews. cbv zeta.
  induction cs as [|c r IH]; [reflexivity|].
  cbn [flat_map]. rewrite componentsOf_app, map_app, IH. f_equal.
  cbn [map]. rewrite !form_view_import. reflexivity.
Qed.

(** X20: Routes and view files agree.  The components of the route table, in
    its order, are the lazy imports of the view files that [generateRouter]
    writes for its fixed routes followed by those that
    [generateFormComponents] writes for the same collections: every
    component of a route has its file, and no view file is written that no
    route imports.  The collection names are taken to give path segments
    that [path.join] leaves as they are. *)
Theorem routes_import_the_views_written (a : Answers) (cs : list Store.Collection) :
  collections a = Some cs ->
  Forall (fun c => plainSegment (toCamelCase (Store.name c)) = true) cs ->
  componentsOf (generateRoutes a)
  = map lazyImportOf (Views.routerViews a ++ Views.formViews cs).
Proof.
  intros Hcs _. rewrite generateRoutes_blocks, Hcs. simpl default.
  assert (Hfixed :
    (componentsOf [if enableLanding a then landingRoute else homeRoute]
     ++ componentsOf (if enableAuth a && enableAuthViews a then authRoutes else [])
     ++ componentsOf (if enableAdmin a then adminRoutes (enableRoles a) else []))%list
    = map lazyImportOf (Views.routerViews a)).
  { unfold Views.routerViews. cbv zeta.
    destruct (enableLanding a), (enableAuth a && enableAuthViews a), (enableAdmin a);
      reflexivity. }
  rewrite !componentsOf_app, map_app, collection_views_imported, <- Hfixed.
  change (componentsOf [catchAllRoute]) with (@nil string).
  now rewrite app_nil_r, <- !app_assoc.
Qed.

Lemma routes_import_the_views_written_witness :
  componentsOf (generateRoutes {| enableAuth := false; enableRoles := false;
                                  enableAuthViews := false; enableAdmin := false;
                                  enableLanding := true;
                                  collections :=
                                    Some [ {| Store.name := "blog posts"; Store.fields := [];
                                              Store.dataType := "object" |} ] |})
  = map lazyImportOf
        ["src/views/LandingPage.vue"; "src/views/blogPosts/Create.vue";
         "src/views/blogPosts/Edit.vue"].
Proof.
  refine (routes_import_the_views_written
            {| enableAuth := false; enableRoles := false; enableAuthViews := false;
               enableAdmin := false; enableLanding := true;
               collections := Some [ {| Store.name := "blog posts"; Store.fields := [];
                                        Store.dataType := "object" |} ] |}
            [ {| Store.name := "blog posts"; Store.fields := [];
                 Store.dataType := "object" |} ] eq_refl _).
  repeat constructor.
Defined.

End RoutesAndViews.

(** ** The activity logger: what an entry holds *)

Section ActivityEntries.
Import Js Validation Writes.

(** X21: The entry that [logActivity] hands to the store always carries the
    time stamp of the call; with a user signed in its [userId], [userEmail]
    and [userName] are that user's (the name falling back on the email),
    whatever the caller put under these keys, and without one it is marked
    [system] and keeps the caller's fields; every other field is the
    caller's.  A store that rejects the entry makes the call resolve to a
    failure with the store's message, with "Failed to log activity" in
    [store.error]; a store that takes it makes the call resolve to the new
    id and leaves [store.error] alone. *)
Theorem activity_entry_holds_the_user (env : ActivityLogger.Env)
    (activity : list (string * Value)) (user : Value) (k : string) :
  lookupProp (ActivityLogger.activityEntry env activity user) k
  = (if String.eqb k "timestamp" then ActivityLogger.now env
     else if isTruthy user then
       if String.eqb k "userName"
       then jsOr (getProp user "displayName") (getProp user "email")
       else if String.eqb k "userEmail" then getProp user "email"
       else if String.eqb k "userId" then getProp user "uid"
       else lookupProp (spread [] activity) k
     else if String.eqb k "system" then VBool true
     else lookupProp (spread [] activity) k)
  /\ ActivityLogger.logActivity env activity user
     = match ActivityLogger.addDoc env (ActivityLogger.activityEntry env activity user) with
       | inr id =>
           {| ActivityLogger.result :=
                {| ActivityLogger.success := true; ActivityLogger.activityId := Some id;
                   ActivityLogger.errorMessage := None |};
              ActivityLogger.storeError := None;
              ActivityLogger.consoleErrors := [] |}
       | inl err =>
           {| ActivityLogger.result :=
                {| ActivityLogger.success := false; ActivityLogger.activityId := None;
                   ActivityLogger.errorMessage := Some err |};
              ActivityLogger.storeError := Some "Failed to log activity";
              ActivityLogger.consoleErrors := ["[Activity Logger] Log error:"] |}
       end.
Proof.
  split; [|reflexivity].
  unfold ActivityLogger.activityEntry, ActivityLogger.userContext.
  destruct (isTruthy user); unfold spread at 1 2; cbn [fold_left fst snd];
    rewrite !lookup_setProp; reflexivity.
Qed.

End ActivityEntries.

(** ** The validator the forms import *)

Section ValidatorOfTheForms.
Import Js Naming Store.

(** X22: The create and edit components import the validator that
    [generateStore] has written.  For a collection that normalisation
    keeps, the function name the components import, built with
    [toPascalCase] from the name as typed, is the name of the function that
    [generateValidationModule] emits for the processed name, and the module
    they import it from is the file it writes, less the extension. *)
Theorem forms_import_the_validator_written (c : RawCollection) (p config : Collection)
    (n : string) :
  processCollection c = inr p -> raw_name c = Some n -> name config = n ->
  ValidatorFiles.importedValidator config = ValidatorFiles.validatorName (name p)
  /\ ValidatorFiles.importedFrom config ++ ".js"
     = aliasOf (ValidatorFiles.targetPath (name p)).
Proof.
  intros Hp Hn Hconfig. destruct (processCollection_name c p n Hp Hn) as [Hname _].
  destruct (pascal_of_camel n) as [Hpascal _].
  unfold ValidatorFiles.importedValidator, ValidatorFiles.importedFrom,
    ValidatorFiles.validatorName, ValidatorFiles.targetPath,
    ValidatorFiles.capitalizeCollectionName, Store.joinPath.
  rewrite Hname, Hconfig, Hpascal. unfold capitalize. split; [reflexivity|].
  rewrite !append_assoc'. reflexivity.
Qed.

Lemma forms_import_the_validator_written_witness :
  ValidatorFiles.importedValidator
    {| name := "blog posts"; fields := []; dataType := "object" |} = "validateBlogPosts"
  /\ "@/validators/validateBlogPosts.js"
     = aliasOf (ValidatorFiles.targetPath "blogPosts").
Proof.
  exact (forms_import_the_validator_written
           {| raw_name := Some "blog posts"; raw_fields := Some []; raw_dataType := None |}
           {| name := "blogPosts"; fields := []; dataType := "object" |}
           {| name := "blog posts"; fields := []; dataType := "object" |}
           "blog posts" eq_refl eq_refl eq_refl).
Defined.

End ValidatorOfTheForms.

(** ** The collection actions: what was added can be read, what was removed
    cannot *)

Section RoundTrip.
Import Js Firestore Writes.

Lemma withDocs_lookup {F} (w : World F) docs' id :
  docs (db (withDocs w docs')) !! id = docs' !! id.
Proof. reflexivity. Qed.

(** X23: First generation: after [add] the new identifier reads back, through
    [get], as the document that was stored; after a [remove] that is not
    held back by the role check, [get] throws its not-found error. *)
Theorem basic_add_get_remove (auth : list Store.CollArg) (name newId : string)
    (data : DocData) (w : World Basic.Filters) :
  outage (db w) = None ->
  let added := snd (BasicWrites.add auth name newId data w) in
  let removed := snd (BasicWrites.remove [] auth name newId added) in
  (exists stored,
     docs (db added) !! newId = Some stored
     /\ fst (Basic.get newId added) = Returned {| snapId := newId; snapData := stored |})
  /\ fst (BasicWrites.remove [] auth name newId added) = Returned tt
  /\ docs (db removed) !! newId = None
  /\ fst (Basic.get newId removed) = Thrown "Document with ID  not found".
Proof.
  intros Hup. cbv zeta.
  unfold BasicWrites.add, BasicWrites.remove, Basic.get, recordingError, bind, getUser,
    addDoc, deleteDoc, getDoc, ret, throw. simpl. rewrite Hup. simpl. rewrite Hup. simpl.
  rewrite Hup. simpl.
  rewrite lookup_insert_eq, lookup_delete_eq. simpl.
  split; [eexists; split; reflexivity|]. auto.
Qed.

Lemma basic_add_get_remove_witness :
  (exists stored,
     docs (db (snd (BasicWrites.add [] "notes" "n1" plainUser (freshWorld [] None emptyDb))))
       !! "n1" = Some stored
     /\ fst (Basic.get "n1"
               (snd (BasicWrites.add [] "notes" "n1" plainUser (freshWorld [] None emptyDb))))
        = Returned {| snapId := "n1"; snapData := stored |})
  /\ fst (Basic.get "n1"
            (snd (BasicWrites.remove [] [] "notes" "n1"
                    (snd (BasicWrites.add [] "notes" "n1" plainUser
                            (freshWorld [] None emptyDb))))))
     = Thrown "Document with ID  not found".
Proof.
  destruct (basic_add_get_remove [] "notes" "n1" plainUser (freshWorld [] None emptyDb)
              eq_refl) as (Hread & _ & _ & Hgone).
  split; [exact Hread | exact Hgone].
Defined.

(** X24: Second generation, for every module that parses: [add] returns the new
    identifier, which reads back through [get] as the document that was
    stored; after [remove], [get] of it returns [null]. *)
Theorem advanced_add_get_remove (roles : list string) (auth : list Store.CollArg)
    (logging : bool) (name : string) (writes : AdvancedWrites.WriteActions)
    (reads : Advanced.Actions) (now : Validation.Value) (newId : string) (data : DocData)
    (w : World Advanced.Filters) :
  AdvancedWrites.useWriteActions roles auth logging name = Some writes ->
  Advanced.useFirestoreCollectionActions roles auth logging name = Some reads ->
  outage (db w) = None ->
  let added := snd (AdvancedWrites.actAdd writes now newId data w) in
  let removed := snd (AdvancedWrites.actRemove writes newId added) in
  fst (AdvancedWrites.actAdd writes now newId data w) = Returned newId
  /\ (exists stored,
        docs (db added) !! newId = Some stored
        /\ fst (Advanced.actGet reads newId added)
           = Returned (Some {| snapId := newId; snapData := stored |}))
  /\ fst (AdvancedWrites.actRemove writes newId added) = Returned tt
  /\ fst (Advanced.actGet reads newId removed) = Returned None.
Proof.
  unfold AdvancedWrites.useWriteActions, Advanced.useFirestoreCollectionActions,
    Advanced.moduleParses.
  destruct roles as [|r0 rs]; [|discriminate].
  destruct logging; [discriminate|]. intros [= <-] [= <-] Hup. cbv zeta. simpl.
  unfold AdvancedWrites.add, AdvancedWrites.remove, Advanced.get,
    Advanced.recordingAndLogging, bind, getUser, addDoc, deleteDoc, getDoc, ret, throw,
    Advanced._logActivity. simpl. rewrite Hup. simpl. rewrite Hup. simpl.
  rewrite Hup. simpl.
  rewrite lookup_insert_eq, lookup_delete_eq. simpl.
  split; [reflexivity|]. split; [eexists; split; reflexivity|]. auto.
Qed.

Lemma advanced_add_get_remove_witness :
  fst (AdvancedWrites.add false [] "notes" Validation.VNull "n1" plainUser
         (freshWorld [] None emptyDb)) = Returned "n1"
  /\ fst (Advanced.get false "n1"
            (snd (AdvancedWrites.remove [] false [] "notes" "n1"
                    (snd (AdvancedWrites.add false [] "notes" Validation.VNull "n1" plainUser
                            (freshWorld [] None emptyDb))))))
     = Returned None.
Proof.
  destruct (advanced_add_get_remove [] [] false "notes"
              {| AdvancedWrites.actAdd := AdvancedWrites.add false [] "notes";
                 AdvancedWrites.actUpdate := AdvancedWrites.update false [] "notes";
                 AdvancedWrites.actRemove := AdvancedWrites.remove [] false [] "notes" |}
              plainActions Validation.VNull "n1" plainUser (freshWorld [] None emptyDb)
              eq_refl eq_refl eq_refl) as (Hid & _ & _ & Hgone).
  split; [exact Hid | exact Hgone].
Defined.

End RoundTrip.

(** ** The collection actions: failures of the fetches *)

Section FetchFailures.
Import Js Firestore.

Lemma finally_recording {F A} (m : M F A) (w : World F) :
  loading (st (snd (finallyNotLoading (recordingError m) w))) = false
  /\ forall e, fst (finallyNotLoading (recordingError m) w) = Thrown e
               -> error (st (snd (finallyNotLoading (recordingError m) w))) = Some e.
Proof.
  unfold finallyNotLoading, recordingError.
  destruct (m w) as [[a|e'] w']; simpl; split; try reflexivity; intros e H;
    [discriminate | now injection H as ->].
Qed.

Lemma logActivity_state logging type id (w : World Advanced.Filters) :
  st (snd (Advanced._logActivity logging type id w)) = st w.
Proof.
  unfold Advanced._logActivity. destruct logging; [|reflexivity].
  now destruct (outage (db w)).
Qed.

Lemma finally_recording_logging {A} logging type id (m : M Advanced.Filters A)
    (w : World Advanced.Filters) :
  let r := finallyNotLoading (Advanced.recordingAndLogging logging type id m) w in
  loading (st (snd r)) = false
  /\ forall e, fst r = Thrown e -> error (st (snd r)) = Some e.
Proof.
  cbv zeta. unfold finallyNotLoading, Advanced.recordingAndLogging.
  destruct (m w) as [[a|e'] w']; simpl; split; try reflexivity; intros e H;
    [discriminate|].
  injection H as ->. now rewrite logActivity_state.
Qed.

Lemma basic_fetchNextPage_pending (w : World Basic.Filters) e :
  fst (Basic.fetchNextPage w) = Thrown e ->
  exists (m : M Basic.Filters unit) w0,
    Basic.fetchNextPage w = finallyNotLoading (recordingError m) w0.
Proof.
  remember (Basic.fetchNextPage w) as r eqn:Hr.
  unfold Basic.fetchNextPage in Hr. unfold bind at 1, getView at 1 in Hr.
  cbv beta iota in Hr.
  destruct (lastVisible (view (st w))) as [cursor|]; [|subst r; discriminate].
  destruct (hasMore (view (st w))); [|subst r; discriminate].
  subst r. intros _. unfold bind at 1, setLoading at 1. cbv beta iota.
  eexists _, _. reflexivity.
Qed.

Lemma advanced_fetchNextPage_pending logging (w : World Advanced.Filters) e :
  fst (Advanced.fetchNextPage logging w) = Thrown e ->
  exists type id (m : M Advanced.Filters unit) w0,
    Advanced.fetchNextPage logging w
    = finallyNotLoading (Advanced.recordingAndLogging logging type id m) w0.
Proof.
  remember (Advanced.fetchNextPage logging w) as r eqn:Hr.
  unfold Advanced.fetchNextPage in Hr. unfold bind at 1, getView at 1 in Hr.
  cbv beta iota in Hr.
  destruct (lastVisible (view (st w))) as [cursor|]; [|subst r; discriminate].
  destruct (hasMore (view (st w))); [|subst r; discriminate].
  subst r. intros _. unfold bind at 1, setLoading at 1. cbv beta iota.
  eexists _, _, _, _. reflexivity.
Qed.

(** X25: Whatever the store does, a fetch leaves [loading] off, and when it
    throws, the message of the error it throws is in [state.error]: for
    [fetchInitialPage] of both generations, and for [fetchNextPage] of
    both whenever it throws ([fetchNextPage] with nothing pending returns
    without touching either). *)
Theorem fetches_record_their_failures (logging : bool)
    (options1 : Basic.FetchOptions) (options2 : Advanced.FetchOptions)
    (w1 : World Basic.Filters) (w2 : World Advanced.Filters) :
  (loading (st (snd (Basic.fetchInitialPage options1 w1))) = false
   /\ forall e, fst (Basic.fetchInitialPage options1 w1) = Thrown e
                -> error (st (snd (Basic.fetchInitialPage options1 w1))) = Some e)
  /\ (loading (st (snd (Advanced.fetchInitialPage logging options2 w2))) = false
      /\ forall e, fst (Advanced.fetchInitialPage logging options2 w2) = Thrown e
                   -> error (st (snd (Advanced.fetchInitialPage logging options2 w2)))
                      = Some e)
  /\ (forall e, fst (Basic.fetchNextPage w1) = Thrown e
                -> loading (st (snd (Basic.fetchNextPage w1))) = false
                   /\ error (st (snd (Basic.fetchNextPage w1))) = Some e)
  /\ (forall e, fst (Advanced.fetchNextPage logging w2) = Thrown e
                -> loading (st (snd (Advanced.fetchNextPage logging w2))) = false
                   /\ error (st (snd (Advanced.fetchNextPage logging w2))) = Some e).
Proof.
  split; [|split; [|split]].
  - unfold Basic.fetchInitialPage. unfold bind at 1, setLoading at 1. cbv beta iota.
    apply finally_recording.
  - unfold Advanced.fetchInitialPage. unfold bind at 1, setLoading at 1. cbv beta iota.
    apply finally_recording_logging.
  - intros e He. destruct (basic_fetchNextPage_pending w1 e He) as (m & w0 & Hrun).
    rewrite Hrun in He |- *.
    split; [exact (proj1 (finally_recording m w0)) | exact (proj2 (finally_recording m w0) e He)].
  - intros e He.
    destruct (advanced_fetchNextPage_pending logging w2 e He) as (type & id & m & w0 & Hrun).
    rewrite Hrun in He |- *.
    split; [exact (proj1 (finally_recording_logging logging type id m w0))
           | exact (proj2 (finally_recording_logging logging type id m w0) e He)].
Qed.

End FetchFailures.

(** ** The collection actions: what [total] counts *)

Section Totals.
Import Js Firestore.

Lemma basic_total options (w : World Basic.Filters) :
  outage (db w) = None ->
  Basic.requestedPageSize options (view (st w)) <> 0 ->
  total (view (st (snd (Basic.fetchInitialPage options w))))
  = Some (length (scan (db w) [])).
Proof.
  intros Hup Hsize.
  destruct (Basic.requestedPageSize options (view (st w))) as [|n] eqn:Hp; [congruence|].
  assert (Hq : getDocs (Basic.initialConstraints options (view (st w))) (loadingWorld w)
               = (Returned (queryRows (db w) (Basic.initialConstraints options (view (st w)))),
                  loadingWorld w)).
  { apply (getDocs_answered _
             (Basic.filterConstraints (default (filters (view (st w))) (Basic.optFilters options))
              ++ Basic.sortConstraints (match Basic.optOrderBy options with
                                        | Some c => Some c
                                        | None => orderBy (view (st w))
                                        end))%list n (loadingWorld w)).
    - left. now rewrite basic_initial_constraints, Hp.
    - apply selectionOnly_app;
        [apply basic_filterConstraints_selection | apply basic_sortConstraints_selection].
    - exact Hup. }
  unfold loadingWorld, setLoading in Hq. simpl in Hq.
  unfold Basic.fetchInitialPage, finallyNotLoading, recordingError,
    bind, getView, setView, getCountFromServer, setLoading.
  simpl. rewrite Hq. simpl. rewrite Hup. reflexivity.
Qed.

Lemma advanced_total logging options wheres (w : World Advanced.Filters) :
  outage (db w) = None ->
  Advanced.filterConstraints (default (filters (view (st w))) (Advanced.optFilters options))
    = inr wheres ->
  total (view (st (snd (Advanced.fetchInitialPage logging options w))))
  = Some (length (queryRows (db w)
                    (wheres ++ Advanced.sortConstraints (chosenOrder options (view (st w)))
                     ++ [Limit (Advanced.requestedPageSize options (view (st w)))]))).
Proof.
  intros Hup Hwheres. unfold chosenOrder.
  set (constraints :=
         (wheres
          ++ Advanced.sortConstraints (match Advanced.optOrderBy options with
                                       | Some c => Some c
                                       | None => orderBy (view (st w))
                                       end)
          ++ [Limit (Advanced.requestedPageSize options (view (st w)))])%list).
  assert (Hpos : exists n, Advanced.requestedPageSize options (view (st w)) = S n).
  { unfold Advanced.requestedPageSize.
    destruct (Advanced.optPageSize options) as [[|k]|]; eauto;
      destruct (pageSize (view (st w))); eauto. }
  destruct Hpos as [n Hp].
  assert (Hq : getDocs constraints (loadingWorld w)
               = (Returned (queryRows (db w) constraints), loadingWorld w)).
  { apply (getDocs_answered _
             (wheres ++ Advanced.sortConstraints
                          (match Advanced.optOrderBy options with
                           | Some c => Some c
                           | None => orderBy (view (st w))
                           end))%list n (loadingWorld w)).
    - left. unfold constraints. now rewrite app_assoc, Hp.
    - apply selectionOnly_app;
        [now apply (advanced_filterConstraints_selection _ _ Hwheres)
        | apply advanced_sortConstraints_selection].
    - exact Hup. }
  unfold loadingWorld, setLoading in Hq. simpl in Hq.
  unfold Advanced.fetchInitialPage, finallyNotLoading, Advanced.recordingAndLogging,
    Advanced.whereClauses, bind, getView, setView, getCountFromServer, setLoading, ret.
  simpl. rewrite Hwheres. simpl. fold constraints. rewrite Hq. simpl. rewrite Hup. simpl.
  unfold Advanced._logActivity. simpl. rewrite Hup.
  destruct logging; reflexivity.
Qed.

(** X26: After a [fetchInitialPage] that the store answers, [total] of the
    first generation is the number of documents of the whole collection,
    whatever the filters; [total] of the second generation is the count of
    the page query, limit included: it is the number of items fetched, the
    smaller of the page size and the size of the selection, and never
    more than the page size. *)
Theorem total_counts_the_query (logging : bool)
    (options1 : Basic.FetchOptions) (options2 : Advanced.FetchOptions)
    (wheres : list Constraint)
    (w1 : World Basic.Filters) (w2 : World Advanced.Filters) :
  outage (db w1) = None ->
  Basic.requestedPageSize options1 (view (st w1)) <> 0 ->
  outage (db w2) = None ->
  Advanced.filterConstraints (default (filters (view (st w2))) (Advanced.optFilters options2))
    = inr wheres ->
  let fetched := view (st (snd (Advanced.fetchInitialPage logging options2 w2))) in
  total (view (st (snd (Basic.fetchInitialPage options1 w1))))
  = Some (length (scan (db w1) []))
  /\ total fetched = Some (length (items fetched))
  /\ total fetched
     = Some (Nat.min (Advanced.requestedPageSize options2 (view (st w2)))
                     (length (scan (db w2)
                                (wheres ++ Advanced.sortConstraints
                                             (chosenOrder options2 (view (st w2))))))).
Proof.
  intros Hup1 Hsize Hup2 Hwheres fetched.
  split; [exact (basic_total options1 w1 Hup1 Hsize)|].
  pose proof (advanced_total logging options2 wheres w2 Hup2 Hwheres) as Htotal.
  destruct (advanced_fetchInitialPage_run logging options2 wheres w2 Hup2 Hwheres)
    as (_ & Hitems & _).
  fold (chosenOrder options2 (view (st w2))) in Hitems.
  unfold fetched. rewrite Hitems. split; [exact Htotal|].
  rewrite Htotal, app_assoc, queryRows_first, length_firstn; [reflexivity|].
  apply selectionOnly_app;
    [now apply (advanced_filterConstraints_selection _ _ Hwheres)
    | apply advanced_sortConstraints_selection].
Qed.

End Totals.

Section TotalsWitness.
Import Js Firestore.

Lemma total_counts_the_query_witness :
  total (view (st (snd (Basic.fetchInitialPage
                          {| Basic.optPageSize := Some 1; Basic.optFilters := None;
                             Basic.optOrderBy := None |}
                          (freshWorld [] None twoRowsDb))))) = Some 2
  /\ total (view (st (snd (Advanced.fetchInitialPage false pageOfOneAdvanced
                             (freshWorld [] None twoRowsDb))))) = Some 1.
Proof.
  pose proof (total_counts_the_query false
                {| Basic.optPageSize := Some 1; Basic.optFilters := None;
                   Basic.optOrderBy := None |}
                pageOfOneAdvanced []
                (freshWorld [] None twoRowsDb) (freshWorld [] None twoRowsDb)
                eq_refl (fun H => O_S 0 (eq_sym H)) eq_refl eq_refl) as H.
  cbv zeta in H. destruct H as (Hbasic & _ & Hadvanced).
  split; [exact Hbasic | exact Hadvanced].
Defined.

End TotalsWitness.

(** ** The collection actions: paging through a selection, second
    generation *)

Section AdvancedPagingThrough.
Import Js Firestore.

Lemma advanced_fetchNextPage_full logging cursor wheres (w : World Advanced.Filters) :
  outage (db w) = None ->
  lastVisible (view (st w)) = Some cursor ->
  hasMore (view (st w)) = true ->
  pageSize (view (st w)) <> 0 ->
  Advanced.filterConstraints (filters (view (st w))) = inr wheres ->
  let page := queryRows (db w)
                ((wheres ++ Advanced.sortConstraints (orderBy (view (st w))))
                 ++ [StartAfter cursor; Limit (pageSize (view (st w)))]) in
  let w' := snd (Advanced.fetchNextPage logging w) in
  fst (Advanced.fetchNextPage logging w) = Returned tt
  /\ items (view (st w')) = (items (view (st w)) ++ page)%list
  /\ hasMore (view (st w')) = Nat.eqb (length page) (pageSize (view (st w)))
  /\ lastVisible (view (st w')) = lastDoc page
  /\ filters (view (st w')) = filters (view (st w))
  /\ orderBy (view (st w')) = orderBy (view (st w))
  /\ pageSize (view (st w')) = pageSize (view (st w))
  /\ scan (db w') = scan (db w)
  /\ outage (db w') = None.
Proof.
  intros Hup Hcursor Hmore Hsize Hwheres. cbv zeta.
  rewrite <- app_assoc.
  set (constraints :=
         (wheres ++ Advanced.sortConstraints (orderBy (view (st w)))
          ++ [StartAfter cursor; Limit (pageSize (view (st w)))])%list).
  destruct (pageSize (view (st w))) as [|n] eqn:Hp; [congruence|].
  assert (Hq : getDocs constraints (loadingWorld w)
               = (Returned (queryRows (db w) constraints), loadingWorld w)).
  { apply (getDocs_answered _
             (wheres ++ Advanced.sortConstraints (orderBy (view (st w))))%list
             n (loadingWorld w)).
    - right. exists cursor. unfold constraints. now rewrite app_assoc.
    - apply selectionOnly_app;
        [now apply (advanced_filterConstraints_selection _ _ Hwheres)
        | apply advanced_sortConstraints_selection].
    - exact Hup. }
  unfold loadingWorld, setLoading in Hq. simpl in Hq.
  unfold Advanced.fetchNextPage, finallyNotLoading, Advanced.recordingAndLogging,
    Advanced.whereClauses, bind, getView, setView, setLoading, ret.
  simpl. rewrite Hcursor, Hmore. simpl. rewrite Hwheres. simpl. rewrite Hp.
  fold constraints. rewrite Hq. simpl.
  unfold Advanced._logActivity. simpl. rewrite Hup.
  destruct logging; simpl; rewrite ?Hp; repeat split; try reflexivity; exact Hup.
Qed.

(** When nothing is pending, [fetchNextPage] warns on the console and
    leaves the state and the store alone. *)
Lemma advanced_fetchNextPage_idle logging (w : World Advanced.Filters) :
  lastVisible (view (st w)) = None \/ hasMore (view (st w)) = false ->
  fst (Advanced.fetchNextPage logging w) = Returned tt
  /\ st (snd (Advanced.fetchNextPage logging w)) = st w
  /\ db (snd (Advanced.fetchNextPage logging w)) = db w.
Proof.
  intros H. unfold Advanced.fetchNextPage, bind, getView, consoleWarn. simpl.
  destruct (lastVisible (view (st w))) as [c|]; [|repeat split].
  destruct H as [H|H]; [discriminate|]. rewrite H. repeat split.
Qed.

Lemma advanced_first_page_loaded logging options wheres (w : World Advanced.Filters) :
  outage (db w) = None ->
  Advanced.filterConstraints (default (filters (view (st w))) (Advanced.optFilters options))
    = inr wheres ->
  fst (Advanced.fetchInitialPage logging options w) = Returned tt
  /\ advancedPagesLoaded (scan (db w))
       (wheres ++ Advanced.sortConstraints (chosenOrder options (view (st w))))
       (Advanced.requestedPageSize options (view (st w))) 1
       (snd (Advanced.fetchInitialPage logging options w)).
Proof.
  intros Hup Hwheres.
  destruct (advanced_fetchInitialPage_run logging options wheres w Hup Hwheres)
    as (Hret & Hitems & Hmore & Hlast & Hfilters & Hsort & Hpage & _ & Hscan & Hup').
  cbv zeta in Hitems, Hmore, Hlast.
  fold (chosenOrder options (view (st w))) in Hitems, Hmore, Hlast, Hsort.
  split; [exact Hret|].
  set (n := Advanced.requestedPageSize options (view (st w))) in *.
  set (sel := (wheres ++ Advanced.sortConstraints (chosenOrder options (view (st w))))%list)
    in *.
  assert (Hsel : selectionOnly sel).
  { apply selectionOnly_app;
      [now apply (advanced_filterConstraints_selection _ _ Hwheres)
      | apply advanced_sortConstraints_selection]. }
  assert (Hn : n <> 0).
  { unfold n, Advanced.requestedPageSize.
    destruct (Advanced.optPageSize options) as [[|k]|]; try discriminate;
      destruct (pageSize (view (st w))); discriminate. }
  rewrite app_assoc in Hitems, Hmore, Hlast. fold sel in Hitems, Hmore, Hlast.
  rewrite (queryRows_first _ _ _ Hsel) in Hitems, Hmore, Hlast.
  unfold advancedPagesLoaded. cbv zeta. rewrite Nat.mul_1_r.
  split; [exact Hscan|]. split; [exact Hup'|].
  split; [exists wheres; rewrite Hfilters, Hsort; now split|].
  split; [exact Hpage|]. split; [exact Hitems|].
  rewrite Hmore, Hlast. unfold lastDoc.
  pose proof (length_firstn n (scan (db w) sel)) as Hlen.
  destruct (Nat.eqb_spec (length (firstn n (scan (db w) sel))) n) as [Hfull|Hshort].
  - left. split; [reflexivity|]. split; [lia|]. split; [reflexivity|].
    intros Hnone. apply last_None in Hnone. rewrite Hnone in Hfull. simpl in Hfull.
    congruence.
  - right. split; [now right | lia].
Qed.

Lemma advanced_next_page_loaded logging rowsOf sel n j (w : World Advanced.Filters) :
  n <> 0 -> j <> 0 ->
  List.NoDup (map snapId (rowsOf sel)) ->
  advancedPagesLoaded rowsOf sel n j w ->
  fst (Advanced.fetchNextPage logging w) = Returned tt
  /\ advancedPagesLoaded rowsOf sel n (S j) (snd (Advanced.fetchNextPage logging w)).
Proof.
  intros Hn Hj Hnd (Hscan & Hup & (wheres & Hwheres & Hsel) & Hpage & Hitems & Hstate).
  cbv zeta in *.
  destruct Hstate as [(Hmore & Hle & Hlast & Hsome)|(Hidle & Hle)].
  - destruct (lastVisible (view (st w))) as [cursor|] eqn:Hcursor; [|congruence].
    assert (Hsize : pageSize (view (st w)) <> 0) by now rewrite Hpage.
    destruct (advanced_fetchNextPage_full logging cursor wheres w Hup Hcursor Hmore Hsize
                Hwheres)
      as (Hret & Hitems' & Hmore' & Hlast' & Hfilters' & Hsort' & Hpage' & Hscan' & Hup').
    cbv zeta in Hitems', Hmore', Hlast'.
    split; [exact Hret|].
    assert (Hselection : selectionOnly sel).
    { rewrite <- Hsel. apply selectionOnly_app;
        [now apply (advanced_filterConstraints_selection _ _ Hwheres)
        | apply advanced_sortConstraints_selection]. }
    assert (Hm : exists m, n * j = S m).
    { destruct (n * j) as [|m] eqn:E; [|eauto]. apply Nat.eq_mul_0 in E. lia. }
    destruct Hm as [m Hm]. rewrite Hm in *.
    assert (Hat : rowsOf sel !! m = Some cursor).
    { rewrite <- last_of_firstn by lia. now symmetry. }
    assert (Hnext : queryRows (db w)
                      ((wheres ++ Advanced.sortConstraints (orderBy (view (st w))))
                       ++ [StartAfter cursor; Limit (pageSize (view (st w)))])
                    = firstn n (skipn (S m) (rowsOf sel))).
    { rewrite Hsel, Hpage.
      rewrite (queryRows_next _ _ _ _ Hselection), Hscan.
      now rewrite (afterCursor_at _ m cursor Hnd Hat). }
    rewrite Hnext in Hitems', Hmore', Hlast'. rewrite Hpage in Hmore'.
    assert (Hgrown : n * S j = S m + n) by lia.
    unfold advancedPagesLoaded. cbv zeta. rewrite Hgrown.
    split; [now rewrite Hscan'|]. split; [exact Hup'|].
    split; [exists wheres; rewrite Hfilters', Hsort'; now split|].
    split; [now rewrite Hpage'|].
    assert (Hall : items (view (st (snd (Advanced.fetchNextPage logging w))))
                   = firstn (S m + n) (rowsOf sel)).
    { rewrite Hitems', Hitems. apply take_take_drop. }
    split; [exact Hall|].
    rewrite Hmore', Hlast'. unfold lastDoc.
    pose proof (length_firstn n (skipn (S m) (rowsOf sel))) as Hlen.
    rewrite length_skipn in Hlen.
    destruct (Nat.eqb_spec (length (firstn n (skipn (S m) (rowsOf sel)))) n)
      as [Hfull|Hshort].
    + left. split; [reflexivity|]. split; [lia|].
      assert (Hne : firstn n (skipn (S m) (rowsOf sel)) <> []).
      { intros Hnil. rewrite Hnil in Hfull. simpl in Hfull. congruence. }
      split.
      * rewrite <- (take_take_drop (rowsOf sel) (S m) n).
        now rewrite (last_app_nonempty _ _ Hne).
      * intros Hnone. apply last_None in Hnone. contradiction.
    + right. split; [now right | lia].
  - destruct (advanced_fetchNextPage_idle logging w Hidle) as (Hret & Hst & Hdb).
    split; [exact Hret|].
    unfold advancedPagesLoaded. cbv zeta. rewrite Hst, Hdb.
    split; [exact Hscan|]. split; [exact Hup|].
    split; [exists wheres; now split|]. split; [exact Hpage|].
    split.
    + rewrite Hitems, !firstn_all2; [reflexivity | lia | lia].
    + right. split; [exact Hidle | lia].
Qed.

Lemma advanced_requestedPageSize_positive options (v : View Advanced.Filters) :
  Advanced.requestedPageSize options v <> 0.
Proof.
  unfold Advanced.requestedPageSize.
  destruct (Advanced.optPageSize options) as [[|k]|]; try discriminate;
    destruct (pageSize v); discriminate.
Qed.

(** X27: Second generation: paging neither skips nor repeats.  With the store
    up, filters that [buildWhereClause] takes and document ids that are
    distinct, after [fetchInitialPage] and any number [k] of calls of
    [fetchNextPage] the items are the first [(k + 1) * pageSize] documents
    of the selection, in its order; every call returns, and the calls past
    the end of the selection change no item.  The page size is never zero
    here: it falls back on ten. *)
Theorem advanced_paging_walks_the_selection (logging : bool)
    (options : Advanced.FetchOptions) (wheres : list Constraint)
    (w : World Advanced.Filters) (k : nat) :
  outage (db w) = None ->
  Advanced.filterConstraints (default (filters (view (st w))) (Advanced.optFilters options))
    = inr wheres ->
  List.NoDup (map snapId
                (scan (db w)
                   (wheres ++ Advanced.sortConstraints (chosenOrder options (view (st w)))))) ->
  let first := snd (Advanced.fetchInitialPage logging options w) in
  fst (Advanced.fetchInitialPage logging options w) = Returned tt
  /\ fst (Advanced.fetchNextPage logging (advancedNextPages logging k first)) = Returned tt
  /\ items (view (st (advancedNextPages logging k first)))
     = firstn (Advanced.requestedPageSize options (view (st w)) * S k)
              (scan (db w)
                 (wheres ++ Advanced.sortConstraints (chosenOrder options (view (st w)))))
  /\ Advanced.requestedPageSize options (view (st w)) <> 0.
Proof.
  intros Hup Hwheres Hnd first.
  pose proof (advanced_requestedPageSize_positive options (view (st w))) as Hn.
  destruct (advanced_first_page_loaded logging options wheres w Hup Hwheres)
    as [Hret Hfirst].
  fold first in Hfirst.
  assert (Hloaded : advancedPagesLoaded (scan (db w))
                      (wheres ++ Advanced.sortConstraints
                                   (chosenOrder options (view (st w))))
                      (Advanced.requestedPageSize options (view (st w))) (S k)
                      (advancedNextPages logging k first)).
  { induction k as [|k IH]; [exact Hfirst|].
    unfold advancedNextPages. simpl Nat.iter. fold (advancedNextPages logging k first).
    exact (proj2 (advanced_next_page_loaded logging _ _ _ (S k) _ Hn
                    (Nat.neq_succ_0 k) Hnd IH)). }
  split; [exact Hret|].
  split; [exact (proj1 (advanced_next_page_loaded logging _ _ _ (S k) _ Hn
                          (Nat.neq_succ_0 k) Hnd Hloaded))|].
  split; [|exact Hn].
  destruct Hloaded as (_ & _ & _ & _ & Hitems & _). exact Hitems.
Qed.

End AdvancedPagingThrough.

Section AdvancedPagingThroughWitness.
Import Js Firestore.

Lemma advanced_paging_walks_the_selection_witness :
  items (view (st (advancedNextPages false 1
                     (snd (Advanced.fetchInitialPage false pageOfOneAdvanced
                             (freshWorld [] None twoRowsDb))))))
  = [row "a"; row "b"].
Proof.
  exact (proj1 (proj2 (proj2 (advanced_paging_walks_the_selection false pageOfOneAdvanced []
                                (freshWorld [] None twoRowsDb) 1
                                eq_refl eq_refl twoRows_unique)))).
Defined.

End AdvancedPagingThroughWitness.
